(** * ArbCore: the execution engine of the Arbitrum AVM node

    A shallow embedding of [ArbCore] (arb-avm-cpp, data_storage/arbcore.cpp):
    the message mailbox, the log / send / message readers, the logs
    cursors, the checkpoint and reorg protocol, the sideload cache and the
    execution cursor.

    Conventions of the embedding.
    - [uint256_t] is a [Z] in [0, 2^256); additions and subtractions wrap.
    - A RocksDB column is an association list ordered by key; iterators are
      suffixes of that list.  Keys are the integers that the key slices
      denote; [marshal_uint256_t] writes them as a tag byte followed by 32
      big-endian bytes, so the order of the slices is that of the integers.
    - A transaction is a working copy of the store; [commit] publishes it.
      The in-memory store never fails, so column reads and writes return
      [OK] or [NotFound] only.
    - [assert] is compiled in or out by the build ([ndebug]); a failed
      assertion terminates the process ([Crash]); a C++ exception is
      [Throw].
    - The [ValueCache] arguments only memoise [getValue] and are dropped.
    - The readers of the message log seek to a slice whose pointer was
      taken before the key was appended to its buffer; the key that such a
      slice denotes is the platform's ([stale_slice]). *)

From Stdlib Require Import ZArith Lia String.
From stdpp Require Import base list gmap.

Local Open Scope Z_scope.

(** ** 256-bit and size_t arithmetic *)

Definition U256 : Z := 2 ^ 256.
Definition SIZE_MAX : Z := 2 ^ 64 - 1.

Definition add256 (a b : Z) : Z := (a + b) mod U256.
Definition sub256 (a b : Z) : Z := (a - b) mod U256.
Definition is_u256 (a : Z) : Prop := 0 <= a < U256.

(** ** rocksdb::Status *)

Inductive Status : Set :=
  | OK | NotFound | Corruption | IOError | Busy | TryAgain.

Definition ok (s : Status) : bool :=
  match s with OK => true | _ => false end.

Definition IsNotFound (s : Status) : bool :=
  match s with NotFound => true | _ => false end.

Definition ToString (s : Status) : string :=
  match s with
  | OK => "OK"
  | NotFound => "NotFound: "
  | Corruption => "Corruption: "
  | IOError => "IO error: "
  | Busy => "Resource busy: "
  | TryAgain => "Operation failed. Try again.: "
  end%string.

(** [ValueResult<T>]: a status together with the data. *)
Definition ValueResult (T : Type) : Type := (Status * T)%type.

(** ** Control outcomes: normal return, C++ exception, failed assertion *)

Inductive Outcome (A : Type) : Type :=
  | Ret (a : A)
  | Throw (what : string)
  | Crash.
Arguments Ret {A} a.
Arguments Throw {A} what.
Arguments Crash {A}.

Definition obind {A B} (m : Outcome A) (k : A -> Outcome B) : Outcome B :=
  match m with
  | Ret a => k a
  | Throw w => Throw w
  | Crash => Crash
  end.

Notation "'let*' x ':=' m 'in' k" := (obind m (fun x => k))
  (at level 10, x pattern, m at level 100, k at level 200).

(** [assert(b)]: nothing when assertions are compiled out, otherwise the
    process is terminated when [b] is false. *)
Definition assert_ (ndebug b : bool) : Outcome unit :=
  if ndebug || b then Ret tt else Crash.

(** ** Ordered columns and their iterators *)

Definition bytes : Type := list Z.
Definition Column (V : Type) : Type := list (Z * V).

Section Columns.
Context {V : Type}.

(** [it->Seek(key)]: the entries with key at or after [key]. *)
Fixpoint Seek (key : Z) (c : Column V) : Column V :=
  match c with
  | [] => []
  | (k, v) :: c' => if k <? key then Seek key c' else c
  end.

(** [it->SeekForPrev(key)]: the last entry with key at or before [key]. *)
Fixpoint SeekForPrev (key : Z) (c : Column V) : option (Z * V) :=
  match c with
  | [] => None
  | (k, v) :: c' =>
      if k <=? key then
        match SeekForPrev key c' with
        | Some e => Some e
        | None => Some (k, v)
        end
      else None
  end.

Definition Get (key : Z) (c : Column V) : option V :=
  match Seek key c with
  | (k, v) :: _ => if k =? key then Some v else None
  | [] => None
  end.

Fixpoint Put (key : Z) (v : V) (c : Column V) : Column V :=
  match c with
  | [] => [(key, v)]
  | (k, x) :: c' =>
      if key <? k then (key, v) :: c
      else if key =? k then (key, v) :: c'
      else (k, x) :: Put key v c'
  end.

Definition Delete (key : Z) (c : Column V) : Column V :=
  filter (fun e => e.1 <> key) c.

(** The column holding [vs] at the dense indices [from], [from + 1], ... *)
Fixpoint dense (from : Z) (vs : list V) : Column V :=
  match vs with
  | [] => []
  | v :: vs' => (from, v) :: dense (from + 1) vs'
  end.
End Columns.

(** ** Data model *)

(** [InboxState]: the number of messages consumed and the accumulator of
    the last one. *)
Record InboxState := {
  count : Z;
  accumulator : Z;
}.

Record MachineOutput := {
  fully_processed_inbox : InboxState;
  arb_gas_used : Z;
  send_count : Z;
  log_count : Z;
  last_sideload : option Z;
}.

(** [MachineStateKeys]: the persisted form of a machine state. *)
Record MachineStateKeys := {
  static_hash : Z;
  register_hash : Z;
  datastack_hash : Z;
  auxstack_hash : Z;
  arb_gas_remaining : Z;
  pc_segment : Z;
  err_pc_segment : Z;
  staged_message : option Z;
  output : MachineOutput;
}.

(** The value stored under a sequencer batch item key. *)
Record SequencerBatchItemValue := {
  v_total_delayed_count : Z;
  v_accumulator : Z;
  v_sequencer_message : option bytes;
}.

Record SequencerBatchItem := {
  last_sequence_number : Z;
  total_delayed_count : Z;
  item_accumulator : Z;
  sequencer_message : option bytes;
}.

Definition deserializeSequencerBatchItem
    (last_seq : Z) (v : SequencerBatchItemValue) : SequencerBatchItem :=
  {| last_sequence_number := last_seq;
     total_delayed_count := v_total_delayed_count v;
     item_accumulator := v_accumulator v;
     sequencer_message := v_sequencer_message v |}.

Record RawMessageAndAccumulator := {
  message : bytes;
  raw_accumulator : Z;
}.

(** The mailbox slot between the feeder and the core thread. *)
Inductive message_status_enum : Set :=
  | MESSAGES_EMPTY
  | MESSAGES_READY
  | MESSAGES_SUCCESS
  | MESSAGES_NEED_OLDER
  | MESSAGES_ERROR.

Inductive cursor_status : Set :=
  | EMPTY | REQUESTED | READY | ERROR.

Inductive machine_status : Set :=
  | MACHINE_NONE | MACHINE_ABORTED | MACHINE_ERROR | MACHINE_SUCCESS.

#[global] Instance message_status_eq_dec : EqDecision message_status_enum.
Proof. solve_decision. Defined.
#[global] Instance cursor_status_eq_dec : EqDecision cursor_status.
Proof. solve_decision. Defined.
#[global] Instance machine_status_eq_dec : EqDecision machine_status.
Proof. solve_decision. Defined.
#[global] Instance Status_eq_dec : EqDecision Status.
Proof. solve_decision. Defined.

(** ** External collaborators *)

(** The value store (data_storage/value/value.hpp) is consumed through its
    interface: [getValue] reconstitutes the value under a hash or reports
    a status, [saveValue] adds a reference, [deleteValue] drops one. *)
Class ValueStore : Type := {
  value : Type;
  VStore : Type;
  hash_value : value -> Z;
  getValue : VStore -> Z -> Status + value;
  saveValue : VStore -> value -> Status * VStore;
  deleteValue : VStore -> Z -> VStore;
}.

(** The platform.

    [narrow_cast] is [intx::narrow_cast<size_t>]: the identity on what
    fits a [size_t].

    [stale_slice] is what an iterator reads through the lower-bound slices
    of [getNextSequencerBatchItem] and [getMessagesImpl].  Both take the
    pointer of the slice from the buffer [tmp] before [marshal_uint256_t]
    appends the tag byte and the 32 bytes of the number to it, and [tmp]
    is constructed with a size ([tmp(32)], [tmp(32 * 2)]), not with a
    reservation.  Where the append moves the buffer, the slice is left
    pointing into the released one; where it does not, the slice covers the
    zeros that the constructor wrote, or starts at the tag byte.  Either
    way it does not cover the 32 bytes written for the number, and which
    key it denotes is not determined by the program: [stale_slice n] is
    that key when [n] is the number marshalled. *)
Class Platform : Type := {
  narrow_cast : Z -> Outcome Z;
  narrow_cast_fits : forall x, 0 <= x <= SIZE_MAX -> narrow_cast x = Ret x;
  stale_slice : Z -> Z;
}.

Record Assertion `{ValueStore} : Type := {
  gasCount : Z;
  logs : list value;
  sends : list bytes;
  sideloadBlockNumber : option Z;
}.

(** The virtual machine (avm/machine.hpp, avm/machinethread.hpp) and the
    wire format of inbox messages are consumed through their interfaces. *)
Class AVM `{ValueStore} : Type := {
  Machine : Type;
  MachineThread : Type;
  InboxMessage : Type;
  default_InboxMessage : InboxMessage;
  extractInboxMessage : bytes -> InboxMessage;
  (** [MachineStateKeys{mach->machine_state}] *)
  machine_state_keys : Machine -> MachineStateKeys;
  (** the plain [Machine] copied out of a machine thread *)
  thread_machine : MachineThread -> Machine;
  getTotalMessagesRead : MachineStateKeys -> Z;
  nextGasCost : Machine -> Z;
  (** [mach->machine_state.context = AssertionContext(cfg); mach->run()] *)
  run : Machine -> Z -> bool -> list (InboxMessage * Z) -> Machine * Assertion;
  getMachineUsingStateKeys : VStore -> MachineStateKeys -> Outcome Machine;
  getMachineThreadUsingStateKeys :
    VStore -> MachineStateKeys -> Outcome MachineThread;
  saveMachineState : VStore -> MachineThread -> Status * VStore;
  thread_status : MachineThread -> machine_status;
  nextAssertion : MachineThread -> Assertion * MachineThread;
  continueRunningMachine : MachineThread -> bool * MachineThread;
  abortMachine : MachineThread -> MachineThread;
}.

(** ** The store, the cursors and the core object *)

Section Core.
Context {VS : ValueStore} {PF : Platform} {VM : AVM}.

(** Assertions are compiled out when [ndebug] is set. *)
Variable ndebug : bool.

Record DataStorage : Type := {
  checkpoint_col : Column MachineStateKeys;
  log_col : Column Z;
  send_col : Column bytes;
  state_col : gmap bytes Z;
  sequencer_batch_item_col : Column SequencerBatchItemValue;
  delayed_message_col : Column bytes;
  sideload_col : Column Z;
  value_store : VStore;
}.

Definition set_checkpoint_col (c : Column MachineStateKeys) (tx : DataStorage) :=
  {| checkpoint_col := c; log_col := log_col tx; send_col := send_col tx;
     state_col := state_col tx;
     sequencer_batch_item_col := sequencer_batch_item_col tx;
     delayed_message_col := delayed_message_col tx;
     sideload_col := sideload_col tx; value_store := value_store tx |}.

Definition set_log_col (c : Column Z) (tx : DataStorage) :=
  {| checkpoint_col := checkpoint_col tx; log_col := c; send_col := send_col tx;
     state_col := state_col tx;
     sequencer_batch_item_col := sequencer_batch_item_col tx;
     delayed_message_col := delayed_message_col tx;
     sideload_col := sideload_col tx; value_store := value_store tx |}.

Definition set_send_col (c : Column bytes) (tx : DataStorage) :=
  {| checkpoint_col := checkpoint_col tx; log_col := log_col tx; send_col := c;
     state_col := state_col tx;
     sequencer_batch_item_col := sequencer_batch_item_col tx;
     delayed_message_col := delayed_message_col tx;
     sideload_col := sideload_col tx; value_store := value_store tx |}.

Definition set_state_col (c : gmap bytes Z) (tx : DataStorage) :=
  {| checkpoint_col := checkpoint_col tx; log_col := log_col tx;
     send_col := send_col tx; state_col := c;
     sequencer_batch_item_col := sequencer_batch_item_col tx;
     delayed_message_col := delayed_message_col tx;
     sideload_col := sideload_col tx; value_store := value_store tx |}.

Definition set_sideload_col (c : Column Z) (tx : DataStorage) :=
  {| checkpoint_col := checkpoint_col tx; log_col := log_col tx;
     send_col := send_col tx; state_col := state_col tx;
     sequencer_batch_item_col := sequencer_batch_item_col tx;
     delayed_message_col := delayed_message_col tx;
     sideload_col := c; value_store := value_store tx |}.

Definition set_value_store (s : VStore) (tx : DataStorage) :=
  {| checkpoint_col := checkpoint_col tx; log_col := log_col tx;
     send_col := send_col tx; state_col := state_col tx;
     sequencer_batch_item_col := sequencer_batch_item_col tx;
     delayed_message_col := delayed_message_col tx;
     sideload_col := sideload_col tx; value_store := s |}.

(** [DataCursor] (data_storage/datacursor.hpp), with the fields that
    arbcore.cpp reads and writes. *)
Record DataCursor : Type := {
  status : cursor_status;
  current_total_key : bytes;
  pending_total_count : Z;
  data : list value;
  deleted_data : list value;
  number_requested : Z;
  error_string : string;
}.

Record ArbCore : Type := {
  data_storage : DataStorage;
  machine : option MachineThread;
  sideload_cache : gmap Z Machine;
  message_data_status : message_status_enum;
  core_error_string : string;
  logs_cursors : list DataCursor;
  machine_idle : bool;
  machine_error : bool;
  last_machine_output : MachineOutput;
}.

Definition set_data_storage (d : DataStorage) (core : ArbCore) :=
  {| data_storage := d; machine := machine core;
     sideload_cache := sideload_cache core;
     message_data_status := message_data_status core;
     core_error_string := core_error_string core;
     logs_cursors := logs_cursors core; machine_idle := machine_idle core;
     machine_error := machine_error core;
     last_machine_output := last_machine_output core |}.

Definition set_machine (m : option MachineThread) (core : ArbCore) :=
  {| data_storage := data_storage core; machine := m;
     sideload_cache := sideload_cache core;
     message_data_status := message_data_status core;
     core_error_string := core_error_string core;
     logs_cursors := logs_cursors core; machine_idle := machine_idle core;
     machine_error := machine_error core;
     last_machine_output := last_machine_output core |}.

Definition set_sideload_cache (c : gmap Z Machine) (core : ArbCore) :=
  {| data_storage := data_storage core; machine := machine core;
     sideload_cache := c;
     message_data_status := message_data_status core;
     core_error_string := core_error_string core;
     logs_cursors := logs_cursors core; machine_idle := machine_idle core;
     machine_error := machine_error core;
     last_machine_output := last_machine_output core |}.

Definition set_message_data_status (s : message_status_enum) (core : ArbCore) :=
  {| data_storage := data_storage core; machine := machine core;
     sideload_cache := sideload_cache core;
     message_data_status := s;
     core_error_string := core_error_string core;
     logs_cursors := logs_cursors core; machine_idle := machine_idle core;
     machine_error := machine_error core;
     last_machine_output := last_machine_output core |}.

Definition set_core_error_string (s : string) (core : ArbCore) :=
  {| data_storage := data_storage core; machine := machine core;
     sideload_cache := sideload_cache core;
     message_data_status := message_data_status core;
     core_error_string := s;
     logs_cursors := logs_cursors core; machine_idle := machine_idle core;
     machine_error := machine_error core;
     last_machine_output := last_machine_output core |}.

Definition set_logs_cursors (l : list DataCursor) (core : ArbCore) :=
  {| data_storage := data_storage core; machine := machine core;
     sideload_cache := sideload_cache core;
     message_data_status := message_data_status core;
     core_error_string := core_error_string core;
     logs_cursors := l; machine_idle := machine_idle core;
     machine_error := machine_error core;
     last_machine_output := last_machine_output core |}.

Definition set_machine_error (b : bool) (core : ArbCore) :=
  {| data_storage := data_storage core; machine := machine core;
     sideload_cache := sideload_cache core;
     message_data_status := message_data_status core;
     core_error_string := core_error_string core;
     logs_cursors := logs_cursors core; machine_idle := machine_idle core;
     machine_error := b;
     last_machine_output := last_machine_output core |}.

Definition set_last_machine_output (o : MachineOutput) (core : ArbCore) :=
  {| data_storage := data_storage core; machine := machine core;
     sideload_cache := sideload_cache core;
     message_data_status := message_data_status core;
     core_error_string := core_error_string core;
     logs_cursors := logs_cursors core; machine_idle := machine_idle core;
     machine_error := machine_error core;
     last_machine_output := o |}.

(** *** Keys of the state column *)

Definition log_inserted_key : bytes := [196].
Definition log_processed_key : bytes := [195].
Definition send_inserted_key : bytes := [194].
Definition send_processed_key : bytes := [193].
Definition message_entry_inserted_key : bytes := [192].
Definition logscursor_current_prefix : bytes := [190].

Definition sideload_cache_size : Z := 20.

(** *** Column accessors of a transaction *)

(** Modelled from the spec: [ReadTransaction::stateGetUint256], the point
    read of the state column of the key-value store contract; a missing
    key has the not-found status. *)
Definition stateGetUint256 (tx : DataStorage) (key : bytes) : ValueResult Z :=
  match state_col tx !! key with
  | Some v => (OK, v)
  | None => (NotFound, 0)
  end.

(** Modelled from the spec: [ReadWriteTransaction::statePut]. *)
Definition statePut (tx : DataStorage) (key : bytes) (v : Z)
    : Status * DataStorage :=
  (OK, set_state_col (<[key := v]> (state_col tx)) tx).

(** Modelled from the spec: the vector reads of a column
    ([logGetUint256Vector], [sendGetVectorVector]): seek to the first key,
    then read [count] entries forward; running out of entries is
    not-found. *)
Definition getVectorUsingKey {V} (c : Column V) (key : Z) (count : Z)
    : ValueResult (list V) :=
  let es := take (Z.to_nat count) (Seek key c) in
  if Z.of_nat (length es) <? count then (NotFound, []) else (OK, es.*2).

Definition logGetUint256Vector (tx : DataStorage) (key count : Z) :=
  getVectorUsingKey (log_col tx) key count.

Definition sendGetVectorVector (tx : DataStorage) (key count : Z) :=
  getVectorUsingKey (send_col tx) key count.

(** *** The mailbox *)

Definition messagesStatus (core : ArbCore) : message_status_enum * ArbCore :=
  let current_status := message_data_status core in
  let core :=
    if bool_decide (current_status <> MESSAGES_ERROR)
       && bool_decide (current_status <> MESSAGES_READY)
    then set_message_data_status MESSAGES_EMPTY core
    else core in
  (current_status, core).

Definition messagesClearError (core : ArbCore) : string * ArbCore :=
  if bool_decide (message_data_status core <> MESSAGES_ERROR)
     && bool_decide (message_data_status core <> MESSAGES_NEED_OLDER)
  then (EmptyString, core)
  else
    let core := set_message_data_status MESSAGES_EMPTY core in
    let str := core_error_string core in
    (str, set_core_error_string EmptyString core).

(** *** Counters *)

Definition logInsertedCountImpl (tx : DataStorage) : ValueResult Z :=
  stateGetUint256 tx log_inserted_key.

Definition logInsertedCount (core : ArbCore) : ValueResult Z :=
  logInsertedCountImpl (data_storage core).

Definition updateLogInsertedCount (tx : DataStorage) (log_index : Z) :=
  statePut tx log_inserted_key log_index.

Definition sendInsertedCountImpl (tx : DataStorage) : ValueResult Z :=
  stateGetUint256 tx send_inserted_key.

Definition sendInsertedCount (core : ArbCore) : ValueResult Z :=
  sendInsertedCountImpl (data_storage core).

Definition updateSendInsertedCount (tx : DataStorage) (send_index : Z) :=
  statePut tx send_inserted_key send_index.

Definition messageEntryInsertedCountImpl (tx : DataStorage) : ValueResult Z :=
  stateGetUint256 tx message_entry_inserted_key.

Definition updateMessageEntryInsertedCount (tx : DataStorage) (i : Z) :=
  statePut tx message_entry_inserted_key i.

(** *** Logs and sends *)

(** The loop of [getLogsNoLock] that reconstitutes each hash. *)
Fixpoint getLogValues (vs : VStore) (hashes : list Z) (acc : list value)
    : ValueResult (list value) :=
  match hashes with
  | [] => (OK, acc)
  | h :: hashes' =>
      match getValue vs h with
      | inl s => (s, [])
      | inr v => getLogValues vs hashes' (acc ++ [v])
      end
  end.

Definition getLogsNoLock (tx : DataStorage) (index count : Z)
    : Outcome (ValueResult (list value)) :=
  if count =? 0 then Ret (OK, [])
  else
    (* Check if attempting to get entries past current valid logs *)
    let log_count := logInsertedCountImpl tx in
    if negb (ok log_count.1) then Ret (log_count.1, [])
    else
      let max_log_count := log_count.2 in
      if index >=? max_log_count then Ret (OK, [])
      else
        let count :=
          if add256 index count >? max_log_count
          then sub256 max_log_count index else count in
        let* n := narrow_cast count in
        let hash_result := logGetUint256Vector tx index n in
        if negb (ok hash_result.1) then Ret (hash_result.1, [])
        else Ret (getLogValues (value_store tx) hash_result.2 []).

(** [getLogs] reads through a snapshot of the committed store. *)
Definition getLogs (core : ArbCore) (index count : Z) :=
  getLogsNoLock (data_storage core) index count.

Definition getSends (core : ArbCore) (index count : Z)
    : Outcome (ValueResult (list bytes)) :=
  let tx := data_storage core in
  if count =? 0 then Ret (OK, [])
  else
    (* Check if attempting to get entries past current valid sends *)
    let send_count := sendInsertedCountImpl tx in
    if negb (ok send_count.1) then Ret (send_count.1, [])
    else
      let max_send_count := send_count.2 in
      if index >=? max_send_count then Ret (NotFound, [])
      else
        let count :=
          if add256 index count >? max_send_count
          then sub256 max_send_count index else count in
        let* n := narrow_cast count in
        Ret (sendGetVectorVector tx index n).

(** *** Logs cursors *)

Definition set_status (s : cursor_status) (c : DataCursor) :=
  {| status := s; current_total_key := current_total_key c;
     pending_total_count := pending_total_count c; data := data c;
     deleted_data := deleted_data c;
     number_requested := number_requested c;
     error_string := error_string c |}.

Definition set_pending_total_count (n : Z) (c : DataCursor) :=
  {| status := status c; current_total_key := current_total_key c;
     pending_total_count := n; data := data c;
     deleted_data := deleted_data c;
     number_requested := number_requested c;
     error_string := error_string c |}.

Definition set_data (d : list value) (c : DataCursor) :=
  {| status := status c; current_total_key := current_total_key c;
     pending_total_count := pending_total_count c; data := d;
     deleted_data := deleted_data c;
     number_requested := number_requested c;
     error_string := error_string c |}.

Definition set_deleted_data (d : list value) (c : DataCursor) :=
  {| status := status c; current_total_key := current_total_key c;
     pending_total_count := pending_total_count c; data := data c;
     deleted_data := d;
     number_requested := number_requested c;
     error_string := error_string c |}.

Definition logsCursorGetCurrentTotalCount (tx : DataStorage) (c : DataCursor)
    : ValueResult Z :=
  stateGetUint256 tx (current_total_key c).

Definition logsCursorSaveCurrentTotalCount
    (tx : DataStorage) (c : DataCursor) (n : Z) : Status * DataStorage :=
  statePut tx (current_total_key c) n.

(** The first half of [handleLogsCursorReorg]: snapshot the logs that are
    about to be deleted.  [inl] is an early return with a status. *)
Definition cursorReorgSaveDeleted
    (tx : DataStorage) (cur : DataCursor) (current log_count : Z)
    : Outcome (Status * DataCursor + DataCursor * DataStorage) :=
  if log_count <? pending_total_count cur then
    (* Need to save logs that will be deleted *)
    let* logs := getLogsNoLock tx log_count
                   (sub256 (pending_total_count cur) log_count) in
    if negb (ok logs.1) then Ret (inl (logs.1, cur))
    else
      let cur := set_deleted_data (deleted_data cur ++ rev logs.2) cur in
      let cur := set_pending_total_count log_count cur in
      if current >? log_count then
        let st := logsCursorSaveCurrentTotalCount tx cur log_count in
        if negb (ok st.1) then Ret (inl (st.1, cur))
        else Ret (inr (cur, st.2))
      else Ret (inr (cur, tx))
  else Ret (inr (cur, tx)).

(** The second half: drop the queued data that lies past [log_count]. *)
Definition cursorReorgTruncateData
    (cur : DataCursor) (current log_count : Z) : Outcome DataCursor :=
  if negb (bool_decide (data cur = [])) then
    if current >=? log_count then
      (* Don't save anything *)
      Ret (set_data [] cur)
    else if add256 current (Z.of_nat (length (data cur))) >? log_count then
      (* Only part of the data needs to be removed *)
      let* logs_to_keep := narrow_cast (sub256 log_count current) in
      Ret (set_data (take (Z.to_nat logs_to_keep) (data cur)) cur)
    else Ret cur
  else Ret cur.

Definition cursorReorgDowngrade (cur : DataCursor) : DataCursor :=
  if bool_decide (status cur = READY)
     && bool_decide (data cur = [])
     && bool_decide (deleted_data cur = [])
  then set_status REQUESTED cur
  else cur.

(** [handleLogsCursorReorg] must be called before logs are deleted.  The
    cursor is updated in place, also on the early returns; the store is
    written only by the final commit. *)
Definition handleLogsCursorReorg
    (core : ArbCore) (cursor_index : nat) (log_count : Z)
    : Outcome (Status * ArbCore) :=
  match logs_cursors core !! cursor_index with
  | None => Throw "Invalid logsCursor index"
  | Some cur =>
      let tx := data_storage core in
      let store c :=
        set_logs_cursors (<[cursor_index := c]> (logs_cursors core)) core in
      let current_count_result := logsCursorGetCurrentTotalCount tx cur in
      if negb (ok current_count_result.1)
      then Ret (current_count_result.1, core)
      else
        let current := current_count_result.2 in
        let cur :=
          if current >? pending_total_count cur
          then set_pending_total_count current cur else cur in
        let* saved := cursorReorgSaveDeleted tx cur current log_count in
        match saved with
        | inl (s, cur) => Ret (s, store cur)
        | inr (cur, tx) =>
            let* cur := cursorReorgTruncateData cur current log_count in
            let cur := cursorReorgDowngrade cur in
            (* tx.commit() *)
            Ret (OK, set_data_storage tx (store cur))
        end
  end.

(** *** Sideloads *)

(** The eviction test of the core thread's sideload cache. *)
Definition sideloadEvicted (block key : Z) : bool :=
  ((block >? sideload_cache_size)
   && (key <? sub256 block sideload_cache_size))
  || (key >? block).

(** The "cache pre-sideload machines" block of [operator()]: store the
    machine under [block], then erase what is too old or in the future. *)
Definition cacheSideloadMachine
    (block : Z) (m : Machine) (cache : gmap Z Machine) : gmap Z Machine :=
  filter (fun e => sideloadEvicted block e.1 = false) (<[block := m]> cache).

Definition sideloadDelete (tx : DataStorage) (key : Z) : DataStorage :=
  set_sideload_col (Delete key (sideload_col tx)) tx.

Definition deleteSideloadsStartingAt
    (core : ArbCore) (tx : DataStorage) (block_number : Z)
    : Status * ArbCore * DataStorage :=
  (* Clear the cache *)
  let cache := filter (fun e => e.1 < block_number) (sideload_cache core) in
  (* Clear the DB *)
  let it := Seek block_number (sideload_col tx) in
  let tx := fold_left (fun tx e => sideloadDelete tx e.1) it tx in
  let s := OK in
  let s := if IsNotFound s then OK else s in
  (s, set_sideload_cache cache core, tx).

Definition saveSideloadPosition
    (tx : DataStorage) (block_number arb_gas_used : Z)
    : Status * DataStorage :=
  (OK, set_sideload_col (Put block_number arb_gas_used (sideload_col tx)) tx).

(** *** Deleting logs *)

Definition deleteValueTx (tx : DataStorage) (h : Z) : DataStorage :=
  set_value_store (deleteValue (value_store tx) h) tx.

(** [deleteLogsStartingAt] drops the value reference of the given index
    and of every newer log.  The iterator of the in-memory store has the
    status OK throughout. *)
Definition deleteLogsStartingAt (tx : DataStorage) (log_index : Z)
    : option Status * DataStorage :=
  let it := Seek log_index (log_col tx) in
  let it_status := OK in
  if IsNotFound it_status then (None, tx)
  else if negb (ok it_status) then (Some it_status, tx)
  else
    let tx := fold_left (fun tx e => deleteValueTx tx e.2) it tx in
    (Some OK, tx).

(** *** The message log *)

Definition empty_SequencerBatchItem : SequencerBatchItem :=
  {| last_sequence_number := 0; total_delayed_count := 0;
     item_accumulator := 0; sequencer_message := None |}.

(** [getNextSequencerBatchItem]: [ptr] is [tmp.data()], taken before
    [marshal_uint256_t(sequence_number, tmp)] appends behind the 32 bytes
    that [tmp] already holds, so the iterator seeks to what the stale slice
    reads, not to [sequence_number]. *)
Definition getNextSequencerBatchItem (tx : DataStorage) (sequence_number : Z)
    : ValueResult SequencerBatchItem :=
  let seq_batch_lower_bound := stale_slice sequence_number in
  match Seek seq_batch_lower_bound (sequencer_batch_item_col tx) with
  | [] => (NotFound, empty_SequencerBatchItem)
  | (k, v) :: _ => (OK, deserializeSequencerBatchItem k v)
  end.

Definition isValid (tx : DataStorage) (inbox : InboxState) : bool :=
  if count inbox =? 0 then true
  else
    let result := getNextSequencerBatchItem tx (sub256 (count inbox) 1) in
    ok result.1 && (item_accumulator result.2 =? accumulator inbox).

(** The inner loop of [getMessagesImpl] over the delayed messages of one
    batch item; it returns the iterator, [prev_delayed_count] and the
    messages. *)
Fixpoint readDelayedMessages
    (it : Column bytes) (prev_delayed_count : Z) (item : SequencerBatchItem)
    (count : Z) (messages : list RawMessageAndAccumulator)
    : Outcome (Column bytes * Z * list RawMessageAndAccumulator) :=
  match it with
  | [] => Ret (it, prev_delayed_count, messages)
  | (k, v) :: it' =>
      if (prev_delayed_count <? total_delayed_count item)
         && (Z.of_nat (length messages) <? count)
      then
        if negb (k =? prev_delayed_count)
        then Throw "Got wrong delayed message from database"
        else
          readDelayedMessages it' (add256 prev_delayed_count 1) item count
            (messages ++ [{| message := v;
                             raw_accumulator := item_accumulator item |}])
      else Ret (it, prev_delayed_count, messages)
  end.

(** How the consistency check at the head of the loop body ends. *)
Inductive CheckFlow : Type :=
  | CheckReturn (r : ValueResult (list RawMessageAndAccumulator))
  | CheckBreak
  | CheckContinue (prev_delayed_count : Z)
  | CheckPass (prev_delayed_count : Z).

Definition consistencyCheck
    (index count : Z) (start_acc : option Z) (item : SequencerBatchItem)
    : Outcome CheckFlow :=
  if match start_acc with
     | Some a => negb (item_accumulator item =? a)
     | None => false
     end
  then Ret (CheckReturn (NotFound, []))
  else if count =? 0 then
    (* Skip some possible work attempting to read delayed messages *)
    Ret CheckBreak
  else
    let prev_delayed_count := total_delayed_count item in
    if last_sequence_number item >=? index then
      (* We are in the middle of a delayed batch *)
      let* _ := assert_ ndebug (negb (bool_decide (is_Some (sequencer_message item)))) in
      Ret (CheckPass
             (sub256 prev_delayed_count
                (sub256 (add256 (last_sequence_number item) 1) index)))
    else
      (* We are just after this batch item *)
      let* _ := assert_ ndebug (add256 (last_sequence_number item) 1 =? index) in
      Ret (CheckContinue prev_delayed_count).

(** The messages that one batch item emits. *)
Definition emitBatchItem
    (tx : DataStorage) (count : Z) (item : SequencerBatchItem)
    (prev_delayed_count : Z) (delayed_msg_it : option (Column bytes))
    (messages : list RawMessageAndAccumulator)
    : Outcome (Z * option (Column bytes) * list RawMessageAndAccumulator) :=
  match sequencer_message item with
  | Some m =>
      let messages :=
        messages ++ [{| message := m;
                        raw_accumulator := item_accumulator item |}] in
      if negb (prev_delayed_count =? total_delayed_count item)
      then Throw "Sequencer batch item included both sequencer message and delayed messages"
      else Ret (prev_delayed_count, delayed_msg_it, messages)
  | None =>
      if total_delayed_count item >? prev_delayed_count then
        let it :=
          match delayed_msg_it with
          | Some it => it
          | None =>
              let delayed_msg_lower_bound := stale_slice prev_delayed_count in
              Seek delayed_msg_lower_bound (delayed_message_col tx)
          end in
        let* r := readDelayedMessages it prev_delayed_count item count messages in
        let '(it, prev_delayed_count, messages) := r in
        if (Z.of_nat (length messages) <? count)
           && negb (prev_delayed_count =? total_delayed_count item)
        then Throw "Sequencer batch item referenced nonexistent delayed messages"
        else Ret (prev_delayed_count, Some it, messages)
      else
        (* This batch item does nothing? *)
        let* _ := assert_ ndebug false in
        Ret (prev_delayed_count, delayed_msg_it, messages)
  end.

(** The loop of [getMessagesImpl] over the sequencer batch items. *)
Fixpoint readBatchItems
    (tx : DataStorage) (index count : Z) (start_acc : option Z)
    (it : Column SequencerBatchItemValue)
    (needs_consistency_check : bool) (prev_delayed_count : Z)
    (delayed_msg_it : option (Column bytes))
    (messages : list RawMessageAndAccumulator)
    : Outcome (ValueResult (list RawMessageAndAccumulator)) :=
  match it with
  | [] =>
      if needs_consistency_check then Ret (NotFound, [])
      else Ret (OK, messages)
  | (k, v) :: it' =>
      let item := deserializeSequencerBatchItem k v in
      let* flow :=
        if needs_consistency_check
        then consistencyCheck index count start_acc item
        else Ret (CheckPass prev_delayed_count) in
      match flow with
      | CheckReturn r => Ret r
      | CheckBreak => Ret (OK, messages)
      | CheckContinue prev_delayed_count =>
          readBatchItems tx index count start_acc it' false
            prev_delayed_count delayed_msg_it messages
      | CheckPass prev_delayed_count =>
          let* r := emitBatchItem tx count item prev_delayed_count
                      delayed_msg_it messages in
          let '(prev_delayed_count, delayed_msg_it, messages) := r in
          if Z.of_nat (length messages) >=? count then Ret (OK, messages)
          else
            let* _ := assert_ ndebug
                (add256 (last_sequence_number item) 1
                 =? add256 index (Z.of_nat (length messages))) in
            readBatchItems tx index count start_acc it' false
              prev_delayed_count delayed_msg_it messages
      end
  end.

(** [getMessagesImpl]; as in [getNextSequencerBatchItem], the pointers of
    the two lower-bound slices are [tmp.data() + tmp.size()], taken before
    [marshal_uint256_t] appends [start] and [prev_delayed_count] to [tmp]:
    the iterators seek to what the stale slices read. *)
Definition getMessagesImpl
    (tx : DataStorage) (index count : Z) (start_acc : option Z)
    : Outcome (ValueResult (list RawMessageAndAccumulator)) :=
  let start := index in
  let needs_consistency_check := start >? 0 in
  (* Check the previous item to ensure the inbox state is valid *)
  let start := if start >? 0 then sub256 start 1 else start in
  let seq_batch_lower_bound := stale_slice start in
  readBatchItems tx index count start_acc
    (Seek seq_batch_lower_bound (sequencer_batch_item_col tx))
    needs_consistency_check 0 None [].

(** [getMessages]: [bytes_vec] is constructed with [result.data.size()]
    elements and the messages are pushed behind them. *)
Definition getMessages (core : ArbCore) (index count : Z)
    : Outcome (ValueResult (list bytes)) :=
  let tx := data_storage core in
  let* result := getMessagesImpl tx index count None in
  if negb (ok result.1) then Ret (result.1, [])
  else
    let bytes_vec : list bytes := replicate (length result.2) [] in
    let bytes_vec :=
      fold_left (fun vec message_and_acc => vec ++ [message message_and_acc])
        result.2 bytes_vec in
    Ret (result.1, bytes_vec).

(** [MachineMessage]: an inbox message with its accumulator. *)
Definition MachineMessage : Type := (InboxMessage * Z)%type.
Definition default_MachineMessage : MachineMessage :=
  (default_InboxMessage, 0).

(** [readNextMessages]: [messages] is constructed with [count] elements
    and the messages read are emplaced behind them. *)
Definition readNextMessages
    (tx : DataStorage) (inbox : InboxState) (count : Z)
    : Outcome (ValueResult (list MachineMessage)) :=
  let messages := replicate (Z.to_nat count) default_MachineMessage in
  let '{| count := inbox_count; accumulator := inbox_accumulator |} := inbox in
  let* raw_result :=
    getMessagesImpl tx inbox_count count (Some inbox_accumulator) in
  if negb (ok raw_result.1) then Ret (raw_result.1, messages)
  else
    let messages :=
      fold_left
        (fun ms raw_message =>
           ms ++ [(extractInboxMessage (message raw_message),
                   raw_accumulator raw_message)])
        raw_result.2 messages in
    Ret (OK, messages).

(** *** Saving assertions and checkpoints *)

Definition logPut (tx : DataStorage) (key : Z) (h : Z) : Status * DataStorage :=
  (OK, set_log_col (Put key h (log_col tx)) tx).

Definition sendPut (tx : DataStorage) (key : Z) (b : bytes) : Status * DataStorage :=
  (OK, set_send_col (Put key b (send_col tx)) tx).

Definition checkpointPut (tx : DataStorage) (key : Z) (k : MachineStateKeys)
    : Status * DataStorage :=
  (OK, set_checkpoint_col (Put key k (checkpoint_col tx)) tx).

Definition checkpointDelete (tx : DataStorage) (key : Z) : DataStorage :=
  set_checkpoint_col (Delete key (checkpoint_col tx)) tx.

Definition saveValueTx (tx : DataStorage) (v : value) : Status * DataStorage :=
  let r := saveValue (value_store tx) v in
  (r.1, set_value_store r.2 tx).

Fixpoint saveLogsLoop (tx : DataStorage) (log_index : Z) (vals : list value)
    : Status * DataStorage * Z :=
  match vals with
  | [] => (OK, tx, log_index)
  | val :: vals' =>
      let value_result := saveValueTx tx val in
      if negb (ok value_result.1) then (value_result.1, value_result.2, log_index)
      else
        let st := logPut value_result.2 log_index (hash_value val) in
        if negb (ok st.1) then (st.1, st.2, log_index)
        else saveLogsLoop st.2 (add256 log_index 1) vals'
  end.

Definition saveLogs (tx : DataStorage) (vals : list value)
    : Status * DataStorage :=
  if bool_decide (vals = []) then (OK, tx)
  else
    let log_result := logInsertedCountImpl tx in
    if negb (ok log_result.1) then (log_result.1, tx)
    else
      let '(st, tx, log_index) := saveLogsLoop tx log_result.2 vals in
      if negb (ok st) then (st, tx)
      else updateLogInsertedCount tx log_index.

Fixpoint saveSendsLoop (tx : DataStorage) (send_count : Z) (sends : list bytes)
    : Status * DataStorage * Z :=
  match sends with
  | [] => (OK, tx, send_count)
  | send :: sends' =>
      let st := sendPut tx send_count send in
      if negb (ok st.1) then (st.1, st.2, send_count)
      else saveSendsLoop st.2 (add256 send_count 1) sends'
  end.

Definition saveSends (tx : DataStorage) (sends : list bytes)
    : Status * DataStorage :=
  if bool_decide (sends = []) then (OK, tx)
  else
    let send_result := sendInsertedCountImpl tx in
    if negb (ok send_result.1) then (send_result.1, tx)
    else
      let '(st, tx, send_count) := saveSendsLoop tx send_result.2 sends in
      if negb (ok st) then (st, tx)
      else updateSendInsertedCount tx send_count.

Definition saveAssertion
    (tx : DataStorage) (assertion : Assertion) (arb_gas_used : Z)
    : Status * DataStorage :=
  let st := saveLogs tx (logs assertion) in
  if negb (ok st.1) then st
  else
    let st := saveSends st.2 (sends assertion) in
    if negb (ok st.1) then st
    else
      match sideloadBlockNumber assertion with
      | Some block =>
          let st := saveSideloadPosition st.2 block arb_gas_used in
          if negb (ok st.1) then st else (OK, st.2)
      | None => (OK, st.2)
      end.

(** The state keys and the output of the live machine. *)
Definition thread_state_keys (m : MachineThread) : MachineStateKeys :=
  machine_state_keys (thread_machine m).

(** [saveCheckpoint]: dereferencing a null [machine] ends the process. *)
Definition saveCheckpoint (core : ArbCore) (tx : DataStorage)
    : Outcome (Status * DataStorage) :=
  match machine core with
  | None => Crash
  | Some m =>
      let state := thread_state_keys m in
      if negb (isValid tx (fully_processed_inbox (output state))) then
        (* Attempted to save invalid checkpoint *)
        let* _ := assert_ ndebug false in
        Ret (OK, tx)
      else
        let st := saveMachineState (value_store tx) m in
        let tx := set_value_store st.2 tx in
        if negb (ok st.1) then Ret (st.1, tx)
        else
          let put_status := checkpointPut tx (arb_gas_used (output state)) state in
          if negb (ok put_status.1) then Ret put_status
          else Ret (OK, put_status.2)
  end.

(** *** Reorganisation *)

(** Modelled from the spec: [deleteMachineState]
    (data_storage/value/machine.hpp).  Deleting a checkpoint calls the
    value store's delete for each hash field (static, register, stack,
    aux) of the state keys. *)
Definition deleteMachineState (tx : DataStorage) (k : MachineStateKeys)
    : DataStorage :=
  fold_left deleteValueTx
    [static_hash k; register_hash k; datastack_hash k; auxstack_hash k] tx.

(** Whether the loop of [reorgToMessageOrBefore] stops at [checkpoint]. *)
Definition isGoodCheckpoint
    (tx : DataStorage) (message_sequence_number : Z) (use_latest : bool)
    (checkpoint : MachineStateKeys) : Outcome bool :=
  if (getTotalMessagesRead checkpoint =? 0) || use_latest
     || (message_sequence_number
         >=? sub256 (getTotalMessagesRead checkpoint) 1)
  then
    if isValid tx (fully_processed_inbox (output checkpoint)) then
      (* Good checkpoint *)
      Ret true
    else
      (* Error: Invalid checkpoint found *)
      let* _ := assert_ ndebug false in
      Ret false
  else Ret false.

(** The walk down the checkpoints, newest first: delete each checkpoint
    until one at or below [message_sequence_number] is good.  Running off
    the first checkpoint returns the iterator's status. *)
Fixpoint reorgFindCheckpoint
    (it : Column MachineStateKeys) (tx : DataStorage)
    (message_sequence_number : Z) (use_latest : bool)
    : Outcome (MachineStateKeys * DataStorage + Status) :=
  match it with
  | [] => Ret (inr OK)
  | (key, checkpoint) :: it' =>
      let* good :=
        isGoodCheckpoint tx message_sequence_number use_latest checkpoint in
      if good then Ret (inl (checkpoint, tx))
      else
        (* Obsolete checkpoint, need to delete referenced machine *)
        let tx := deleteMachineState tx checkpoint in
        (* Delete checkpoint to make sure it isn't used later *)
        let tx := checkpointDelete tx key in
        reorgFindCheckpoint it' tx message_sequence_number use_latest
  end.

Fixpoint reorgLogsCursors
    (core : ArbCore) (indices : list nat) (log_count : Z)
    : Outcome (Status * ArbCore) :=
  match indices with
  | [] => Ret (OK, core)
  | i :: indices' =>
      let* r := handleLogsCursorReorg core i log_count in
      if negb (ok r.1) then Ret r
      else reorgLogsCursors r.2 indices' log_count
  end.

(** The part of [reorgToMessageOrBefore] after the target checkpoint has
    been found and the checkpoint deletions have been committed. *)
Definition reorgToCheckpoint (core : ArbCore) (checkpoint : MachineStateKeys)
    : Outcome (Status * ArbCore) :=
  let log_inserted_count := logInsertedCount core in
  if negb (ok log_inserted_count.1) then Ret (log_inserted_count.1, core)
  else
    let* r :=
      if log_count (output checkpoint) <? log_inserted_count.2 then
        (* Update log cursors, must be called before logs are deleted *)
        reorgLogsCursors core (seq 0 (length (logs_cursors core)))
          (log_count (output checkpoint))
      else Ret (OK, core) in
    let '(st, core) := r in
    if negb (ok st) then Ret (st, core)
    else
      let next_sideload_block_number :=
        match last_sideload (output checkpoint) with
        | Some b => add256 b 1
        | None => 0
        end in
      let tx := data_storage core in
      let '(st, core, tx) :=
        deleteSideloadsStartingAt core tx next_sideload_block_number in
      if negb (ok st) then Ret (st, core)
      else
        (* Delete logs individually to handle reference counts *)
        let '(optional_status, tx) :=
          deleteLogsStartingAt tx (log_count (output checkpoint)) in
        if match optional_status with
           | Some s => negb (ok s)
           | None => false
           end
        then Ret (default OK optional_status, core)
        else
          let st := updateLogInsertedCount tx (log_count (output checkpoint)) in
          if negb (ok st.1) then Ret (st.1, core)
          else
            let st := updateSendInsertedCount st.2 (send_count (output checkpoint)) in
            if negb (ok st.1) then Ret (st.1, core)
            else
              let tx := st.2 in
              (* Machine was executing obsolete messages so restore
                 machine from last checkpoint *)
              let core := set_machine (abortMachine <$> machine core) core in
              let* m := getMachineThreadUsingStateKeys (value_store tx) checkpoint in
              let core := set_machine (Some m) core in
              (* Update last machine output *)
              let core := set_last_machine_output (output (thread_state_keys m)) core in
              Ret (OK, set_data_storage tx core).

Definition reorgToMessageOrBefore
    (core : ArbCore) (message_sequence_number : Z) (use_latest : bool)
    : Outcome (Status * ArbCore) :=
  let tx := data_storage core in
  (* Find first checkpoint to delete *)
  let it := rev (checkpoint_col tx) in
  if bool_decide (it = []) then Ret (NotFound, core)
  else
    let* setup := reorgFindCheckpoint it tx message_sequence_number use_latest in
    match setup with
    | inr s => Ret (s, core)
    | inl (checkpoint, tx) =>
        reorgToCheckpoint (set_data_storage tx core) checkpoint
    end.

(** *** The core thread: a machine that stopped with an assertion *)

Inductive TickFlow : Type := TickBreak | TickContinue.

(** The sideload part of the branch: cache the machine, save a
    checkpoint, restart the machine.  [inl] leaves the loop. *)
Definition coreThreadSideload
    (core : ArbCore) (tx : DataStorage) (m : MachineThread) (block : Z)
    : Outcome (ArbCore + ArbCore * DataStorage) :=
  let core :=
    set_sideload_cache
      (cacheSideloadMachine block (thread_machine m) (sideload_cache core))
      core in
  (* Save checkpoint for every sideload *)
  let* st := saveCheckpoint core tx in
  if negb (ok st.1)
  then Ret (inl (set_core_error_string (ToString st.1) core))
  else
    (* Machine was stopped to save sideload, start machine back up *)
    let '(machine_success, m) := continueRunningMachine m in
    let core := set_machine (Some m) core in
    if negb machine_success then
      Ret (inl (set_machine_error true
                  (set_core_error_string "Error starting machine thread" core)))
    else Ret (inr (core, st.2)).

(** The [MACHINE_SUCCESS] branch of [operator()]. *)
Definition coreThreadMachineSuccess (core : ArbCore)
    : Outcome (TickFlow * ArbCore) :=
  match machine core with
  | None => Crash
  | Some m =>
      let tx := data_storage core in
      let '(last_assertion, m) := nextAssertion m in
      let core := set_machine (Some m) core in
      (* Save last machine output *)
      let core := set_last_machine_output (output (thread_state_keys m)) core in
      (* Save logs and sends *)
      let st := saveAssertion tx last_assertion
                  (arb_gas_used (output (thread_state_keys m))) in
      if negb (ok st.1)
      then Ret (TickBreak, set_core_error_string (ToString st.1) core)
      else
        let* r :=
          match sideloadBlockNumber last_assertion with
          | Some block => coreThreadSideload core st.2 m block
          | None => Ret (inr (core, st.2))
          end in
        match r with
        | inl core => Ret (TickBreak, core)
        | inr (core, tx) => Ret (TickContinue, set_data_storage tx core)
        end
  end.

(** *** Execution cursors *)

Definition getCheckpointUsingGas
    (tx : DataStorage) (total_gas : Z) (after_gas : bool)
    : Status + MachineStateKeys :=
  match SeekForPrev total_gas (checkpoint_col tx) with
  | None => inl NotFound
  | Some (k, v) =>
      if after_gas then
        match Seek (k + 1) (checkpoint_col tx) with
        | [] => inl NotFound
        | (_, v') :: _ => inr v'
        end
      else inr v
  end.

Definition getClosestExecutionMachine (tx : DataStorage) (total_gas_used : Z)
    : Status + MachineStateKeys :=
  getCheckpointUsingGas tx total_gas_used false.

(** [ExecutionCursor]: state keys, or a materialised machine. *)
Definition ExecutionCursor : Type := (MachineStateKeys + Machine)%type.

Definition getOutput (c : ExecutionCursor) : MachineOutput :=
  match c with
  | inl keys => output keys
  | inr mach => output (machine_state_keys mach)
  end.

Definition resolveExecutionCursorMachine
    (tx : DataStorage) (c : ExecutionCursor) : Outcome Machine :=
  match c with
  | inl keys => getMachineUsingStateKeys (value_store tx) keys
  | inr mach => Ret mach
  end.

(** How the inner loop of [advanceExecutionCursorImpl] ends. *)
Inductive AdvanceFlow : Type :=
  | AdvanceDone (c : ExecutionCursor)
  | AdvanceReorg (c : ExecutionCursor)
  | AdvanceReturn (s : Status) (c : ExecutionCursor)
  | AdvanceOutOfFuel.

(** The inner loop: run the machine until the gas target is reached.
    [fuel] bounds the number of machine runs. *)
Fixpoint advanceRunMachine
    (fuel : nat) (tx : DataStorage) (c : ExecutionCursor)
    (total_gas_used : Z) (go_over_gas : bool) (message_group_size : Z)
    : Outcome AdvanceFlow :=
  match fuel with
  | O => Ret AdvanceOutOfFuel
  | S fuel' =>
      let* mach := resolveExecutionCursorMachine tx c in
      let c : ExecutionCursor := inr mach in
      let gas_used := arb_gas_used (getOutput c) in
      if gas_used =? total_gas_used then Ret (AdvanceDone c)
      else if go_over_gas && (gas_used >? total_gas_used)
      then Ret (AdvanceDone c)
      else if negb go_over_gas
              && (add256 gas_used (nextGasCost mach) >? total_gas_used)
      then Ret (AdvanceDone c)
      else
        let* get_messages_result :=
          readNextMessages tx (fully_processed_inbox (getOutput c))
            message_group_size in
        if negb (IsNotFound get_messages_result.1) then
          (* Reorg occurred, need to recreate machine *)
          Ret (AdvanceReorg c)
        else if negb (ok get_messages_result.1) then
          (* Error getting messages for execution cursor *)
          Ret (AdvanceReturn get_messages_result.1 c)
        else
          let '(mach, assertion) :=
            run mach total_gas_used go_over_gas get_messages_result.2 in
          if gasCount assertion =? 0 then Ret (AdvanceDone (inr mach))
          else advanceRunMachine fuel' tx (inr mach) total_gas_used
                 go_over_gas message_group_size
  end.

(** The outer loop; [rounds] bounds its iterations (17 always suffice,
    because the 17th returns busy).  [None] is fuel running out. *)
Fixpoint advanceHandleReorg
    (rounds fuel : nat) (core : ArbCore) (c : ExecutionCursor)
    (total_gas_used : Z) (go_over_gas : bool) (message_group_size : Z)
    (reorg_attempts : Z)
    : Outcome (option (Status * ExecutionCursor)) :=
  match rounds with
  | O => Ret None
  | S rounds' =>
      let* busy :=
        if reorg_attempts >? 0 then
          let* _ := assert_ ndebug false in
          Ret (reorg_attempts >=? 16)
        else Ret false in
      if busy then Ret (Some (Busy, c))
      else
        let reorg_attempts := reorg_attempts + 1 in
        let tx := data_storage core in
        let* flow := advanceRunMachine fuel tx c total_gas_used go_over_gas
                       message_group_size in
        match flow with
        | AdvanceOutOfFuel => Ret None
        | AdvanceReturn s c => Ret (Some (s, c))
        | AdvanceDone c => Ret (Some (OK, c))
        | AdvanceReorg c =>
            match getClosestExecutionMachine tx total_gas_used with
            | inl s => Ret (Some (s, c))
            | inr keys =>
                advanceHandleReorg rounds' fuel core (inl keys)
                  total_gas_used go_over_gas message_group_size
                  reorg_attempts
            end
        end
  end.

(** [advanceExecutionCursorImpl]; the store is not written during the
    call. *)
Definition advanceExecutionCursorImpl
    (fuel : nat) (core : ArbCore) (c : ExecutionCursor)
    (total_gas_used : Z) (go_over_gas : bool) (message_group_size : Z)
    : Outcome (option (Status * ExecutionCursor)) :=
  advanceHandleReorg 17 fuel core c total_gas_used go_over_gas
    message_group_size 0.

Definition getExecutionCursor
    (fuel : nat) (core : ArbCore) (total_gas_used : Z)
    : Outcome (option (Status * option ExecutionCursor)) :=
  match getClosestExecutionMachine (data_storage core) total_gas_used with
  | inl s => Ret (Some (s, None))
  | inr keys =>
      let* r := advanceExecutionCursorImpl fuel core (inl keys)
                  total_gas_used false 10 in
      Ret ((fun r => (r.1, Some r.2)) <$> r)
  end.

End Core.

Arguments DataStorage {VS}.
Arguments DataCursor {VS}.
Arguments ArbCore {VS VM}.
Arguments ExecutionCursor {VS VM}.

#[global] Instance TickFlow_eq_dec : EqDecision TickFlow.
Proof. solve_decision. Defined.

(** ** Reachable states of the sideload cache

    The cache starts empty and is written at two places only: the core
    thread caches a machine at each sideload, and a reorg deletes the
    sideloads from a block upward. *)
Inductive SideloadCacheReachable {VS : ValueStore} {VM : AVM}
    : gmap Z Machine -> Prop :=
  | cache_initial : SideloadCacheReachable ∅
  | cache_sideload (cache : gmap Z Machine) (block : Z) (m : Machine) :
      SideloadCacheReachable cache ->
      is_u256 block ->
      SideloadCacheReachable (cacheSideloadMachine block m cache)
  | cache_reorg (core : ArbCore) (tx : DataStorage) (block_number : Z) :
      SideloadCacheReachable (sideload_cache core) ->
      SideloadCacheReachable
        (sideload_cache (deleteSideloadsStartingAt core tx block_number).1.2).

(** ** A reference instance of the collaborators

    Integer values stored with a reference count, a size_t cast that
    throws on overflow, a stale slice that reads as the greatest key (so
    that a seek to it finds no entry), and a machine that is its own state
    keys and spends one unit of gas per inbox message. *)

Definition refGetValue (vs : gmap Z (nat * Z)) (h : Z) : Status + Z :=
  match vs !! h with
  | Some (_, v) => inr v
  | None => inl NotFound
  end.

Definition refHash (v : Z) : Z := v + 1000.

Definition refSaveValue (vs : gmap Z (nat * Z)) (v : Z)
    : Status * gmap Z (nat * Z) :=
  match vs !! refHash v with
  | Some (n, _) => (OK, <[refHash v := (S n, v)]> vs)
  | None => (OK, <[refHash v := (1%nat, v)]> vs)
  end.

Definition refDeleteValue (vs : gmap Z (nat * Z)) (h : Z) : gmap Z (nat * Z) :=
  match vs !! h with
  | Some (S (S n), v) => <[h := (S n, v)]> vs
  | Some _ => delete h vs
  | None => vs
  end.

Definition refValueStore : ValueStore :=
  {| value := Z; VStore := gmap Z (nat * Z); hash_value := refHash;
     getValue := refGetValue; saveValue := refSaveValue;
     deleteValue := refDeleteValue |}.

Definition refNarrowCast (x : Z) : Outcome Z :=
  if (0 <=? x) && (x <=? SIZE_MAX) then Ret x
  else Throw "narrow_cast overflow".

#[local] Instance refPlatform : Platform.
Proof.
  refine {| narrow_cast := refNarrowCast; stale_slice := fun _ => U256 - 1 |}.
  intros x Hx. unfold refNarrowCast.
  destruct (Z.leb_spec 0 x); [|lia].
  destruct (Z.leb_spec x SIZE_MAX); [reflexivity|lia].
Defined.



Definition refRun (m : MachineStateKeys) (max_gas : Z) (go_over_gas : bool)
    (msgs : list (bytes * Z)) : MachineStateKeys * @Assertion refValueStore :=
  let n := Z.of_nat (length msgs) in
  let out := output m in
  let inbox :=
    {| count := count (fully_processed_inbox out) + n;
       accumulator := default (accumulator (fully_processed_inbox out))
                        (snd <$> last msgs) |} in
  ({| static_hash := static_hash m; register_hash := register_hash m;
      datastack_hash := datastack_hash m; auxstack_hash := auxstack_hash m;
      arb_gas_remaining := arb_gas_remaining m;
      pc_segment := pc_segment m; err_pc_segment := err_pc_segment m;
      staged_message := staged_message m;
      output := {| fully_processed_inbox := inbox;
                   arb_gas_used := arb_gas_used out + n;
                   send_count := send_count out;
                   log_count := log_count out;
                   last_sideload := last_sideload out |} |},
   {| gasCount := n; logs := []; sends := []; sideloadBlockNumber := None |}).

Record refThread : Type := {
  ref_state : MachineStateKeys;
  ref_status : machine_status;
  ref_assertion : @Assertion refValueStore;
}.

Definition refAVM : @AVM refValueStore :=
  {| Machine := MachineStateKeys;
     MachineThread := refThread;
     InboxMessage := bytes;
     default_InboxMessage := [];
     extractInboxMessage := fun b => b;
     machine_state_keys := fun m => m;
     thread_machine := ref_state;
     getTotalMessagesRead := fun k =>
       count (fully_processed_inbox (output k))
       + match staged_message k with Some _ => 1 | None => 0 end;
     nextGasCost := fun _ => 1;
     run := refRun;
     getMachineUsingStateKeys := fun _ k => Ret k;
     getMachineThreadUsingStateKeys := fun _ k =>
       Ret {| ref_state := k; ref_status := MACHINE_NONE;
              ref_assertion := {| gasCount := 0; logs := []; sends := [];
                                  sideloadBlockNumber := None |} |};
     saveMachineState := fun vs _ => (OK, vs);
     thread_status := ref_status;
     nextAssertion := fun t =>
       (ref_assertion t,
        {| ref_state := ref_state t; ref_status := MACHINE_NONE;
           ref_assertion := ref_assertion t |});
     continueRunningMachine := fun t => (true, t);
     abortMachine := fun t =>
       {| ref_state := ref_state t; ref_status := MACHINE_ABORTED;
          ref_assertion := ref_assertion t |} |}.

(** ** A small store to compute on *)

Definition refKeys (gas : Z) (inbox : InboxState) (nlogs nsends : Z)
    (sideload : option Z) : MachineStateKeys :=
  {| static_hash := 1001; register_hash := 1002; datastack_hash := 1003;
     auxstack_hash := 1004; arb_gas_remaining := 1000000;
     pc_segment := 0; err_pc_segment := 0; staged_message := None;
     output := {| fully_processed_inbox := inbox; arb_gas_used := gas;
                  send_count := nsends; log_count := nlogs;
                  last_sideload := sideload |} |}.

Definition noInbox : InboxState := {| count := 0; accumulator := 0 |}.

(** Two sequencer messages with accumulators 11 and 22, three logs (the
    values 7, 8, 9), two sends, a genesis checkpoint and a checkpoint at
    gas 2 after both messages, and one logs cursor that has confirmed one
    log. *)
Definition refStore : @DataStorage refValueStore :=
  {| checkpoint_col :=
       [(0, refKeys 0 noInbox 0 0 None);
        (2, refKeys 2 {| count := 2; accumulator := 22 |} 1 1 (Some 5))];
     log_col := dense 0 [1007; 1008; 1009];
     send_col := dense 0 [[1]; [2; 2]];
     state_col :=
       list_to_map [([196], 3); ([194], 2); ([192], 2); ([190; 0], 1)];
     sequencer_batch_item_col :=
       [(0, {| v_total_delayed_count := 0; v_accumulator := 11;
               v_sequencer_message := Some [10] |});
        (1, {| v_total_delayed_count := 0; v_accumulator := 22;
               v_sequencer_message := Some [20] |})];
     delayed_message_col := [];
     sideload_col := [(5, 2)];
     value_store :=
       list_to_map [(1001, (2%nat, 1)); (1002, (2%nat, 2)); (1003, (2%nat, 3));
                    (1004, (2%nat, 4)); (1007, (1%nat, 7)); (1008, (1%nat, 8));
                    (1009, (1%nat, 9))] |}.

Definition refCursor : @DataCursor refValueStore :=
  @Build_DataCursor refValueStore READY [190; 0] 3 [8; 9] [] 2 EmptyString.

Definition refThreadAt (k : MachineStateKeys) : refThread :=
  {| ref_state := k; ref_status := MACHINE_SUCCESS;
     ref_assertion := {| gasCount := 1; logs := []; sends := [];
                         sideloadBlockNumber := Some 6 |} |}.

Definition refMachineKeys : MachineStateKeys :=
  refKeys 2 {| count := 2; accumulator := 22 |} 1 1 (Some 5).

Definition refCore : @ArbCore refValueStore refAVM :=
  @Build_ArbCore refValueStore refAVM
    refStore (Some (refThreadAt refMachineKeys)) ∅ MESSAGES_SUCCESS
    EmptyString [refCursor] false false (output refMachineKeys).

(** A core whose live machine has consumed one message with accumulator
    99, which the message log (accumulator 11 at sequence number 0) does
    not confirm. *)
Definition staleKeys : MachineStateKeys :=
  refKeys 1 {| count := 1; accumulator := 99 |} 0 0 None.

Definition staleCore : @ArbCore refValueStore refAVM :=
  @Build_ArbCore refValueStore refAVM
    refStore (Some (refThreadAt staleKeys)) ∅ MESSAGES_EMPTY
    EmptyString [refCursor] false false (output staleKeys).

Definition genesisKeys : MachineStateKeys := refKeys 0 noInbox 0 0 None.

(** The reorg of [refCore] to message 0: the checkpoint at gas 2 is
    obsolete, the genesis checkpoint is the target. *)
Definition reorgedTx : @DataStorage refValueStore :=
  @checkpointDelete refValueStore
    (@deleteMachineState refValueStore refStore refMachineKeys) 2.

Definition reorgedCore : @ArbCore refValueStore refAVM :=
  match @reorgToMessageOrBefore refValueStore refPlatform refAVM true
          refCore 0 false with
  | Ret (_, core) => core
  | _ => refCore
  end.

(** ** The consumer-facing operations

    The mailbox of the feeder, the logs cursors, and the readers of the
    inbox accumulators and of the checkpoints. *)

Section Consumers.
Context {VS : ValueStore} {PF : Platform} {VM : AVM}.

(** [message_data_struct]: the batch that the feeder hands over. *)
Record message_data_struct : Type := {
  messages : list bytes;
  previous_inbox_acc : Z;
  last_block_complete : bool;
  reorg_message_count : option Z;
}.

(** [deliverMessages] sends messages to the core thread; the batch is the
    [message_data] member of the core. *)
Definition deliverMessages
    (core : ArbCore) (message_data : message_data_struct)
    (msgs : list bytes) (prev_inbox_acc : Z) (block_complete : bool)
    (reorg_count : option Z)
    : bool * ArbCore * message_data_struct :=
  if bool_decide (message_data_status core <> MESSAGES_EMPTY)
  then (false, core, message_data)
  else
    (true, set_message_data_status MESSAGES_READY core,
     {| messages := msgs; previous_inbox_acc := prev_inbox_acc;
        last_block_complete := block_complete;
        reorg_message_count := reorg_count |}).

(** What the feeder may call on the mailbox. *)
Inductive FeederCall : Type :=
  | CallDeliverMessages (msgs : list bytes) (prev_inbox_acc : Z)
      (block_complete : bool) (reorg_count : option Z)
  | CallMessagesStatus
  | CallMessagesClearError.

Definition feederCall
    (st : ArbCore * message_data_struct) (c : FeederCall)
    : ArbCore * message_data_struct :=
  match c with
  | CallDeliverMessages msgs acc complete reorg =>
      let '(_, core, md) := deliverMessages st.1 st.2 msgs acc complete reorg in
      (core, md)
  | CallMessagesStatus => ((messagesStatus st.1).2, st.2)
  | CallMessagesClearError => ((messagesClearError st.1).2, st.2)
  end.

(** *** Logs cursors: the consumer side *)

Definition set_number_requested (n : Z) (c : DataCursor) : DataCursor :=
  {| status := status c; current_total_key := current_total_key c;
     pending_total_count := pending_total_count c; data := data c;
     deleted_data := deleted_data c;
     number_requested := n;
     error_string := error_string c |}.

Definition set_error_string (s : string) (c : DataCursor) : DataCursor :=
  {| status := status c; current_total_key := current_total_key c;
     pending_total_count := pending_total_count c; data := data c;
     deleted_data := deleted_data c;
     number_requested := number_requested c;
     error_string := s |}.

(** [logs_cursors[cursor_index] = c] *)
Definition storeCursor (core : ArbCore) (cursor_index : nat) (c : DataCursor)
    : ArbCore :=
  set_logs_cursors (<[cursor_index := c]> (logs_cursors core)) core.

(** The error exits of the cursor functions: the error string is set, then
    the status. *)
Definition cursorError (s : string) (c : DataCursor) : DataCursor :=
  set_status ERROR (set_error_string s c).

Definition logsCursorRequest (core : ArbCore) (cursor_index : nat) (count : Z)
    : Outcome (bool * ArbCore) :=
  match logs_cursors core !! cursor_index with
  | None => Throw "Invalid logsCursor index"
  | Some cur =>
      if bool_decide (status cur <> EMPTY) then Ret (false, core)
      else
        Ret (true,
             storeCursor core cursor_index
               (set_status REQUESTED (set_number_requested count cur)))
  end.

(** [handleLogsCursorRequested]: the core thread fills a requested cursor.
    [tx] is the read transaction of the caller; the logs are read with
    [getLogs], through a snapshot of its own. *)
Definition handleLogsCursorRequested
    (core : ArbCore) (tx : DataStorage) (cursor_index : nat)
    : Outcome ArbCore :=
  match logs_cursors core !! cursor_index with
  | None => Throw "Invalid logsCursor index"
  | Some cur =>
      let cur := set_data [] cur in
      (* Provide requested logs *)
      let log_inserted_count := logInsertedCountImpl tx in
      if negb (ok log_inserted_count.1) then
        Ret (storeCursor core cursor_index
               (cursorError (ToString log_inserted_count.1) cur))
      else
        let current_count_result := logsCursorGetCurrentTotalCount tx cur in
        if negb (ok current_count_result.1) then
          Ret (storeCursor core cursor_index
                 (cursorError (ToString current_count_result.1) cur))
        else if current_count_result.2 =? log_inserted_count.2 then
          (* No new messages, so don't post any changes *)
          Ret (storeCursor core cursor_index cur)
        else if current_count_result.2 >? log_inserted_count.2 then
          Ret (storeCursor core cursor_index
                 (cursorError
                    "current_count_result greater than log_inserted_count" cur))
        else
          let cur :=
            if add256 current_count_result.2 (number_requested cur)
               >? log_inserted_count.2
            then
              (* Too many entries requested *)
              set_number_requested
                (sub256 log_inserted_count.2 current_count_result.2) cur
            else cur in
          if number_requested cur =? 0 then
            (* No new logs to provide *)
            Ret (storeCursor core cursor_index (set_status READY cur))
          else
            let* requested_logs :=
              getLogs core current_count_result.2 (number_requested cur) in
            if negb (ok requested_logs.1) then
              Ret (storeCursor core cursor_index
                     (cursorError (ToString requested_logs.1) cur))
            else
              Ret (storeCursor core cursor_index
                     (set_status READY (set_data requested_logs.2 cur)))
  end.

(** [ArbCore::logscursor_logs]; its [logs] member is [new_logs] here. *)
Record logscursor_logs : Type := {
  first_log_index : Z;
  new_logs : list value;
  deleted_logs : list value;
}.

Definition empty_logscursor_logs : logscursor_logs :=
  {| first_log_index := 0; new_logs := []; deleted_logs := [] |}.

Definition logsCursorGetLogs (core : ArbCore) (cursor_index : nat)
    : Outcome (ValueResult logscursor_logs * ArbCore) :=
  match logs_cursors core !! cursor_index with
  | None => Throw "Invalid logsCursor index"
  | Some cur =>
      if bool_decide (status cur <> READY) then
        (* No new logs yet *)
        Ret ((TryAgain, empty_logscursor_logs), core)
      else
        let tx := data_storage core in
        let current_count_result := logsCursorGetCurrentTotalCount tx cur in
        if negb (ok current_count_result.1)
        then Ret ((current_count_result.1, empty_logscursor_logs), core)
        else
          let cur :=
            set_pending_total_count
              (add256 current_count_result.2 (Z.of_nat (length (data cur))))
              cur in
          let logs :=
            {| first_log_index := current_count_result.2;
               new_logs := data cur;
               deleted_logs := deleted_data cur |} in
          let cur := set_deleted_data [] (set_data [] cur) in
          Ret ((OK, logs), storeCursor core cursor_index cur)
  end.

Definition logsCursorConfirmReceived (core : ArbCore) (cursor_index : nat)
    : Outcome (bool * ArbCore) :=
  match logs_cursors core !! cursor_index with
  | None => Throw "Invalid logsCursor index"
  | Some cur =>
      if bool_decide (status cur <> READY) then
        Ret (false,
             storeCursor core cursor_index
               (cursorError "logsCursorConfirmReceived called at wrong state"
                  cur))
      else if negb (bool_decide (data cur = [])) then
        (* Still have logs to get *)
        Ret (false, core)
      else if negb (bool_decide (data cur = []))
              || negb (bool_decide (deleted_data cur = [])) then
        (* Still have logs to get *)
        Ret (false, core)
      else
        let tx := data_storage core in
        let st := logsCursorSaveCurrentTotalCount tx cur
                    (pending_total_count cur) in
        (* tx.commit() *)
        let core := set_data_storage st.2 core in
        Ret (true, storeCursor core cursor_index (set_status EMPTY cur))
  end.

Definition logsCursorCheckError (core : ArbCore) (cursor_index : nat)
    : Outcome bool :=
  match logs_cursors core !! cursor_index with
  | None => Throw "Invalid logsCursor index"
  | Some cur => Ret (bool_decide (status cur = ERROR))
  end.

Definition logsCursorPosition (core : ArbCore) (cursor_index : nat)
    : Outcome (ValueResult Z) :=
  match logs_cursors core !! cursor_index with
  | None => Throw "Invalid logsCursor index"
  | Some cur => Ret (logsCursorGetCurrentTotalCount (data_storage core) cur)
  end.

Definition logsCursorClearError (core : ArbCore) (cursor_index : nat)
    : string * ArbCore :=
  match logs_cursors core !! cursor_index with
  | None => ("Invalid logsCursor index"%string, core)
  | Some cur =>
      if bool_decide (status cur <> ERROR) then
        ("logsCursorClearError called when sttaus not ERROR"%string, core)
      else
        let str := error_string cur in
        let cur :=
          set_status EMPTY
            (set_deleted_data [] (set_data [] (set_error_string EmptyString cur))) in
        (str, storeCursor core cursor_index cur)
  end.

(** *** Inbox accumulators *)

Definition getInboxAcc (core : ArbCore) (index : Z) : ValueResult Z :=
  let result := getNextSequencerBatchItem (data_storage core) index in
  if negb (ok result.1) then (result.1, 0)
  else (OK, item_accumulator result.2).

Definition getInboxAccPair (core : ArbCore) (index1 index2 : Z)
    : ValueResult (Z * Z) :=
  let tx := data_storage core in
  let result1 := getNextSequencerBatchItem tx index1 in
  if negb (ok result1.1) then (result1.1, (0, 0))
  else
    let result2 := getNextSequencerBatchItem tx index2 in
    if negb (ok result2.1) then (result2.1, (0, 0))
    else (OK, (item_accumulator result1.2, item_accumulator result2.2)).

Definition machineMessagesRead (core : ArbCore) : Z :=
  count (fully_processed_inbox (last_machine_output core)).

(** *** Checkpoints *)

Definition getCheckpoint (tx : DataStorage) (arb_gas_used : Z)
    : Status + MachineStateKeys :=
  match Get arb_gas_used (checkpoint_col tx) with
  | None => inl NotFound
  | Some k => inr k
  end.

Definition isCheckpointsEmpty (tx : DataStorage) : bool :=
  bool_decide (last (checkpoint_col tx) = None).

Definition maxCheckpointGas (core : ArbCore) : Z :=
  match last (checkpoint_col (data_storage core)) with
  | Some (k, _) => k
  | None => 0
  end.

Definition initialized (core : ArbCore) : bool :=
  bool_decide (is_Some (Get 0 (checkpoint_col (data_storage core)))).

End Consumers.

(** ** Start-up, the cursor sweep of the core thread, sideload machines *)

Section Startup.
Context {VS : ValueStore} {PF : Platform} {VM : AVM}.
Variable ndebug : bool.

(** The loop of [initialize] over the logs cursors. *)
Fixpoint initializeCursors (tx : DataStorage) (cursors : list DataCursor)
    : Outcome DataStorage :=
  match cursors with
  | [] => Ret tx
  | cur :: cursors' =>
      let st := logsCursorSaveCurrentTotalCount tx cur 0 in
      if negb (ok st.1)
      then Throw "failed to initialize logscursor counts"
      else initializeCursors st.2 cursors'
  end.

(** [initialize]; [executable] is the machine thread that the source
    builds from the loaded executable,
    [MachineThread(MachineState{code, executable.static_val})]. *)
Definition initialize (core : ArbCore) (executable : MachineThread)
    : Outcome (Status * ArbCore) :=
  (* Use latest existing checkpoint *)
  let* r := reorgToMessageOrBefore ndebug core 0 true in
  let '(status, core) := r in
  if ok status then Ret (status, core)
  else if negb (IsNotFound status) then Ret (status, core)
  else
    let core := set_machine (Some executable) core in
    let tx := data_storage core in
    (* Need to initialize database from scratch *)
    let* s := saveCheckpoint ndebug core tx in
    if negb (ok s.1) then Ret (s.1, core)
    else
      let st := updateLogInsertedCount s.2 0 in
      if negb (ok st.1)
      then Throw "failed to initialize log inserted count"
      else
        let st := updateSendInsertedCount st.2 0 in
        if negb (ok st.1)
        then Throw "failed to initialize log inserted count"
        else
          let st := updateMessageEntryInsertedCount st.2 0 in
          if negb (ok st.1)
          then Throw "failed to initialize log inserted count"
          else
            let* tx := initializeCursors st.2 (logs_cursors core) in
            (* tx.commit() *)
            Ret (OK, set_data_storage tx core).

(** The sweep of [operator()] over the logs cursors: every requested
    cursor is served from a read transaction on the committed store. *)
Fixpoint coreThreadLogsCursors (core : ArbCore) (indices : list nat)
    : Outcome ArbCore :=
  match indices with
  | [] => Ret core
  | i :: indices' =>
      let* core :=
        match logs_cursors core !! i with
        | Some cur =>
            if bool_decide (status cur = REQUESTED)
            then handleLogsCursorRequested core (data_storage core) i
            else Ret core
        | None => Ret core
        end in
      coreThreadLogsCursors core indices'
  end.

(** [getSideloadPosition].  The iterator's status is OK; the source reads
    [it->value()] without asking [it->Valid()], which is undefined when no
    entry is at or before [block_number]. *)
Definition getSideloadPosition (tx : DataStorage) (block_number : Z)
    : Outcome (ValueResult Z) :=
  match SeekForPrev block_number (sideload_col tx) with
  | Some (_, v) => Ret (OK, v)
  | None => Crash
  end.

Definition takeExecutionCursorMachineImpl
    (tx : DataStorage) (c : ExecutionCursor)
    : Outcome (Machine * ExecutionCursor) :=
  let* mach := resolveExecutionCursorMachine tx c in
  Ret (mach, inl (machine_state_keys mach)).

(** [it = sideload_cache.upper_bound(block_number); it--]: the entry of
    the greatest cached block at or before [block_number]; [None] stands
    for [it == sideload_cache.begin()]. *)
Definition sideloadCacheBefore (block_number : Z) (cache : gmap Z Machine)
    : option (Z * Machine) :=
  foldr
    (fun e best =>
       if e.1 <=? block_number then
         match best with
         | Some b => if b.1 <? e.1 then Some e else best
         | None => Some e
         end
       else best)
    None (map_to_list cache).

(** [getMachineForSideload]; [None] is fuel running out in the advance of
    the execution cursor. *)
Definition getMachineForSideload
    (fuel : nat) (core : ArbCore) (block_number : Z)
    : Outcome (option (ValueResult (option Machine))) :=
  (* Check the cache *)
  match sideloadCacheBefore block_number (sideload_cache core) with
  | Some (_, mach) => Ret (Some (OK, Some mach))
  | None =>
      (* Not found in cache, try the DB *)
      let tx := data_storage core in
      let* position_res := getSideloadPosition tx block_number in
      if negb (ok position_res.1) then Ret (Some (position_res.1, None))
      else
        match getClosestExecutionMachine tx position_res.2 with
        | inl s => Ret (Some (s, None))
        | inr keys =>
            let gas_target := position_res.2 in
            let* r := advanceExecutionCursorImpl ndebug fuel core (inl keys)
                        gas_target false 10 in
            match r with
            | None => Ret None
            | Some (status, execution_cursor) =>
                let* taken :=
                  takeExecutionCursorMachineImpl (data_storage core)
                    execution_cursor in
                Ret (Some (status, Some taken.1))
            end
        end
  end.

End Startup.

(** A column in strict key order, as an iterator of the store walks it:
    every key is above [lo] and above the key before it. *)
Fixpoint sorted_above {V} (lo : Z) (c : Column V) : bool :=
  match c with
  | [] => true
  | (k, _) :: c' => (lo <? k) && sorted_above k c'
  end.

Definition sorted_column {V} (c : Column V) : bool :=
  match c with
  | [] => true
  | (k, _) :: c' => sorted_above k c'
  end.

(** The values of a dense column after [ws] has been written at the
    consecutive indices from [n] on: the entries before [n] stay, the
    entries from [n] on are overwritten or appended. *)
Definition overwrite_from {V} (n : nat) (ws vs : list V) : list V :=
  take n vs ++ ws ++ drop (n + length ws) vs.

(** The contract of a content-addressed value store: the hash determines
    the value, and a successful [saveValue] makes the saved value readable
    under its hash without touching what is stored under other hashes. *)
Definition content_addressed {VS : ValueStore} : Prop :=
  (forall v w : value, hash_value v = hash_value w -> v = w)
  /\ (forall (vs : VStore) (v : value) (h : Z),
        (saveValue vs v).1 = OK ->
        getValue (saveValue vs v).2 h
        = if bool_decide (h = hash_value v) then inr v else getValue vs h).

(** What [handleLogsCursorRequested] leaves in the cursor, on a store
    whose log column is dense and whose first [n] hashes resolve to
    [vals]. *)
Definition served_cursor {VS : ValueStore} (cur cur' : DataCursor) (c n : Z) (vals : list value)
    : Prop :=
  current_total_key cur' = current_total_key cur
  /\ pending_total_count cur' = pending_total_count cur
  /\ deleted_data cur' = deleted_data cur
  /\ (c = n ->
      status cur' = status cur /\ data cur' = []
      /\ number_requested cur' = number_requested cur
      /\ error_string cur' = error_string cur)
  /\ (n < c ->
      status cur' = ERROR /\ data cur' = []
      /\ error_string cur'
         = "current_count_result greater than log_inserted_count"%string)
  /\ (c < n ->
      status cur' = READY
      /\ number_requested cur' = Z.min (number_requested cur) (n - c)
      /\ data cur'
         = take (Z.to_nat (Z.min (number_requested cur) (n - c)))
             (drop (Z.to_nat c) vals)
      /\ error_string cur' = error_string cur).

(** [refCore] with its logs cursor idle: nothing requested, nothing
    buffered, the persisted position still at one log. *)
Definition idleCursor : @DataCursor refValueStore :=
  @Build_DataCursor refValueStore EMPTY [190; 0] 0 [] [] 0 EmptyString.

Definition idleCore : @ArbCore refValueStore refAVM :=
  @Build_ArbCore refValueStore refAVM
    refStore (Some (refThreadAt refMachineKeys)) ∅ MESSAGES_EMPTY
    EmptyString [idleCursor] false false (output refMachineKeys).

(** [refCore] with its logs cursor as a request for no log leaves it:
    READY with nothing to deliver, one log confirmed. *)
Definition drainedCursor : @DataCursor refValueStore :=
  @Build_DataCursor refValueStore READY [190; 0] 1 [] [] 0 EmptyString.

Definition drainedCore : @ArbCore refValueStore refAVM :=
  @set_logs_cursors refValueStore refAVM [drainedCursor] refCore.

(** A core on [refStore] whose live machine has spent one unit of gas and
    has consumed no message; it has stopped at the sideload of block 6. *)
Definition earlyKeys : MachineStateKeys := refKeys 1 noInbox 0 0 None.

Definition earlyCore : @ArbCore refValueStore refAVM :=
  @Build_ArbCore refValueStore refAVM
    refStore (Some (refThreadAt earlyKeys)) ∅ MESSAGES_EMPTY
    EmptyString [idleCursor] false false (output earlyKeys).

(** [refCore] without its genesis checkpoint: the only checkpoint has
    consumed both messages. *)
Definition lateCore : @ArbCore refValueStore refAVM :=
  @set_data_storage refValueStore refAVM
    (@set_checkpoint_col refValueStore [(2, refMachineKeys)] refStore) refCore.

(** An empty store, and a core on it with one idle logs cursor and no
    machine yet. *)
Definition blankStore : @DataStorage refValueStore :=
  {| checkpoint_col := []; log_col := []; send_col := []; state_col := ∅;
     sequencer_batch_item_col := []; delayed_message_col := [];
     sideload_col := []; value_store := ∅ |}.

Definition blankCore : @ArbCore refValueStore refAVM :=
  @Build_ArbCore refValueStore refAVM
    blankStore None ∅ MESSAGES_EMPTY EmptyString [idleCursor] true false
    (output genesisKeys).

(** [refCore] with the machine of the sideload at block 5 in its cache. *)
Definition cachedCore : @ArbCore refValueStore refAVM :=
  @set_sideload_cache refValueStore refAVM {[5 := refMachineKeys]} refCore.

(** [refCore] after the tick of the core thread that handles its finished
    assertion, the one that stopped at the sideload of block 6. *)
Definition tickedCore : @ArbCore refValueStore refAVM :=
  match @coreThreadMachineSuccess refValueStore refPlatform refAVM true refCore with
  | Ret (_, core) => core
  | _ => refCore
  end.


(** A core on the empty store whose machine has finished an assertion
    with one log: the log cannot be saved, the inserted count is missing. *)
Definition failingCore : @ArbCore refValueStore refAVM :=
  @Build_ArbCore refValueStore refAVM
    blankStore
    (Some {| ref_state := genesisKeys; ref_status := MACHINE_SUCCESS;
             ref_assertion :=
               @Build_Assertion refValueStore 1 [7] [] None |})
    ∅ MESSAGES_EMPTY EmptyString [idleCursor] false false
    (output genesisKeys).

Definition brokenCore : @ArbCore refValueStore refAVM :=
  match @coreThreadMachineSuccess refValueStore refPlatform refAVM true failingCore with
  | Ret (_, core) => core
  | _ => failingCore
  end.

(** The stale lower-bound slices read keys past the message log: no
    sequencer batch item lies at or after them, whatever number was
    marshalled. *)
Definition stale_past_log {VS : ValueStore} {PF : Platform}
    (tx : DataStorage) : Prop :=
  forall n k v, (k, v) ∈ sequencer_batch_item_col tx -> k < stale_slice n.

(** The logs cursors are behind the log: every cursor reads its
    persisted position under the key that the constructor of [ArbCore]
    gives it, and no position is past the inserted count of logs. *)
Definition cursors_behind_logs {VS : ValueStore} {VM : AVM} (core : ArbCore)
    : Prop :=
  exists n,
    logInsertedCount core = (OK, n)
    /\ forall i cur,
         logs_cursors core !! i = Some cur ->
         current_total_key cur = logscursor_current_prefix ++ [Z.of_nat i]
         /\ exists c,
              logsCursorGetCurrentTotalCount (data_storage core) cur = (OK, c)
              /\ c <= n.

(** [idleCore] with its cursor at the head of the log: the persisted
    position is the inserted count of logs. *)
Definition headCore : @ArbCore refValueStore refAVM :=
  @set_data_storage refValueStore refAVM
    (@set_state_col refValueStore (<[[190; 0] := 3]> (state_col refStore))
       refStore)
    idleCore.

(** [idleCore] with five logs requested, and what the pass of the core
    thread over the cursors makes of it. *)
Definition requestedCore : @ArbCore refValueStore refAVM :=
  storeCursor idleCore 0
    (set_status REQUESTED (set_number_requested 5 idleCursor)).

Definition sweptCore : @ArbCore refValueStore refAVM :=
  match @coreThreadLogsCursors refValueStore refPlatform refAVM requestedCore
          (seq 0 (length (logs_cursors requestedCore))) with
  | Ret core => core
  | _ => requestedCore
  end.

(** [blankCore] after its initialisation with a fresh machine. *)
Definition initializedCore : @ArbCore refValueStore refAVM :=
  match @initialize refValueStore refPlatform refAVM true blankCore
          (refThreadAt genesisKeys) with
  | Ret (_, core) => core
  | _ => blankCore
  end.

(** * Properties *)

Section ColumnFacts.
Context {V : Type}.

Lemma dense_length (from : Z) (vs : list V) :
  length (dense from vs) = length vs.
Proof.
  revert from. induction vs as [|v vs IH]; intros from; simpl; [done|].
  by rewrite IH.
Qed.

Lemma dense_values (from : Z) (vs : list V) : (dense from vs).*2 = vs.
Proof.
  revert from. induction vs as [|v vs IH]; intros from; simpl; [done|].
  by rewrite IH.
Qed.

Lemma dense_take (n : nat) (from : Z) (vs : list V) :
  take n (dense from vs) = dense from (take n vs).
Proof.
  revert n from. induction vs as [|v vs IH]; intros [|n] from; simpl; try done.
  by rewrite IH.
Qed.

Lemma Seek_dense (i : nat) (from : Z) (vs : list V) :
  (i <= length vs)%nat ->
  Seek (from + Z.of_nat i) (dense from vs) = dense (from + Z.of_nat i) (drop i vs).
Proof.
  revert i from. induction vs as [|v vs IH]; intros i from Hi; simpl in *.
  - by rewrite drop_nil.
  - destruct i as [|i].
    + rewrite Z.add_0_r. simpl. by rewrite Z.ltb_irrefl.
    + destruct (Z.ltb_spec from (from + Z.of_nat (S i))); [|lia].
      replace (from + Z.of_nat (S i)) with (from + 1 + Z.of_nat i) by lia.
      simpl. apply IH. lia.
Qed.

(** An entry at or after the key is never skipped by [Seek]. *)
Lemma Seek_keeps (key : Z) (c : Column V) (e : Z * V) :
  e ∈ c -> key <= e.1 -> e ∈ Seek key c.
Proof.
  induction c as [|[k v] c IH]; intros He Hk; simpl.
  - done.
  - destruct (Z.ltb_spec k key) as [Hlt|Hge].
    + apply elem_of_cons in He as [->|He]; [simpl in Hk; lia|]. by apply IH.
    + done.
Qed.

Lemma Seek_sublist (key : Z) (c : Column V) (e : Z * V) :
  e ∈ Seek key c -> e ∈ c.
Proof.
  induction c as [|[k v] c IH]; simpl; [done|].
  destruct (k <? key); [|done]. intros He. right. by apply IH.
Qed.

End ColumnFacts.

(** A returned pair is determined by its first component and by what the
    computation itself yields as the second. *)
Lemma Ret_fst_eta {A B} `{EqDecision A} (o : Outcome (A * B)) (a : A) (d : B) :
  match o with Ret (x, _) => bool_decide (x = a) | _ => false end = true ->
  o = Ret (a, match o with Ret (_, y) => y | _ => d end).
Proof.
  destruct o as [[x y]| |]; simpl; try done.
  intros H. by apply bool_decide_eq_true in H as ->.
Qed.


Section ReaderFacts.
Context {VS : ValueStore} {PF : Platform} {VM : AVM}.

Lemma add256_small (a b : Z) : 0 <= a + b < U256 -> add256 a b = a + b.
Proof. intros H. unfold add256. by apply Z.mod_small. Qed.

Lemma sub256_small (a b : Z) : 0 <= a - b < U256 -> sub256 a b = a - b.
Proof. intros H. unfold sub256. by apply Z.mod_small. Qed.

Lemma SIZE_MAX_lt_U256 : SIZE_MAX < U256.
Proof. by vm_compute. Qed.

Lemma getLogValues_resolved (vs : VStore) (hashes : list Z) (vals acc : list value) :
  Forall2 (fun h v => getValue vs h = inr v) hashes vals ->
  getLogValues vs hashes acc = (OK, acc ++ vals).
Proof.
  intros H. revert acc.
  induction H as [|h v hashes vals Hh _ IH]; intros acc; simpl.
  - by rewrite app_nil_r.
  - rewrite Hh, IH. by rewrite <- app_assoc.
Qed.

(** Reading [k] consecutive entries of a dense column from index [i]. *)
Lemma getVectorUsingKey_dense {V} (vs : list V) (i k : nat) :
  (i + k <= length vs)%nat ->
  getVectorUsingKey (dense 0 vs) (Z.of_nat i) (Z.of_nat k)
  = (OK, take k (drop i vs)).
Proof.
  intros H. unfold getVectorUsingKey.
  replace (Z.of_nat i) with (0 + Z.of_nat i) by lia.
  rewrite Seek_dense by lia. rewrite Nat2Z.id, dense_take, dense_length.
  rewrite length_take, length_drop.
  destruct (Z.ltb_spec (Z.of_nat (k `min` (length vs - i))) (Z.of_nat k)); [lia|].
  by rewrite dense_values.
Qed.

Lemma take_drop_take {A} (l : list A) (i k n : nat) :
  (i + k <= n)%nat -> take k (drop i (take n l)) = take k (drop i l).
Proof.
  intros H. rewrite !take_drop_commute, take_take. do 2 f_equal. lia.
Qed.

(** The logs that [getLogsNoLock] returns on a store whose log column is
    dense and whose first [n] hashes resolve to [vals]. *)
Lemma getLogsNoLock_dense
    (tx : DataStorage) (index count n : Z) (hashes : list Z) (vals : list value) :
  0 <= index < n -> 0 < count < U256 -> index + count < U256 ->
  logInsertedCountImpl tx = (OK, n) -> n <= SIZE_MAX ->
  log_col tx = dense 0 hashes -> n <= Z.of_nat (length hashes) ->
  Forall2 (fun h v => getValue (value_store tx) h = inr v)
    (take (Z.to_nat n) hashes) vals ->
  getLogsNoLock tx index count
  = Ret (OK, take (Z.to_nat (Z.min count (n - index)))
               (drop (Z.to_nat index) vals)).
Proof.
  intros Hi Hc Hov Hn Hmax Hcol Hlen Hvals.
  pose proof SIZE_MAX_lt_U256 as HS.
  unfold getLogsNoLock.
  destruct (Z.eqb_spec count 0); [lia|].
  rewrite Hn. simpl.
  destruct (Z.geb_spec index n); [lia|].
  rewrite add256_small by lia.
  set (count' := if index + count >? n then sub256 n index else count).
  assert (count' = Z.min count (n - index)) as ->.
  { unfold count'. destruct (Z.gtb_spec (index + count) n).
    - rewrite sub256_small by lia. lia.
    - lia. }
  rewrite narrow_cast_fits by lia. simpl.
  set (i := Z.to_nat index). set (k := Z.to_nat (Z.min count (n - index))).
  unfold logGetUint256Vector. rewrite Hcol.
  replace index with (Z.of_nat i) by (unfold i; lia).
  replace (Z.min count (n - Z.of_nat i)) with (Z.of_nat k) by (unfold k, i; lia).
  rewrite getVectorUsingKey_dense by (unfold i, k; lia). simpl.
  rewrite (getLogValues_resolved _ _ (take k (drop i vals))); [done|].
  rewrite <- (take_drop_take hashes i k (Z.to_nat n)) by (unfold i, k; lia).
  by apply Forall2_take, Forall2_drop.
Qed.




(** C9: with a non-zero count, [getSends] at or past [send_inserted_count]
    is NotFound with an empty vector, whereas [getLogs] at or past
    [log_inserted_count] is OK with an empty vector; with a zero count
    [getSends] is OK with an empty vector. *)
Theorem getSends_past_tail_is_NotFound
    (core : ArbCore) (index count nsends nlogs : Z) :
  0 < count ->
  sendInsertedCount core = (OK, nsends) -> nsends <= index ->
  logInsertedCount core = (OK, nlogs) ->
  getSends core index count = Ret (NotFound, [])
  /\ (forall j, nlogs <= j -> getLogs core j count = Ret (OK, []))
  /\ (forall j, getSends core j 0 = Ret (OK, [])).
Proof.
  intros Hc Hs Hsi Hl. split; [|split; [|done]].
  - unfold getSends. destruct (Z.eqb_spec count 0); [lia|].
    unfold sendInsertedCount in Hs. rewrite Hs. simpl.
    by destruct (Z.geb_spec index nsends); [|lia].
  - intros j Hj. unfold getLogs, getLogsNoLock.
    destruct (Z.eqb_spec count 0); [lia|].
    unfold logInsertedCount in Hl. rewrite Hl. simpl.
    by destruct (Z.geb_spec j nlogs); [|lia].
Qed.

(** C10: [messagesStatus] returns the stored mailbox status and, unless
    that status is READY or ERROR, resets the slot to EMPTY; for READY and
    ERROR the core is left as it was. *)
Theorem messagesStatus_resets_terminal_status (core : ArbCore) :
  (messagesStatus core).1 = message_data_status core
  /\ (messagesStatus core).2
     = match message_data_status core with
       | MESSAGES_READY | MESSAGES_ERROR => core
       | MESSAGES_SUCCESS | MESSAGES_NEED_OLDER | MESSAGES_EMPTY =>
           set_message_data_status MESSAGES_EMPTY core
       end
  /\ message_data_status (messagesStatus core).2
     = match message_data_status core with
       | MESSAGES_READY => MESSAGES_READY
       | MESSAGES_ERROR => MESSAGES_ERROR
       | MESSAGES_SUCCESS | MESSAGES_NEED_OLDER | MESSAGES_EMPTY =>
           MESSAGES_EMPTY
       end.
Proof.
  unfold messagesStatus. by destruct (message_data_status core) eqn:E.
Qed.

End ReaderFacts.



Lemma getSends_past_tail_is_NotFound_witness :
  @getSends refValueStore refPlatform refAVM refCore 2 4 = Ret (NotFound, [])
  /\ @getLogs refValueStore refPlatform refAVM refCore 3 4 = Ret (OK, [])
  /\ @getSends refValueStore refPlatform refAVM refCore 2 0 = Ret (OK, []).
Proof.
  destruct (@getSends_past_tail_is_NotFound refValueStore refPlatform refAVM
              refCore 2 4 2 3) as (Hsends & Hlogs & Hzero).
  - lia.
  - reflexivity.
  - lia.
  - reflexivity.
  - split; [exact Hsends|]. split; [apply Hlogs; lia|apply Hzero].
Defined.

Section SideloadCacheFacts.
Context {VS : ValueStore} {PF : Platform} {VM : AVM}.

(** A map whose keys lie in a window of 21 consecutive blocks has at most
    21 entries. *)
Lemma window_size {A} (c : gmap Z A) (lo : Z) :
  (forall k, k ∈ dom c -> lo <= k <= lo + 20) -> (size c <= 21)%nat.
Proof.
  intros Hwin. rewrite <- size_dom.
  transitivity (size (list_to_set (seqZ lo 21) : gset Z)).
  - apply subseteq_size. intros k Hk.
    apply elem_of_list_to_set, elem_of_seqZ. specialize (Hwin k Hk). lia.
  - rewrite size_list_to_set by apply NoDup_seqZ. by rewrite length_seqZ.
Qed.

Lemma sideloadEvicted_false (block key : Z) :
  is_u256 block -> 0 <= key ->
  sideloadEvicted block key = false <-> block - 20 <= key <= block.
Proof.
  intros [Hb0 Hb1] Hk. unfold sideloadEvicted, sideload_cache_size.
  destruct (Z.gtb_spec block 20) as [Hgt|Hle]; simpl.
  - rewrite sub256_small by lia.
    destruct (Z.ltb_spec key (block - 20)); simpl; [lia|].
    destruct (Z.gtb_spec key block); lia.
  - destruct (Z.gtb_spec key block); lia.
Qed.

(** What the cache holds after a sideload at [block] has been cached. *)
Lemma cacheSideloadMachine_lookup
    (block : Z) (m : Machine) (cache : gmap Z Machine) (k : Z) :
  is_u256 block -> (forall j, j ∈ dom cache -> 0 <= j) ->
  cacheSideloadMachine block m cache !! k
  = if bool_decide (block - 20 <= k <= block)
    then <[block := m]> cache !! k else None.
Proof.
  intros Hb Hpos. unfold cacheSideloadMachine.
  apply option_eq. intros x. rewrite map_lookup_filter_Some. simpl.
  case_bool_decide as Hwin.
  - split; [by intros [? _]|]. intros Hx. split; [done|].
    apply sideloadEvicted_false; [done| |done].
    destruct (decide (block = k)) as [<-|Hne]; [apply Hb|].
    rewrite lookup_insert_ne in Hx by done.
    apply Hpos, elem_of_dom. eauto.
  - split; [|done]. intros [Hx Hev]. exfalso. apply Hwin.
    apply sideloadEvicted_false; [done| |done].
    destruct (decide (block = k)) as [<-|Hne]; [apply Hb|].
    rewrite lookup_insert_ne in Hx by done.
    apply Hpos, elem_of_dom. eauto.
Qed.

(** What the cache holds after [deleteSideloadsStartingAt]. *)
Lemma deleteSideloadsStartingAt_lookup
    (core : ArbCore) (tx : DataStorage) (block_number k : Z) :
  sideload_cache (deleteSideloadsStartingAt core tx block_number).1.2 !! k
  = if bool_decide (k < block_number) then sideload_cache core !! k else None.
Proof.
  unfold deleteSideloadsStartingAt. simpl.
  apply option_eq. intros x. rewrite map_lookup_filter_Some. simpl.
  case_bool_decide as Hk.
  - split; [by intros [? ?]|]. intros Hx. by split.
  - split; [|done]. by intros [? ?].
Qed.

(** The window invariant of the reachable caches: block numbers are not
    negative and lie within 21 consecutive blocks. *)
Lemma reachable_cache_window (cache : gmap Z Machine) :
  SideloadCacheReachable cache ->
  (forall k, k ∈ dom cache -> 0 <= k)
  /\ exists lo, forall k, k ∈ dom cache -> lo <= k <= lo + 20.
Proof.
  induction 1 as [|cache block m Hr [IHpos IHw] Hb|core tx b Hr [IHpos [lo IHwin]]].
  - split; [|exists 0]; intros k Hk; by apply elem_of_dom in Hk as [? ?].
  - assert (forall k, k ∈ dom (cacheSideloadMachine block m cache) ->
              (k = block \/ k ∈ dom cache) /\ block - 20 <= k <= block) as Hdom.
    { intros k [x Hk]%elem_of_dom.
      rewrite cacheSideloadMachine_lookup in Hk by done.
      case_bool_decide; [|done]. split; [|done].
      destruct (decide (block = k)) as [<-|Hne]; [by left|right].
      rewrite lookup_insert_ne in Hk by done. apply elem_of_dom. eauto. }
    split.
    + intros k Hk. destruct (Hdom k Hk) as [[->|Hin] _]; [apply Hb|by apply IHpos].
    + exists (block - 20). intros k Hk. destruct (Hdom k Hk) as [_ ?]. lia.
  - assert (forall k, k ∈ dom (sideload_cache
                                 (deleteSideloadsStartingAt core tx b).1.2) ->
                      k ∈ dom (sideload_cache core)) as Hsub.
    { intros k [x Hk]%elem_of_dom.
      rewrite deleteSideloadsStartingAt_lookup in Hk.
      case_bool_decide; [|done]. apply elem_of_dom. eauto. }
    split; [|exists lo]; intros k Hk; auto.
Qed.

(** C8: every reachable sideload cache holds at most 21 entries and no
    entry is more than 20 blocks behind another; caching a sideload at
    [block] keeps exactly the entries with [block - 20 <= key <= block]
    (all others are evicted); and [deleteSideloadsStartingAt b] keeps
    exactly the entries with a block number below [b]. *)
Theorem sideload_cache_at_most_21_entries (cache : gmap Z Machine) :
  SideloadCacheReachable cache ->
  (size cache <= 21)%nat
  /\ (forall k1 k2, k1 ∈ dom cache -> k2 ∈ dom cache -> k2 - k1 <= 20)
  /\ (forall block m k, is_u256 block ->
        cacheSideloadMachine block m cache !! k
        = if bool_decide (block - 20 <= k <= block)
          then <[block := m]> cache !! k else None)
  /\ (forall (core : ArbCore) tx b k, sideload_cache core = cache ->
        sideload_cache (deleteSideloadsStartingAt core tx b).1.2 !! k
        = if bool_decide (k < b) then cache !! k else None).
Proof.
  intros Hreach.
  destruct (reachable_cache_window cache Hreach) as [Hpos [lo Hwin]].
  split; [by apply (window_size _ lo)|]. split; [|split].
  - intros k1 k2 H1 H2. pose proof (Hwin k1 H1). pose proof (Hwin k2 H2). lia.
  - intros block m k Hb. by apply cacheSideloadMachine_lookup.
  - intros core tx b k <-. apply deleteSideloadsStartingAt_lookup.
Qed.

End SideloadCacheFacts.

Lemma sideload_cache_at_most_21_entries_witness :
  (size (@cacheSideloadMachine refValueStore refAVM 30 refMachineKeys
           (@cacheSideloadMachine refValueStore refAVM 5 refMachineKeys ∅))
   <= 21)%nat.
Proof.
  refine (proj1 (@sideload_cache_at_most_21_entries refValueStore refAVM _ _)).
  apply cache_sideload; [apply cache_sideload; [apply cache_initial|]|];
    vm_compute; split; congruence.
Defined.

Section LogsCursorFacts.
Context {VS : ValueStore} {PF : Platform} {VM : AVM}.

(** The queued data that survives a reorg to [log_count]: the entries with
    a log index below it. *)
Lemma cursorReorgTruncateData_take (cur : DataCursor) (current log_count : Z) :
  0 <= current -> 0 <= log_count <= SIZE_MAX ->
  current + Z.of_nat (length (data cur)) < U256 ->
  cursorReorgTruncateData cur current log_count
  = Ret (set_data (take (Z.to_nat (log_count - current)) (data cur)) cur).
Proof.
  intros Hc Hl Hd. pose proof SIZE_MAX_lt_U256 as HS.
  unfold cursorReorgTruncateData. destruct cur as [st key pend d del nr es].
  simpl in *. case_bool_decide as Hnil; simpl.
  - subst d. by rewrite take_nil.
  - destruct (Z.geb_spec current log_count) as [Hge|Hlt].
    + by replace (Z.to_nat (log_count - current)) with 0%nat by lia.
    + rewrite add256_small by lia.
      destruct (Z.gtb_spec (current + Z.of_nat (length d)) log_count) as [Hgt|Hle].
      * rewrite sub256_small by lia. by rewrite narrow_cast_fits by lia.
      * by rewrite take_ge by lia.
Qed.

Lemma cursorReorgDowngrade_data (c : DataCursor) :
  data (cursorReorgDowngrade c) = data c.
Proof. unfold cursorReorgDowngrade. by destruct (_ && _ && _). Qed.

Lemma cursorReorgDowngrade_deleted_data (c : DataCursor) :
  deleted_data (cursorReorgDowngrade c) = deleted_data c.
Proof. unfold cursorReorgDowngrade. by destruct (_ && _ && _). Qed.

Lemma cursorReorgDowngrade_pending (c : DataCursor) :
  pending_total_count (cursorReorgDowngrade c) = pending_total_count c.
Proof. unfold cursorReorgDowngrade. by destruct (_ && _ && _). Qed.

Lemma cursorReorgDowngrade_key (c : DataCursor) :
  current_total_key (cursorReorgDowngrade c) = current_total_key c.
Proof. unfold cursorReorgDowngrade. by destruct (_ && _ && _). Qed.

Lemma cursorReorgDowngrade_status (c : DataCursor) :
  status (cursorReorgDowngrade c)
  = if bool_decide (status c = READY) && bool_decide (data c = [])
       && bool_decide (deleted_data c = [])
    then REQUESTED else status c.
Proof. unfold cursorReorgDowngrade. by destruct (_ && _ && _). Qed.

(** [getLogsNoLock] on a well-formed store, from any index: what lies at
    or past the inserted count is left out. *)
Lemma getLogsNoLock_dense_any
    (tx : DataStorage) (index count n : Z) (hashes : list Z) (vals : list value) :
  0 <= index -> 0 < count < U256 -> index + count < U256 ->
  logInsertedCountImpl tx = (OK, n) -> 0 <= n <= SIZE_MAX ->
  log_col tx = dense 0 hashes -> n <= Z.of_nat (length hashes) ->
  Forall2 (fun h v => getValue (value_store tx) h = inr v)
    (take (Z.to_nat n) hashes) vals ->
  getLogsNoLock tx index count
  = Ret (OK, take (Z.to_nat count) (drop (Z.to_nat index) vals)).
Proof.
  intros Hi Hc Hov Hn Hmax Hcol Hlen Hvals.
  pose proof (Forall2_length _ _ _ Hvals) as Hlv. rewrite length_take in Hlv.
  destruct (Z.lt_ge_cases index n) as [Hlt|Hge].
  - rewrite (getLogsNoLock_dense tx index count n hashes vals) by (done || lia).
    do 2 f_equal.
    destruct (Z.le_gt_cases count (n - index)) as [Hle|Hgt].
    + by rewrite Z.min_l by lia.
    + rewrite Z.min_r by lia.
      rewrite !take_ge; [done| |]; rewrite length_drop; lia.
  - unfold getLogsNoLock.
    destruct (Z.eqb_spec count 0); [lia|].
    rewrite Hn. simpl.
    destruct (Z.geb_spec index n); [|lia].
    by rewrite drop_ge, take_nil by lia.
Qed.

(** The second half of [handleLogsCursorReorg], once the first has left
    the cursor [cur1] and the transaction [tx1]. *)
Lemma handleLogsCursorReorg_saved
    (core : ArbCore) (cursor_index : nat) (cur cur1 : DataCursor)
    (tx1 : DataStorage) (target_count current : Z) :
  logs_cursors core !! cursor_index = Some cur ->
  logsCursorGetCurrentTotalCount (data_storage core) cur = (OK, current) ->
  0 <= current <= pending_total_count cur ->
  0 <= target_count <= SIZE_MAX ->
  current + Z.of_nat (length (data cur1)) < U256 ->
  cursorReorgSaveDeleted (data_storage core) cur current target_count
  = Ret (inr (cur1, tx1)) ->
  handleLogsCursorReorg core cursor_index target_count
  = Ret (OK,
         set_data_storage tx1
           (set_logs_cursors
              (<[cursor_index :=
                   cursorReorgDowngrade
                     (set_data (take (Z.to_nat (target_count - current))
                                  (data cur1)) cur1)]>
                 (logs_cursors core))
              core)).
Proof.
  intros Hcur Hcurrent Hc Ht Hd Hsave.
  unfold handleLogsCursorReorg. rewrite Hcur, Hcurrent. simpl.
  destruct (Z.gtb_spec current (pending_total_count cur)) as [?|_]; [lia|].
  rewrite Hsave. simpl.
  rewrite cursorReorgTruncateData_take by lia. done.
Qed.

(** C7: what [handleLogsCursorReorg(cursor_index, target_count)] leaves
    in the cursor, for every target count.  With
    [target_count < pending_total_count] it appends the logs of
    [target_count, pending_total_count) to [deleted_data] newest first,
    sets [pending_total_count] to [target_count] and clamps the persisted
    [current_total_count] to [target_count]; otherwise these three stay as
    they are.  In both cases it keeps of the queued [data] only the
    entries below [target_count], and turns a READY cursor whose [data]
    and [deleted_data] are then both empty into a REQUESTED one.  The
    persisted count is at most the pending count; the log column is dense
    and its hashes resolve, so that the logs of the range are the values
    from [target_count] on, as far as the inserted count reaches. *)
Theorem handleLogsCursorReorg_saves_deleted_logs
    (core : ArbCore) (cursor_index : nat) (cur : DataCursor)
    (target_count current n : Z) (hashes : list Z) (vals : list value) :
  logs_cursors core !! cursor_index = Some cur ->
  logsCursorGetCurrentTotalCount (data_storage core) cur = (OK, current) ->
  0 <= target_count <= SIZE_MAX ->
  0 <= current <= pending_total_count cur ->
  pending_total_count cur < U256 ->
  current + Z.of_nat (length (data cur)) < U256 ->
  logInsertedCount core = (OK, n) -> 0 <= n <= SIZE_MAX ->
  log_col (data_storage core) = dense 0 hashes ->
  n <= Z.of_nat (length hashes) ->
  Forall2 (fun h v => getValue (value_store (data_storage core)) h = inr v)
    (take (Z.to_nat n) hashes) vals ->
  exists core' cur',
    handleLogsCursorReorg core cursor_index target_count = Ret (OK, core')
    /\ logs_cursors core' !! cursor_index = Some cur'
    /\ deleted_data cur'
       = deleted_data cur
         ++ rev (take (Z.to_nat (pending_total_count cur - target_count))
                   (drop (Z.to_nat target_count) vals))
    /\ pending_total_count cur'
       = Z.min (pending_total_count cur) target_count
    /\ logsCursorGetCurrentTotalCount (data_storage core') cur'
       = (OK, Z.min current target_count)
    /\ data cur' = take (Z.to_nat (target_count - current)) (data cur)
    /\ status cur'
       = (if bool_decide (status cur = READY)
             && bool_decide (data cur' = [])
             && bool_decide (deleted_data cur' = [])
          then REQUESTED else status cur).
Proof.
  intros Hcur Hcurrent Ht Hc Hp Hd Hn Hmax Hcol Hlen Hvals.
  pose proof SIZE_MAX_lt_U256 as HS.
  assert (cursor_index < length (logs_cursors core))%nat as Hidx
    by (eapply lookup_lt_Some; done).
  set (gone := take (Z.to_nat (pending_total_count cur - target_count))
                 (drop (Z.to_nat target_count) vals)).
  set (cur1 := set_pending_total_count
                 (Z.min (pending_total_count cur) target_count)
                 (set_deleted_data (deleted_data cur ++ rev gone) cur)).
  set (tx1 := if (target_count <? pending_total_count cur)
                 && (current >? target_count)
              then (logsCursorSaveCurrentTotalCount (data_storage core) cur1
                      target_count).2
              else data_storage core).
  assert (cursorReorgSaveDeleted (data_storage core) cur current target_count
          = Ret (inr (cur1, tx1))) as Hsave.
  { unfold cursorReorgSaveDeleted, tx1, cur1, gone.
    destruct (Z.ltb_spec target_count (pending_total_count cur)) as [Hlt|Hge];
      simpl.
    - rewrite sub256_small by lia.
      rewrite (getLogsNoLock_dense_any _ _ _ n hashes vals) by (done || lia).
      simpl. rewrite Z.min_r by lia.
      by destruct (current >? target_count).
    - replace (Z.to_nat (pending_total_count cur - target_count)) with 0%nat
        by lia.
      rewrite Z.min_l by lia. simpl. rewrite app_nil_r.
      by destruct cur. }
  eexists _, _. split.
  { apply (handleLogsCursorReorg_saved core cursor_index cur cur1 tx1);
      try done. }
  simpl. rewrite list_lookup_insert_eq by done.
  split; [reflexivity|].
  rewrite cursorReorgDowngrade_data, cursorReorgDowngrade_deleted_data,
    cursorReorgDowngrade_pending, cursorReorgDowngrade_status.
  split; [done|]. split; [done|]. split; [|by split].
  unfold logsCursorGetCurrentTotalCount, stateGetUint256 in *.
  rewrite cursorReorgDowngrade_key. simpl. unfold tx1.
  destruct (Z.ltb_spec target_count (pending_total_count cur)) as [Hlt|Hge];
    simpl.
  - destruct (Z.gtb_spec current target_count) as [Hgt|Hle]; simpl.
    + rewrite lookup_insert_eq. f_equal. lia.
    + destruct (state_col (data_storage core) !! current_total_key cur);
        simplify_eq; f_equal; lia.
  - destruct (state_col (data_storage core) !! current_total_key cur);
      simplify_eq; f_equal; lia.
Qed.

End LogsCursorFacts.

Lemma handleLogsCursorReorg_saves_deleted_logs_witness :
  (exists core' cur',
     @handleLogsCursorReorg refValueStore refPlatform refAVM refCore 0 2
     = Ret (OK, core')
     /\ logs_cursors core' !! 0%nat = Some cur'
     /\ deleted_data cur'
        = [] ++ rev (take (Z.to_nat (3 - 2)) (drop (Z.to_nat 2) [7; 8; 9]))
     /\ pending_total_count cur' = Z.min 3 2
     /\ logsCursorGetCurrentTotalCount (data_storage core') cur'
        = (OK, Z.min 1 2)
     /\ data cur' = take (Z.to_nat (2 - 1)) [8; 9]
     /\ status cur'
        = (if bool_decide (READY = READY)
              && bool_decide (data cur' = [])
              && bool_decide (deleted_data cur' = [])
           then REQUESTED else READY))
  /\ (exists core' cur',
        @handleLogsCursorReorg refValueStore refPlatform refAVM drainedCore 0 2
        = Ret (OK, core')
        /\ logs_cursors core' !! 0%nat = Some cur'
        /\ deleted_data cur' = []
        /\ pending_total_count cur' = 1
        /\ data cur' = []
        /\ status cur' = REQUESTED).
Proof.
  split.
  - apply (@handleLogsCursorReorg_saves_deleted_logs refValueStore refPlatform
             refAVM refCore 0%nat refCursor 2 1 3 [1007; 1008; 1009] [7; 8; 9]).
    + reflexivity.
    + reflexivity.
    + vm_compute. split; discriminate.
    + simpl. lia.
    + vm_compute. reflexivity.
    + vm_compute. reflexivity.
    + reflexivity.
    + vm_compute. split; discriminate.
    + reflexivity.
    + simpl. lia.
    + repeat constructor.
  - destruct (@handleLogsCursorReorg_saves_deleted_logs refValueStore
                refPlatform refAVM drainedCore 0%nat drainedCursor 2 1 3
                [1007; 1008; 1009] [7; 8; 9])
      as (core' & cur' & Hrun & Hcur & Hdel & Hpend & _ & Hdata & Hst).
    + reflexivity.
    + reflexivity.
    + vm_compute. split; discriminate.
    + simpl. lia.
    + vm_compute. reflexivity.
    + vm_compute. reflexivity.
    + reflexivity.
    + vm_compute. split; discriminate.
    + reflexivity.
    + simpl. lia.
    + repeat constructor.
    + exists core', cur'.
      split; [exact Hrun|]. split; [exact Hcur|].
      split; [exact Hdel|]. split; [exact Hpend|]. split; [exact Hdata|].
      rewrite Hdata, Hdel in Hst. exact Hst.
Defined.

Section MessageLogFacts.
Context {VS : ValueStore} {PF : Platform} {VM : AVM}.
Variable ndebug : bool.

(** A seek past every key of a column leaves the iterator invalid. *)
Lemma Seek_past {V} (key : Z) (c : Column V) :
  (forall k v, (k, v) ∈ c -> k < key) -> Seek key c = [].
Proof.
  induction c as [|[k v] c IH]; intros Hc; simpl; [done|].
  destruct (Z.ltb_spec k key) as [_|Hge].
  - apply IH. intros k' v' Hin. apply (Hc k' v'). by right.
  - pose proof (Hc k v ltac:(by left)). lia.
Qed.

Lemma stale_past_log_Seek (tx : DataStorage) (n : Z) :
  stale_past_log tx -> Seek (stale_slice n) (sequencer_batch_item_col tx) = [].
Proof. intros H. apply Seek_past. intros k v. apply H. Qed.

(** Once the consistency check is behind, the loop over the batch items
    returns no status but OK. *)
Lemma readBatchItems_checked_OK
    (tx : DataStorage) (index count : Z) (start_acc : option Z)
    (it : Column SequencerBatchItemValue) (prev : Z)
    (dit : option (Column bytes)) (msgs : list RawMessageAndAccumulator)
    (r : ValueResult (list RawMessageAndAccumulator)) :
  readBatchItems ndebug tx index count start_acc it false prev dit msgs = Ret r ->
  r.1 = OK.
Proof.
  revert prev dit msgs.
  induction it as [|[k v] it IH]; intros prev dit msgs Hr; simpl in Hr.
  - by inversion Hr.
  - destruct (emitBatchItem _ _ _ _ _ _ _) as [[[p d] m]| |]; simpl in Hr;
      try discriminate.
    destruct (Z.of_nat (length m) >=? count); [by inversion Hr|].
    destruct (assert_ _ _); simpl in Hr; try discriminate.
    by eapply IH.
Qed.

(** ... and does not read the start accumulator any more. *)
Lemma readBatchItems_checked_ignores_start_acc
    (tx : DataStorage) (index count : Z) (acc1 acc2 : option Z)
    (it : Column SequencerBatchItemValue) (prev : Z)
    (dit : option (Column bytes)) (msgs : list RawMessageAndAccumulator) :
  readBatchItems ndebug tx index count acc1 it false prev dit msgs
  = readBatchItems ndebug tx index count acc2 it false prev dit msgs.
Proof.
  revert prev dit msgs.
  induction it as [|[k v] it IH]; intros prev dit msgs; simpl; [done|].
  destruct (emitBatchItem _ _ _ _ _ _ _) as [[[p d] m]| |]; simpl; try done.
  destruct (Z.of_nat (length m) >=? count); [done|].
  destruct (assert_ _ _); simpl; try done.
Qed.

(** A first item that passes the check is followed by OK results only. *)
Lemma readBatchItems_passed_OK
    (tx : DataStorage) (index count start_acc : Z)
    (k : Z) (v : SequencerBatchItemValue)
    (it : Column SequencerBatchItemValue)
    (r : ValueResult (list RawMessageAndAccumulator)) :
  v_accumulator v = start_acc ->
  readBatchItems ndebug tx index count (Some start_acc) ((k, v) :: it)
    true 0 None [] = Ret r ->
  r.1 = OK.
Proof.
  intros Hacc Hr. simpl in Hr. unfold consistencyCheck in Hr. simpl in Hr.
  rewrite Hacc, Z.eqb_refl in Hr. simpl in Hr.
  destruct (count =? 0); simpl in Hr; [by inversion Hr|].
  destruct (k >=? index); simpl in Hr.
  - destruct (assert_ _ _); simpl in Hr; try discriminate.
    destruct (emitBatchItem _ _ _ _ _ _ _) as [[[p d] m]| |]; simpl in Hr;
      try discriminate.
    destruct (Z.of_nat (length m) >=? count); [by inversion Hr|].
    destruct (assert_ _ _); simpl in Hr; try discriminate.
    by eapply readBatchItems_checked_OK.
  - destruct (assert_ _ _); simpl in Hr; try discriminate.
    by eapply readBatchItems_checked_OK.
Qed.

(** C5 (the code departs from the claim): the item that a read from
    index [i > 0] checks against the start accumulator is the first
    sequencer batch item at or after the key that the stale lower-bound
    slice reads, not the first one at or after sequence number [i - 1].
    The status is not-found exactly when no item lies at or after that key,
    or the one that does has another accumulator; otherwise a returned
    status is OK.  A read from index 0 performs no check: its result does
    not depend on the start accumulator. *)
Theorem getMessagesImpl_checks_item_at_stale_bound
    (tx : DataStorage) (index count start_acc : Z) :
  0 < index < U256 ->
  (getMessagesImpl ndebug tx index count (Some start_acc) = Ret (NotFound, [])
   <-> match Seek (stale_slice (index - 1)) (sequencer_batch_item_col tx) with
       | [] => True
       | (k, v) :: _ => v_accumulator v <> start_acc
       end)
  /\ (forall r, getMessagesImpl ndebug tx index count (Some start_acc) = Ret r ->
        r.1 = NotFound \/ r.1 = OK)
  /\ getMessagesImpl ndebug tx 0 count (Some start_acc)
     = getMessagesImpl ndebug tx 0 count None
  /\ (forall r, getMessagesImpl ndebug tx 0 count (Some start_acc) = Ret r ->
        r.1 = OK).
Proof.
  intros Hi. unfold getMessagesImpl.
  destruct (Z.gtb_spec index 0) as [_|?]; [|lia].
  rewrite sub256_small by lia. simpl.
  split; [|split; [|split]].
  - destruct (Seek (stale_slice (index - 1)) (sequencer_batch_item_col tx))
      as [|[k v] it] eqn:E.
    + done.
    + destruct (decide (v_accumulator v = start_acc)) as [Heq|Hne].
      * split; [|done]. intros Hr.
        apply readBatchItems_passed_OK in Hr; done.
      * split; [done|]. intros _. simpl. unfold consistencyCheck. simpl.
        by destruct (Z.eqb_spec (v_accumulator v) start_acc).
  - intros r Hr.
    destruct (Seek (stale_slice (index - 1)) (sequencer_batch_item_col tx))
      as [|[k v] it] eqn:E.
    + inversion Hr. by left.
    + destruct (decide (v_accumulator v = start_acc)) as [Heq|Hne].
      * right. by eapply readBatchItems_passed_OK.
      * left. simpl in Hr. unfold consistencyCheck in Hr. simpl in Hr.
        destruct (Z.eqb_spec (v_accumulator v) start_acc); [done|].
        by inversion Hr.
  - apply readBatchItems_checked_ignores_start_acc.
  - intros r Hr. by eapply readBatchItems_checked_OK.
Qed.

(** When the stale slices read past the message log, a read finds no batch
    item: from an index above 0 it is not-found, from index 0 it is OK
    with no message. *)
Lemma getMessagesImpl_stale_past_log
    (tx : DataStorage) (index count : Z) (start_acc : option Z) :
  stale_past_log tx ->
  getMessagesImpl ndebug tx index count start_acc
  = Ret (if index >? 0 then NotFound else OK, []).
Proof.
  intros Hstale. unfold getMessagesImpl.
  rewrite stale_past_log_Seek by done. simpl.
  by destruct (index >? 0).
Qed.

(** Pushing the image of each element behind a vector. *)
Lemma fold_left_push_back {A B} (f : A -> B) (l : list A) (pre : list B) :
  fold_left (fun vec x => vec ++ [f x]) l pre = pre ++ (f <$> l).
Proof.
  revert pre. induction l as [|x l IH]; intros pre; simpl.
  - by rewrite app_nil_r.
  - rewrite IH. by rewrite <- app_assoc.
Qed.

(** What [getMessages] hands out: as many empty messages as were read,
    followed by the messages read. *)
Lemma getMessages_data (core : ArbCore) (index count : Z)
    (raw : list RawMessageAndAccumulator) :
  getMessagesImpl ndebug (data_storage core) index count None = Ret (OK, raw) ->
  getMessages ndebug core index count
  = Ret (OK, replicate (length raw) [] ++ (message <$> raw)).
Proof.
  intros Hraw. unfold getMessages. rewrite Hraw. simpl.
  by rewrite fold_left_push_back.
Qed.

(** What [readNextMessages] hands out: [count] default messages, followed
    by the messages read. *)
Lemma readNextMessages_data (tx : DataStorage) (inbox : InboxState) (n : Z)
    (raw : list RawMessageAndAccumulator) :
  getMessagesImpl ndebug tx (count inbox) n (Some (accumulator inbox))
  = Ret (OK, raw) ->
  readNextMessages ndebug tx inbox n
  = Ret (OK, replicate (Z.to_nat n) default_MachineMessage
             ++ ((fun m => (extractInboxMessage (message m), raw_accumulator m))
                   <$> raw)).
Proof.
  intros Hraw. unfold readNextMessages. destruct inbox as [c a]. simpl in *.
  rewrite Hraw. simpl.
  by rewrite (fold_left_push_back
                (fun m => (extractInboxMessage (message m), raw_accumulator m))).
Qed.

(** C2 (the code departs from the claim): when the stale lower-bound
    slice reads a key past the message log, the readers find none of the
    stored messages.  [getMessages] is OK with an empty vector from index
    0 and not-found from any later index; [readNextMessages] returns just
    the default messages that its vector is constructed with, as many as
    were asked for, with OK from an inbox that has consumed nothing and
    with not-found from any other. *)
Theorem getMessages_finds_no_stored_message
    (core : ArbCore) (index n : Z) (inbox : InboxState) :
  stale_past_log (data_storage core) ->
  getMessages ndebug core index n
  = Ret (if index >? 0 then NotFound else OK, [])
  /\ readNextMessages ndebug (data_storage core) inbox n
     = Ret (if count inbox >? 0 then NotFound else OK,
            replicate (Z.to_nat n) default_MachineMessage).
Proof.
  intros Hstale. split.
  - unfold getMessages. rewrite getMessagesImpl_stale_past_log by done. simpl.
    by destruct (index >? 0).
  - unfold readNextMessages. destruct inbox as [c a]. simpl.
    rewrite getMessagesImpl_stale_past_log by done. simpl.
    by destruct (c >? 0).
Qed.

End MessageLogFacts.

Lemma refStore_stale_past_log :
  @stale_past_log refValueStore refPlatform refStore.
Proof.
  intros n k v Hin. change (k < U256 - 1).
  apply list_elem_of_In in Hin. simpl in Hin.
  destruct Hin as [Hin|[Hin|[]]]; inversion Hin; by vm_compute.
Qed.

Lemma getMessages_finds_no_stored_message_witness :
  @getMessages refValueStore refPlatform refAVM true refCore 0 2 = Ret (OK, [])
  /\ @getMessages refValueStore refPlatform refAVM true refCore 1 1
     = Ret (NotFound, [])
  /\ @readNextMessages refValueStore refPlatform refAVM true refStore noInbox 2
     = Ret (OK, [([], 0); ([], 0)]).
Proof.
  pose proof (fun i n inbox =>
    @getMessages_finds_no_stored_message refValueStore refPlatform refAVM true
      refCore i n inbox refStore_stale_past_log) as H.
  split; [exact (proj1 (H 0 2 noInbox))|].
  split; [exact (proj1 (H 1 1 noInbox))|].
  exact (proj2 (H 0 2 noInbox)).
Defined.

Lemma getMessagesImpl_checks_item_at_stale_bound_witness :
  (@getMessagesImpl refValueStore refPlatform true refStore 1 5 (Some 11)
   = Ret (NotFound, [])
   <-> match Seek (@stale_slice refPlatform (1 - 1))
               (sequencer_batch_item_col refStore) with
       | [] => True
       | (k, v) :: _ => v_accumulator v <> 11
       end)
  /\ v_accumulator <$> Get (1 - 1) (sequencer_batch_item_col refStore) = Some 11
  /\ @getMessagesImpl refValueStore refPlatform true refStore 1 5 (Some 11)
     = Ret (NotFound, []).
Proof.
  split.
  - apply (@getMessagesImpl_checks_item_at_stale_bound refValueStore
             refPlatform true refStore 1 5 11).
    vm_compute. split; reflexivity.
  - split; reflexivity.
Defined.

Section ReorgFacts.
Context {VS : ValueStore} {PF : Platform} {VM : AVM}.
Variable ndebug : bool.

(** The output columns that the state column writes leave alone. *)
Lemma cursorReorgSaveDeleted_frame
    (tx tx' : DataStorage) (cur cur' : DataCursor) (current log_count : Z) :
  cursorReorgSaveDeleted tx cur current log_count = Ret (inr (cur', tx')) ->
  log_col tx' = log_col tx /\ send_col tx' = send_col tx
  /\ value_store tx' = value_store tx.
Proof.
  unfold cursorReorgSaveDeleted. intros H.
  destruct (log_count <? pending_total_count cur); [|by inversion H].
  destruct (getLogsNoLock _ _ _) as [logs| |]; simpl in H; try discriminate.
  destruct (ok logs.1); simpl in H; [|discriminate].
  destruct (current >? log_count); simpl in H; by inversion H.
Qed.

Lemma handleLogsCursorReorg_frame
    (core core' : ArbCore) (i : nat) (log_count : Z) (s : Status) :
  handleLogsCursorReorg core i log_count = Ret (s, core') ->
  log_col (data_storage core') = log_col (data_storage core)
  /\ send_col (data_storage core') = send_col (data_storage core)
  /\ value_store (data_storage core') = value_store (data_storage core).
Proof.
  unfold handleLogsCursorReorg. intros H.
  destruct (logs_cursors core !! i) as [cur|]; [|discriminate].
  destruct (ok _); simpl in H; [|by inversion H].
  destruct (cursorReorgSaveDeleted _ _ _ _) as [[[s1 c1]|[c1 tx1]]| |] eqn:E;
    simpl in H; try discriminate.
  - by inversion H.
  - destruct (cursorReorgTruncateData _ _ _) as [c2| |]; simpl in H;
      try discriminate.
    inversion H; subst. simpl. by eapply cursorReorgSaveDeleted_frame.
Qed.

Lemma reorgLogsCursors_frame
    (indices : list nat) (core core' : ArbCore) (log_count : Z) (s : Status) :
  reorgLogsCursors core indices log_count = Ret (s, core') ->
  log_col (data_storage core') = log_col (data_storage core)
  /\ send_col (data_storage core') = send_col (data_storage core)
  /\ value_store (data_storage core') = value_store (data_storage core).
Proof.
  revert core. induction indices as [|i indices IH]; intros core H; simpl in H.
  - by inversion H.
  - destruct (handleLogsCursorReorg core i log_count) as [[s1 core1]| |] eqn:E;
      simpl in H; try discriminate.
    apply handleLogsCursorReorg_frame in E as (El & Es & Ev).
    destruct (ok s1); simpl in H.
    + apply IH in H as (Hl & Hs & Hv). by rewrite Hl, Hs, Hv.
    + by inversion H; subst.
Qed.

Lemma deleteSideloads_frame (it : Column Z) (tx : DataStorage) :
  let tx' := fold_left (fun tx e => sideloadDelete tx e.1) it tx in
  log_col tx' = log_col tx /\ send_col tx' = send_col tx
  /\ value_store tx' = value_store tx /\ state_col tx' = state_col tx.
Proof.
  revert tx. induction it as [|e it IH]; intros tx; simpl; [done|].
  destruct (IH (sideloadDelete tx e.1)) as (-> & -> & -> & ->). done.
Qed.

Lemma deleteLogs_frame (it : Column Z) (tx : DataStorage) :
  let tx' := fold_left (fun tx e => deleteValueTx tx e.2) it tx in
  log_col tx' = log_col tx /\ send_col tx' = send_col tx
  /\ state_col tx' = state_col tx
  /\ value_store tx' = fold_left deleteValue it.*2 (value_store tx).
Proof.
  revert tx. induction it as [|e it IH]; intros tx; simpl; [done|].
  destruct (IH (deleteValueTx tx e.2)) as (-> & -> & -> & ->). done.
Qed.

(** The checkpoint walk writes the checkpoint column and the value store
    only. *)
Lemma reorgFindCheckpoint_frame
    (it : Column MachineStateKeys) (tx tx' : DataStorage)
    (message_sequence_number : Z) (use_latest : bool) (C : MachineStateKeys) :
  reorgFindCheckpoint ndebug it tx message_sequence_number use_latest
  = Ret (inl (C, tx')) ->
  log_col tx' = log_col tx /\ send_col tx' = send_col tx
  /\ state_col tx' = state_col tx.
Proof.
  revert tx. induction it as [|[k c] it IH]; intros tx H; simpl in H.
  - discriminate.
  - destruct (isGoodCheckpoint _ _ _ _ _) as [[|]| |]; simpl in H;
      try discriminate.
    + by inversion H; subst.
    + apply IH in H as (-> & -> & ->). done.
Qed.

(** The store and the counters after the second half of a reorg. *)
Lemma reorgToCheckpoint_OK (core core' : ArbCore) (C : MachineStateKeys) :
  reorgToCheckpoint core C = Ret (OK, core') ->
  logInsertedCount core' = (OK, log_count (output C))
  /\ sendInsertedCount core' = (OK, send_count (output C))
  /\ value_store (data_storage core')
     = fold_left deleteValue
         (Seek (log_count (output C)) (log_col (data_storage core))).*2
         (value_store (data_storage core))
  /\ send_col (data_storage core') = send_col (data_storage core).
Proof.
  unfold reorgToCheckpoint. intros H.
  destruct (logInsertedCount core) as [s0 n0] eqn:Hn0.
  destruct s0; simpl in H; try (by inversion H).
  destruct (if log_count (output C) <? n0
            then reorgLogsCursors core (seq 0 (length (logs_cursors core)))
                   (log_count (output C))
            else Ret (OK, core)) as [[st core1]| |] eqn:Hcur;
    simpl in H; try discriminate.
  assert (log_col (data_storage core1) = log_col (data_storage core)
          /\ send_col (data_storage core1) = send_col (data_storage core)
          /\ value_store (data_storage core1) = value_store (data_storage core))
    as (Hl & Hs & Hv).
  { destruct (log_count (output C) <? n0).
    - by eapply reorgLogsCursors_frame.
    - by inversion Hcur; subst. }
  destruct st; simpl in H; try (by inversion H).
  unfold deleteLogsStartingAt in H. simpl in H.
  destruct (getMachineThreadUsingStateKeys _ _) as [m| |]; simpl in H;
    try discriminate.
  inversion H; subst; clear H. simpl.
  set (txs := fold_left (fun tx e => sideloadDelete tx e.1) _ (data_storage core1)).
  destruct (deleteSideloads_frame
              (Seek match last_sideload (output C) with
                    | Some b => add256 b 1
                    | None => 0
                    end (sideload_col (data_storage core1)))
              (data_storage core1)) as (Hsl & Hss & Hsv & Hst).
  fold txs in Hsl, Hss, Hsv, Hst.
  destruct (deleteLogs_frame (Seek (log_count (output C)) (log_col txs)) txs)
    as (Hdl & Hds & Hdt & Hdv).
  unfold logInsertedCount, sendInsertedCount, logInsertedCountImpl,
    sendInsertedCountImpl, stateGetUint256. simpl.
  rewrite lookup_insert_eq.
  rewrite lookup_insert_ne by done. rewrite lookup_insert_eq.
  rewrite Hdv, Hds, Hsl, Hss, Hsv, Hl, Hs, Hv. done.
Qed.

(** C4: when [reorgToMessageOrBefore] finds the target checkpoint [C] and
    returns OK, the inserted counts of logs and sends are those of [C],
    the value store has had [deleteValue] applied to the hash of every log
    entry with an index at or above [C]'s log count, and the send column
    is the one from before the reorg: sends are truncated by the counter
    only.  [tx1] is the transaction after the walk down the checkpoints,
    which has deleted the machines of the obsolete ones. *)
Theorem reorgToMessageOrBefore_truncates_outputs
    (core core' : ArbCore) (message_sequence_number : Z) (use_latest : bool)
    (C : MachineStateKeys) (tx1 : DataStorage) :
  reorgFindCheckpoint ndebug (rev (checkpoint_col (data_storage core)))
    (data_storage core) message_sequence_number use_latest
  = Ret (inl (C, tx1)) ->
  reorgToMessageOrBefore ndebug core message_sequence_number use_latest
  = Ret (OK, core') ->
  logInsertedCount core' = (OK, log_count (output C))
  /\ sendInsertedCount core' = (OK, send_count (output C))
  /\ value_store (data_storage core')
     = fold_left deleteValue
         (Seek (log_count (output C)) (log_col (data_storage core))).*2
         (value_store tx1)
  /\ (forall i h, (i, h) ∈ log_col (data_storage core) ->
        log_count (output C) <= i ->
        h ∈ (Seek (log_count (output C)) (log_col (data_storage core))).*2)
  /\ send_col (data_storage core') = send_col (data_storage core).
Proof.
  intros Hfind Hreorg. unfold reorgToMessageOrBefore in Hreorg.
  case_bool_decide as Hnil.
  - rewrite Hnil in Hfind. discriminate.
  - rewrite Hfind in Hreorg. simpl in Hreorg.
    apply reorgFindCheckpoint_frame in Hfind as (Hl & Hs & _).
    apply reorgToCheckpoint_OK in Hreorg as (Hlc & Hsc & Hv & Hsend).
    simpl in Hv, Hsend. rewrite Hl in Hv. rewrite Hs in Hsend.
    repeat split; try done.
    intros i h Hin Hi.
    apply (list_elem_of_fmap_2 snd _ (i, h)).
    by apply Seek_keeps.
Qed.

End ReorgFacts.

Lemma reorgToMessageOrBefore_truncates_outputs_witness :
  @reorgFindCheckpoint refValueStore refPlatform refAVM true
    (rev (checkpoint_col refStore)) refStore 0 false
  = Ret (inl (genesisKeys, reorgedTx))
  /\ @reorgToMessageOrBefore refValueStore refPlatform refAVM true refCore 0 false
     = Ret (OK, reorgedCore)
  /\ logInsertedCount reorgedCore = (OK, 0)
  /\ sendInsertedCount reorgedCore = (OK, 0)
  /\ value_store (data_storage reorgedCore)
     = fold_left deleteValue (Seek 0 (log_col refStore)).*2
         (value_store reorgedTx)
  /\ (forall i h, (i, h) ∈ log_col refStore -> 0 <= i ->
        h ∈ (Seek 0 (log_col refStore)).*2)
  /\ send_col (data_storage reorgedCore) = send_col refStore.
Proof.
  assert (@reorgFindCheckpoint refValueStore refPlatform refAVM true
            (rev (checkpoint_col refStore)) refStore 0 false
          = Ret (inl (genesisKeys, reorgedTx))) as Hfind
    by (vm_compute; reflexivity).
  assert (@reorgToMessageOrBefore refValueStore refPlatform refAVM true
            refCore 0 false
          = Ret (OK, reorgedCore)) as Hreorg
    by (apply Ret_fst_eta; vm_compute; reflexivity).
  split; [exact Hfind|]. split; [exact Hreorg|].
  exact (@reorgToMessageOrBefore_truncates_outputs refValueStore refPlatform
           refAVM true refCore reorgedCore 0 false genesisKeys reorgedTx
           Hfind Hreorg).
Defined.

Section CheckpointFacts.
Context {VS : ValueStore} {PF : Platform} {VM : AVM}.

(** C3 as amended: when [saveCheckpoint] is called while the live
    machine's [fully_processed_inbox] is not confirmed by the message log,
    no checkpoint entry is persisted.  A build with assertions stops at
    the assertion; a build without them returns OK with the transaction
    untouched, so the sideload branch of the core thread goes on to restart
    the machine and to commit instead of leaving the loop. *)
Theorem saveCheckpoint_invalid_inbox_returns_OK
    (ndebug : bool) (core : ArbCore) (tx : DataStorage) (m : MachineThread) :
  machine core = Some m ->
  isValid tx (fully_processed_inbox (output (thread_state_keys m))) = false ->
  saveCheckpoint ndebug core tx = (if ndebug then Ret (OK, tx) else Crash)
  /\ (forall block m',
        continueRunningMachine m = (true, m') ->
        coreThreadSideload true core tx m block
        = Ret (inr (set_machine (Some m')
                      (set_sideload_cache
                         (cacheSideloadMachine block (thread_machine m)
                            (sideload_cache core)) core),
                    tx))).
Proof.
  intros Hm Hinv. split.
  - unfold saveCheckpoint. rewrite Hm, Hinv. simpl.
    by destruct ndebug.
  - intros block m' Hrun. unfold coreThreadSideload, saveCheckpoint. simpl.
    rewrite Hm, Hinv. simpl. by rewrite Hrun.
Qed.

End CheckpointFacts.

Lemma saveCheckpoint_invalid_inbox_returns_OK_witness :
  @saveCheckpoint refValueStore refPlatform refAVM true staleCore refStore
  = Ret (OK, refStore).
Proof.
  refine (proj1 (@saveCheckpoint_invalid_inbox_returns_OK refValueStore refPlatform refAVM
                   true staleCore refStore (refThreadAt staleKeys) _ _)).
  - reflexivity.
  - reflexivity.
Defined.

(** C3, the claim as stated fails: the live machine of [staleCore] has an
    inbox that the message log does not confirm, yet [saveCheckpoint]
    reports OK, and the core thread's branch for a machine stopped at a
    sideload continues the loop and commits, with the checkpoint column
    as it was. *)
Lemma saveCheckpoint_invalid_inbox_not_reported :
  @isValid refValueStore refPlatform refStore
    (fully_processed_inbox (output (@thread_state_keys refValueStore refAVM
                                      (refThreadAt staleKeys)))) = false
  /\ (exists tx, @saveCheckpoint refValueStore refPlatform refAVM true staleCore refStore
                 = Ret (OK, tx)
                 /\ checkpoint_col tx = checkpoint_col refStore)
  /\ exists core',
       @coreThreadMachineSuccess refValueStore refPlatform refAVM true staleCore
       = Ret (TickContinue, core')
       /\ checkpoint_col (data_storage core') = checkpoint_col refStore.
Proof.
  split; [reflexivity|]. split.
  - exists refStore. split; reflexivity.
  - exists (match @coreThreadMachineSuccess refValueStore refPlatform refAVM true staleCore
            with Ret (_, core) => core | _ => staleCore end).
    split.
    + apply Ret_fst_eta. vm_compute. reflexivity.
    + vm_compute. reflexivity.
Qed.

Section ExecutionCursorFacts.
Context {VS : ValueStore} {PF : Platform} {VM : AVM}.
Variable ndebug : bool.

(** One pass of the inner loop never runs the machine: once the target is
    not yet reached, a not-found read is returned as it is and every other
    read asks for the cursor to be rebuilt. *)
Lemma advanceRunMachine_reorg_unless_NotFound
    (fuel : nat) (tx : DataStorage) (c : ExecutionCursor)
    (total_gas_used : Z) (go_over_gas : bool) (message_group_size : Z) :
  advanceRunMachine ndebug (S fuel) tx c total_gas_used go_over_gas
    message_group_size
  = let* mach := resolveExecutionCursorMachine tx c in
    let c : ExecutionCursor := inr mach in
    let gas_used := arb_gas_used (getOutput c) in
    if (gas_used =? total_gas_used)
       || (go_over_gas && (gas_used >? total_gas_used))
       || (negb go_over_gas
           && (add256 gas_used (nextGasCost mach) >? total_gas_used))
    then Ret (AdvanceDone c)
    else
      let* r := readNextMessages ndebug tx (fully_processed_inbox (getOutput c))
                  message_group_size in
      if IsNotFound r.1 then Ret (AdvanceReturn r.1 c)
      else Ret (AdvanceReorg c).
Proof.
  simpl. destruct (resolveExecutionCursorMachine tx c) as [mach| |]; simpl;
    try done.
  destruct (_ =? total_gas_used); simpl; [done|].
  destruct (go_over_gas && _); simpl; [done|].
  destruct (negb go_over_gas && _); simpl; [done|].
  destruct (readNextMessages _ _ _ _) as [[st ms]| |]; simpl; try done.
  by destruct st.
Qed.

End ExecutionCursorFacts.

(** On the intact store a cursor at the genesis checkpoint that is asked
    for gas 1 is sent back to be rebuilt, whatever the fuel. *)
Lemma advanceRunMachine_genesis (ndebug : bool) (fuel : nat) :
  @advanceRunMachine refValueStore refPlatform refAVM ndebug (S fuel) refStore
    (inl genesisKeys) 1 false 10
  = Ret (@AdvanceReorg refValueStore refAVM (inr genesisKeys)).
Proof.
  rewrite advanceRunMachine_reorg_unless_NotFound. by destruct ndebug.
Qed.

(** ... and so every round but the last ends in a rebuild from the genesis
    checkpoint; the round that starts with 16 attempts returns busy. *)
Lemma advanceHandleReorg_genesis_Busy (fuel rounds : nat) (reorg_attempts : Z) :
  0 <= reorg_attempts <= 16 ->
  17 <= Z.of_nat rounds + reorg_attempts ->
  @advanceHandleReorg refValueStore refPlatform refAVM true rounds (S fuel) refCore
    (inl genesisKeys) 1 false 10 reorg_attempts
  = Ret (Some (Busy, inl genesisKeys)).
Proof.
  revert reorg_attempts.
  induction rounds as [|rounds IH]; intros reorg_attempts Ha Hr; [lia|].
  cbn [advanceHandleReorg].
  change (data_storage refCore) with refStore.
  rewrite advanceRunMachine_genesis.
  destruct (Z.gtb_spec reorg_attempts 0) as [Hpos|Hzero]; simpl.
  - destruct (Z.geb_spec reorg_attempts 16) as [Hge|Hlt]; [done|].
    apply IH; lia.
  - apply IH; lia.
Qed.

(** C1 (the code departs from the claim): advancing a cursor from the
    genesis checkpoint to gas 1 on a store whose message log is intact,
    the read of the next messages is OK, and on that OK the cursor is
    rebuilt from the checkpoint and the advance retried, until the 17th
    round returns busy; a build with assertions stops at the first retry.
    Advancing a cursor whose inbox the message log contradicts, the read is
    not-found and that status is returned at once, with no rebuild and no
    retry.  Both hold whatever the fuel of the inner loop. *)
Theorem advanceExecutionCursorImpl_retries_unless_NotFound (fuel : nat) :
  (exists ms, @readNextMessages refValueStore refPlatform refAVM true refStore
                (fully_processed_inbox (output genesisKeys)) 10 = Ret (OK, ms))
  /\ @advanceExecutionCursorImpl refValueStore refPlatform refAVM true (S fuel) refCore
       (inl genesisKeys) 1 false 10
     = Ret (Some (Busy, inl genesisKeys))
  /\ @advanceExecutionCursorImpl refValueStore refPlatform refAVM false (S fuel) refCore
       (inl genesisKeys) 1 false 10
     = Crash
  /\ (exists ms, @readNextMessages refValueStore refPlatform refAVM true refStore
                   (fully_processed_inbox (output staleKeys)) 10
                 = Ret (NotFound, ms))
  /\ @advanceExecutionCursorImpl refValueStore refPlatform refAVM true (S fuel) refCore
       (inl staleKeys) 2 false 10
     = Ret (Some (NotFound, inr staleKeys)).
Proof.
  split; [eexists; vm_compute; reflexivity|].
  split; [apply advanceHandleReorg_genesis_Busy; lia|].
  split.
  { unfold advanceExecutionCursorImpl. cbn [advanceHandleReorg].
    change (data_storage refCore) with refStore.
    rewrite advanceRunMachine_genesis. reflexivity. }
  split; [eexists; vm_compute; reflexivity|].
  unfold advanceExecutionCursorImpl. cbn [advanceHandleReorg].
  change (data_storage refCore) with refStore.
  rewrite advanceRunMachine_reorg_unless_NotFound. reflexivity.
Qed.

(** ** Writes into a column *)

Section ColumnWriteFacts.
Context {V : Type}.

(** A point read sees the last write of its key, whatever the column. *)
Lemma Get_Put_eq (key : Z) (v : V) (c : Column V) :
  Get key (Put key v c) = Some v.
Proof.
  unfold Get. induction c as [|[k x] c IH]; simpl.
  - by rewrite Z.ltb_irrefl, Z.eqb_refl.
  - destruct (Z.ltb_spec key k); simpl.
    + by rewrite Z.ltb_irrefl, Z.eqb_refl.
    + destruct (Z.eqb_spec key k); simpl.
      * by rewrite Z.ltb_irrefl, Z.eqb_refl.
      * destruct (Z.ltb_spec k key); [done|lia].
Qed.

(** Writing at an index of a dense column, or just behind it, replaces or
    appends that entry. *)
Lemma Put_dense (i : nat) (from : Z) (v : V) (vs : list V) :
  (i <= length vs)%nat ->
  Put (from + Z.of_nat i) v (dense from vs)
  = dense from (take i vs ++ v :: drop (S i) vs).
Proof.
  revert i from. induction vs as [|x vs IH]; intros i from Hi; simpl in *.
  - assert (i = 0%nat) as -> by lia. simpl. by rewrite Z.add_0_r.
  - destruct i as [|i]; simpl.
    + by rewrite Z.add_0_r, Z.ltb_irrefl, Z.eqb_refl.
    + destruct (Z.ltb_spec (from + Z.of_nat (S i)) from); [lia|].
      destruct (Z.eqb_spec (from + Z.of_nat (S i)) from); [lia|].
      replace (from + Z.of_nat (S i)) with (from + 1 + Z.of_nat i) by lia.
      rewrite IH by lia. done.
Qed.

Lemma overwrite_from_cons (n : nat) (w : V) (ws vs : list V) :
  (n <= length vs)%nat ->
  overwrite_from (S n) ws (take n vs ++ w :: drop (S n) vs)
  = overwrite_from n (w :: ws) vs.
Proof.
  intros Hn. unfold overwrite_from.
  assert (S n = length (take n vs ++ [w])) as Hl
    by (rewrite length_app, length_take; simpl; lia).
  replace (take n vs ++ w :: drop (S n) vs)
    with ((take n vs ++ [w]) ++ drop (S n) vs) by (by rewrite <- app_assoc).
  rewrite (take_app_length' _ _ _ Hl), (drop_app_add' _ _ _ _ Hl).
  rewrite drop_drop, <- !app_assoc. simpl. do 4 f_equal. lia.
Qed.

End ColumnWriteFacts.
(** ** Saving and reading back sends and logs *)

Section SaveFacts.
Context {VS : ValueStore} {PF : Platform} {VM : AVM}.

Lemma length_overwrite_from {V} (n : nat) (ws vs : list V) :
  (n <= length vs)%nat ->
  (n + length ws <= length (overwrite_from n ws vs))%nat.
Proof.
  intros H. unfold overwrite_from. rewrite !length_app, length_take. lia.
Qed.

Lemma overwrite_from_read {V} (n : nat) (ws vs : list V) :
  (n <= length vs)%nat ->
  take (length ws) (drop n (overwrite_from n ws vs)) = ws.
Proof.
  intros H. unfold overwrite_from.
  rewrite drop_app_length' by (rewrite length_take; lia).
  by rewrite take_app_length.
Qed.

Lemma saveSendsLoop_dense
    (sends : list bytes) (tx : DataStorage) (n : nat) (old : list bytes) :
  send_col tx = dense 0 old -> (n <= length old)%nat ->
  Z.of_nat n + Z.of_nat (length sends) < U256 ->
  saveSendsLoop tx (Z.of_nat n) sends
  = (OK, set_send_col (dense 0 (overwrite_from n sends old)) tx,
     Z.of_nat n + Z.of_nat (length sends)).
Proof.
  revert tx n old.
  induction sends as [|send sends IH]; intros tx n old Hcol Hn Hlt; simpl.
  - unfold overwrite_from. simpl. rewrite Nat.add_0_r, take_drop, Z.add_0_r.
    rewrite <- Hcol. by destruct tx.
  - rewrite Hcol.
    replace (Z.of_nat n) with (0 + Z.of_nat n) at 1 by lia.
    rewrite Put_dense by done.
    rewrite add256_small by (simpl in Hlt; lia).
    replace (Z.of_nat n + 1) with (Z.of_nat (S n)) by lia.
    erewrite IH; [| reflexivity | | simpl in Hlt; lia].
    + rewrite overwrite_from_cons by done.
      f_equal. rewrite !Nat2Z.inj_succ. lia.
    + rewrite length_app, length_take. simpl. rewrite length_drop. lia.
Qed.

(** X1: sends saved by [saveSends] are read back by [getSends].  On a
    store whose send column is dense and holds at least the
    [send_inserted_count] = [n] counted sends (a reorg leaves stale sends
    behind the counter), saving [sends] returns OK, overwrites the column
    from index [n] on, advances the counter to [n + |sends|], and after
    the commit [getSends(n, |sends|)] returns exactly [sends]. *)
Theorem saveSends_then_getSends
    (core : ArbCore) (old sends : list bytes) (n : nat) :
  send_col (data_storage core) = dense 0 old ->
  sendInsertedCountImpl (data_storage core) = (OK, Z.of_nat n) ->
  (n <= length old)%nat ->
  Z.of_nat n + Z.of_nat (length sends) <= SIZE_MAX ->
  let st := saveSends (data_storage core) sends in
  st.1 = OK
  /\ send_col st.2 = dense 0 (overwrite_from n sends old)
  /\ sendInsertedCountImpl st.2 = (OK, Z.of_nat n + Z.of_nat (length sends))
  /\ getSends (set_data_storage st.2 core) (Z.of_nat n)
       (Z.of_nat (length sends)) = Ret (OK, sends).
Proof.
  intros Hcol Hcount Hn Hmax st.
  pose proof SIZE_MAX_lt_U256 as HS.
  assert (st.1 = OK /\ send_col st.2 = dense 0 (overwrite_from n sends old)
          /\ sendInsertedCountImpl st.2
             = (OK, Z.of_nat n + Z.of_nat (length sends))) as (H1 & H2 & H3).
  { unfold st, saveSends. case_bool_decide as Hempty.
    - subst sends. simpl. rewrite Z.add_0_r. split; [done|]. split; [|done].
      unfold overwrite_from. simpl. by rewrite Nat.add_0_r, take_drop.
    - rewrite Hcount. simpl.
      rewrite (saveSendsLoop_dense sends _ n old) by (done || lia).
      simpl. split; [done|]. split; [done|].
      unfold sendInsertedCountImpl, stateGetUint256. simpl.
      by rewrite lookup_insert_eq. }
  split; [done|]. split; [done|]. split; [done|].
  unfold getSends. destruct (Z.eqb_spec (Z.of_nat (length sends)) 0) as [H0|H0].
  - by destruct sends.
  - cbn [data_storage set_data_storage]. rewrite H3. simpl.
    destruct (Z.geb_spec (Z.of_nat n) (Z.of_nat n + Z.of_nat (length sends)));
      [lia|].
    rewrite add256_small by lia. rewrite Z.gtb_ltb, Z.ltb_irrefl.
    rewrite narrow_cast_fits by lia. simpl.
    unfold sendGetVectorVector. rewrite H2.
    rewrite getVectorUsingKey_dense by (by apply length_overwrite_from).
    by rewrite overwrite_from_read.
Qed.

End SaveFacts.
Section SaveLogsFacts.
Context {VS : ValueStore} {PF : Platform} {VM : AVM}.

Lemma ok_OK (s : Status) : ok s = true -> s = OK.
Proof. by destruct s. Qed.

Lemma saveValue_keeps (vs : VStore) (v w : value) :
  content_addressed ->
  (saveValue vs w).1 = OK ->
  getValue vs (hash_value v) = inr v ->
  getValue (saveValue vs w).2 (hash_value v) = inr v.
Proof.
  intros [Hinj Hsave] Hok Hv. rewrite Hsave by done.
  case_bool_decide as Heq; [|done]. by rewrite (Hinj _ _ Heq).
Qed.

Lemma saveLogsLoop_dense
    (vals : list value) (tx : DataStorage) (n : nat) (old : list Z)
    (saved : list value) :
  content_addressed ->
  log_col tx = dense 0 old -> (n <= length old)%nat ->
  Z.of_nat n + Z.of_nat (length vals) < U256 ->
  Forall (fun v => getValue (value_store tx) (hash_value v) = inr v) saved ->
  ok (saveLogsLoop tx (Z.of_nat n) vals).1.1 = true ->
  let r := saveLogsLoop tx (Z.of_nat n) vals in
  log_col r.1.2 = dense 0 (overwrite_from n (hash_value <$> vals) old)
  /\ state_col r.1.2 = state_col tx
  /\ r.2 = Z.of_nat n + Z.of_nat (length vals)
  /\ Forall (fun v => getValue (value_store r.1.2) (hash_value v) = inr v)
       (saved ++ vals).
Proof.
  intros HCA. revert tx n old saved.
  induction vals as [|val vals IH]; intros tx n old saved Hcol Hn Hlt Hsaved;
    simpl.
  - intros _. unfold overwrite_from. simpl.
    rewrite Nat.add_0_r, take_drop, Z.add_0_r, app_nil_r. auto.
  - destruct (ok (saveValue (value_store tx) val).1) eqn:Hok; simpl;
      [|intros; congruence].
    apply ok_OK in Hok.
    rewrite add256_small by (simpl in Hlt; lia).
    replace (Z.of_nat n + 1) with (Z.of_nat (S n)) by lia.
    rewrite Hcol.
    assert (Put (Z.of_nat n) (hash_value val) (dense 0 old)
            = dense 0 (take n old ++ hash_value val :: drop (S n) old)) as ->.
    { replace (Z.of_nat n) with (0 + Z.of_nat n) by lia. by apply Put_dense. }
    intros Hloop.
    edestruct (IH (set_log_col
                     (dense 0 (take n old ++ hash_value val :: drop (S n) old))
                     (set_value_store (saveValue (value_store tx) val).2 tx))
                 (S n) (take n old ++ hash_value val :: drop (S n) old)
                 (saved ++ [val]))
      as (H1 & H2 & H3 & H4); [reflexivity| | | |exact Hloop|].
    + rewrite length_app, length_take. simpl. rewrite length_drop. lia.
    + simpl in Hlt. lia.
    + simpl. apply Forall_app. split.
      * eapply Forall_impl; [exact Hsaved|]. intros v Hv.
        by apply saveValue_keeps.
      * constructor; [|constructor].
        destruct HCA as [_ Hsave]. rewrite Hsave by done.
        by rewrite bool_decide_eq_true_2.
    + cbv zeta. rewrite H1, H2, H3. rewrite overwrite_from_cons by done.
      split; [done|]. split; [done|].
      split; [rewrite !Nat2Z.inj_succ; lia|].
      by rewrite <- app_assoc in H4.
Qed.

(** X2: logs saved by [saveLogs] are read back by [getLogs].  The value
    store is content addressed, the log column is dense and holds at least
    the [log_inserted_count] = [n] counted hashes (a reorg leaves stale
    hashes behind the counter).  If [saveLogs] returns OK it has written
    the hashes of [vals] from index [n] on, over the stale hashes, and
    advanced the counter to [n + |vals|]; after the commit
    [getLogs(n, |vals|)] returns exactly [vals]. *)
Theorem saveLogs_then_getLogs
    (core : ArbCore) (old : list Z) (vals : list value) (n : nat) :
  content_addressed ->
  log_col (data_storage core) = dense 0 old ->
  logInsertedCountImpl (data_storage core) = (OK, Z.of_nat n) ->
  (n <= length old)%nat ->
  Z.of_nat n + Z.of_nat (length vals) <= SIZE_MAX ->
  (saveLogs (data_storage core) vals).1 = OK ->
  let st := saveLogs (data_storage core) vals in
  log_col st.2 = dense 0 (overwrite_from n (hash_value <$> vals) old)
  /\ logInsertedCountImpl st.2 = (OK, Z.of_nat n + Z.of_nat (length vals))
  /\ getLogs (set_data_storage st.2 core) (Z.of_nat n)
       (Z.of_nat (length vals)) = Ret (OK, vals).
Proof.
  intros HCA Hcol Hcount Hn Hmax Hok st.
  pose proof SIZE_MAX_lt_U256 as HS.
  assert (log_col st.2 = dense 0 (overwrite_from n (hash_value <$> vals) old)
          /\ logInsertedCountImpl st.2
             = (OK, Z.of_nat n + Z.of_nat (length vals))
          /\ Forall (fun v => getValue (value_store st.2) (hash_value v) = inr v)
               vals) as (H1 & H2 & H3).
  { revert Hok. unfold st, saveLogs. case_bool_decide as Hempty.
    - subst vals. simpl. rewrite Z.add_0_r. intros _. split; [|done].
      unfold overwrite_from. simpl. by rewrite Nat.add_0_r, take_drop.
    - rewrite Hcount. simpl.
      pose proof (saveLogsLoop_dense vals (data_storage core) n old [] HCA Hcol
                    Hn ltac:(lia) ltac:(constructor)) as Hloop.
      destruct (saveLogsLoop (data_storage core) (Z.of_nat n) vals)
        as [[s tx'] idx] eqn:Hrun. simpl in Hloop.
      destruct (ok s) eqn:Hs; simpl.
      + intros _. destruct (Hloop eq_refl) as (Ha & Hb & -> & Hd).
        simpl. split; [done|]. split; [|done].
        unfold logInsertedCountImpl, stateGetUint256. simpl.
        by rewrite lookup_insert_eq.
      + intros ->. done. }
  split; [done|]. split; [done|].
  unfold getLogs, getLogsNoLock.
  destruct (Z.eqb_spec (Z.of_nat (length vals)) 0) as [H0|H0].
  - by destruct vals.
  - cbn [data_storage set_data_storage]. rewrite H2. simpl.
    destruct (Z.geb_spec (Z.of_nat n) (Z.of_nat n + Z.of_nat (length vals)));
      [lia|].
    rewrite add256_small by lia. rewrite Z.gtb_ltb, Z.ltb_irrefl.
    rewrite narrow_cast_fits by lia. simpl.
    unfold logGetUint256Vector. rewrite H1.
    rewrite getVectorUsingKey_dense.
    2:{ etrans; [|by apply length_overwrite_from]. by rewrite length_fmap. }
    simpl. rewrite <- (length_fmap hash_value vals).
    rewrite overwrite_from_read by done.
    rewrite (getLogValues_resolved _ _ vals); [done|].
    by apply Forall2_fmap_l, Forall_Forall2_diag.
Qed.

End SaveLogsFacts.
Lemma saveSends_then_getSends_witness :
  (@saveSends refValueStore refStore [[3]; [4; 4]]).1 = OK
  /\ send_col (@saveSends refValueStore refStore [[3]; [4; 4]]).2
     = dense 0 (overwrite_from 2 [[3]; [4; 4]] [[1]; [2; 2]])
  /\ sendInsertedCountImpl (@saveSends refValueStore refStore [[3]; [4; 4]]).2
     = (OK, 2 + 2)
  /\ @getSends refValueStore refPlatform refAVM
       (set_data_storage (@saveSends refValueStore refStore [[3]; [4; 4]]).2
          refCore) 2 2
     = Ret (OK, [[3]; [4; 4]]).
Proof.
  apply (@saveSends_then_getSends refValueStore refPlatform refAVM refCore
           [[1]; [2; 2]] [[3]; [4; 4]] 2%nat).
  - reflexivity.
  - reflexivity.
  - simpl. lia.
  - vm_compute. discriminate.
Defined.

Lemma refValueStore_content_addressed : @content_addressed refValueStore.
Proof.
  split.
  - simpl. unfold refHash. intros v w. lia.
  - simpl. intros vs v h _. unfold refSaveValue, refGetValue.
    case_bool_decide as Hh.
    + subst h. destruct (vs !! refHash v) as [[n x]|]; simpl;
        by rewrite lookup_insert_eq.
    + destruct (vs !! refHash v) as [[n x]|]; simpl;
        by rewrite lookup_insert_ne.
Qed.

Lemma saveLogs_then_getLogs_witness :
  log_col (@saveLogs refValueStore refStore [5; 6]).2
  = dense 0 (overwrite_from 3 (@hash_value refValueStore <$> [5; 6])
               [1007; 1008; 1009])
  /\ logInsertedCountImpl (@saveLogs refValueStore refStore [5; 6]).2
     = (OK, 3 + 2)
  /\ @getLogs refValueStore refPlatform refAVM
       (set_data_storage (@saveLogs refValueStore refStore [5; 6]).2 refCore)
       3 2
     = Ret (OK, [5; 6]).
Proof.
  apply (@saveLogs_then_getLogs refValueStore refPlatform refAVM refCore
           [1007; 1008; 1009] [5; 6] 3%nat).
  - exact refValueStore_content_addressed.
  - reflexivity.
  - reflexivity.
  - simpl. lia.
  - vm_compute. discriminate.
  - reflexivity.
Defined.
(** ** The mailbox between the feeder and the core thread *)

Section MailboxFacts.
Context {VS : ValueStore} {PF : Platform} {VM : AVM}.

Lemma feederCall_READY (core : ArbCore) (md : message_data_struct)
    (c : FeederCall) :
  message_data_status core = MESSAGES_READY ->
  feederCall (core, md) c = (core, md).
Proof.
  intros H. destruct c; simpl.
  - unfold deliverMessages. by rewrite H.
  - unfold messagesStatus. by rewrite H.
  - unfold messagesClearError. by rewrite H.
Qed.

(** X3: a delivered batch stays until the core thread takes it.  While
    the slot is [MESSAGES_READY], no sequence of feeder calls
    ([deliverMessages], [messagesStatus], [messagesClearError]) changes
    the core or the stored batch, and every [deliverMessages] among them
    is refused. *)
Theorem feeder_cannot_replace_ready_batch
    (core : ArbCore) (md : message_data_struct) (calls : list FeederCall) :
  message_data_status core = MESSAGES_READY ->
  foldl feederCall (core, md) calls = (core, md)
  /\ forall msgs acc complete reorg,
       deliverMessages core md msgs acc complete reorg = (false, core, md).
Proof.
  intros H. split.
  - induction calls as [|c calls IH]; simpl; [done|].
    by rewrite feederCall_READY.
  - intros. unfold deliverMessages. by rewrite H.
Qed.

(** X4: the handshake of the feeder.  A delivery is accepted exactly when
    the slot is [MESSAGES_EMPTY], and then the slot is [MESSAGES_READY] and
    holds the delivered batch.  Polling with [messagesStatus] frees the slot
    unless it holds a pending batch or an error; an error is only freed by
    [messagesClearError], which hands out the error text once. *)
Theorem deliverMessages_handshake
    (core : ArbCore) (md : message_data_struct)
    (msgs : list bytes) (acc : Z) (complete : bool) (reorg : option Z) :
  let delivered := deliverMessages core md msgs acc complete reorg in
  let polled := (messagesStatus core).2 in
  let cleared := messagesClearError core in
  (delivered.1.1 = bool_decide (message_data_status core = MESSAGES_EMPTY))
  /\ (delivered.1.1 = true ->
      message_data_status delivered.1.2 = MESSAGES_READY
      /\ messages delivered.2 = msgs
      /\ previous_inbox_acc delivered.2 = acc
      /\ last_block_complete delivered.2 = complete
      /\ reorg_message_count delivered.2 = reorg)
  /\ (delivered.1.1 = false -> delivered = (false, core, md))
  /\ ((deliverMessages polled md msgs acc complete reorg).1.1
      = negb (bool_decide (message_data_status core = MESSAGES_READY))
        && negb (bool_decide (message_data_status core = MESSAGES_ERROR)))
  /\ (message_data_status core = MESSAGES_ERROR ->
      cleared.1 = core_error_string core
      /\ (messagesClearError cleared.2).1 = EmptyString
      /\ (deliverMessages cleared.2 md msgs acc complete reorg).1.1 = true).
Proof.
  unfold deliverMessages, messagesStatus, messagesClearError.
  destruct (message_data_status core) eqn:Hs; simpl; rewrite ?Hs; simpl;
    repeat split; try done; by rewrite Hs.
Qed.

End MailboxFacts.

Lemma feeder_cannot_replace_ready_batch_witness :
  foldl feederCall
    (set_message_data_status MESSAGES_READY idleCore,
     {| messages := [[1]]; previous_inbox_acc := 0;
        last_block_complete := true; reorg_message_count := None |})
    [CallMessagesStatus; CallDeliverMessages [[2]] 11 false None;
     CallMessagesClearError]
  = (set_message_data_status MESSAGES_READY idleCore,
     {| messages := [[1]]; previous_inbox_acc := 0;
        last_block_complete := true; reorg_message_count := None |})
  /\ forall msgs acc complete reorg,
       deliverMessages (set_message_data_status MESSAGES_READY idleCore)
         {| messages := [[1]]; previous_inbox_acc := 0;
            last_block_complete := true; reorg_message_count := None |}
         msgs acc complete reorg
       = (false, set_message_data_status MESSAGES_READY idleCore,
          {| messages := [[1]]; previous_inbox_acc := 0;
             last_block_complete := true; reorg_message_count := None |}).
Proof.
  apply (@feeder_cannot_replace_ready_batch refValueStore refAVM
           (set_message_data_status MESSAGES_READY idleCore)).
  reflexivity.
Defined.
(** ** The logs cursors: request, delivery, confirmation *)

Section CursorProtocolFacts.
Context {VS : ValueStore} {PF : Platform} {VM : AVM}.

Lemma storeCursor_lookup (core : ArbCore) (i : nat) (cur new : DataCursor) :
  logs_cursors core !! i = Some cur ->
  logs_cursors (storeCursor core i new) !! i = Some new.
Proof.
  intros H. unfold storeCursor. simpl.
  apply list_lookup_insert_eq. by eapply lookup_lt_Some.
Qed.

Lemma handleLogsCursorRequested_served
    (core : ArbCore) (idx : nat) (cur : DataCursor) (c n : Z)
    (hashes : list Z) (vals : list value) :
  let tx := data_storage core in
  logs_cursors core !! idx = Some cur ->
  logsCursorGetCurrentTotalCount tx cur = (OK, c) ->
  logInsertedCountImpl tx = (OK, n) ->
  0 <= c -> n <= SIZE_MAX ->
  0 <= number_requested cur -> c + number_requested cur < U256 ->
  log_col tx = dense 0 hashes -> n <= Z.of_nat (length hashes) ->
  Forall2 (fun h v => getValue (value_store tx) h = inr v)
    (take (Z.to_nat n) hashes) vals ->
  exists cur',
    handleLogsCursorRequested core tx idx = Ret (storeCursor core idx cur')
    /\ served_cursor cur cur' c n vals.
Proof.
  intros tx Hidx Hc Hn Hc0 Hmax Hreq Hov Hcol Hlen Hvals.
  pose proof SIZE_MAX_lt_U256 as HS.
  unfold handleLogsCursorRequested. rewrite Hidx, Hn. simpl.
  change (logsCursorGetCurrentTotalCount tx (set_data [] cur))
    with (logsCursorGetCurrentTotalCount tx cur).
  rewrite Hc. simpl.
  destruct (Z.eqb_spec c n) as [Heq|Hne].
  { eexists. split; [reflexivity|]. unfold served_cursor. simpl.
    repeat split; try done; lia. }
  destruct (Z.gtb_spec c n) as [Hgt|Hle].
  { eexists. split; [reflexivity|]. unfold served_cursor. simpl.
    repeat split; try done; lia. }
  rewrite add256_small by lia.
  assert (exists cur1,
    (if c + number_requested cur >? n
     then set_number_requested (sub256 n c) (set_data [] cur)
     else set_data [] cur) = cur1
    /\ number_requested cur1 = Z.min (number_requested cur) (n - c)
    /\ status cur1 = status cur /\ data cur1 = []
    /\ current_total_key cur1 = current_total_key cur
    /\ pending_total_count cur1 = pending_total_count cur
    /\ deleted_data cur1 = deleted_data cur
    /\ error_string cur1 = error_string cur)
    as (cur1 & -> & Hreq1 & Hst1 & Hd1 & Hk1 & Hp1 & Hdel1 & He1).
  { eexists. split; [reflexivity|].
    destruct (Z.gtb_spec (c + number_requested cur) n); simpl.
    - rewrite sub256_small by lia. repeat split; try done. lia.
    - repeat split; try done. lia. }
  destruct (Z.eqb_spec (number_requested cur1) 0) as [Hz|Hnz].
  { eexists. split; [reflexivity|]. unfold served_cursor. simpl.
    rewrite Hk1, Hp1, Hdel1, Hd1, He1.
    repeat split; try done; try lia.
    rewrite <- Hreq1, Hz. by rewrite take_0. }
  unfold getLogs. fold tx.
  rewrite (getLogsNoLock_dense tx c (number_requested cur1) n hashes vals)
    by (done || lia).
  simpl. eexists. split; [reflexivity|]. unfold served_cursor. simpl.
  rewrite Hk1, Hp1, Hdel1, He1.
  repeat split; try done; try lia.
  rewrite Hreq1. do 2 f_equal. lia.
Qed.


(** X5: how the core thread serves a cursor.  With the persisted position
    [c] and [n] inserted logs: at [c = n] nothing is posted (the status
    stays as it was, the data is cleared); at [c > n] the cursor is put
    into ERROR with a fixed text; at [c < n] the cursor becomes READY and
    holds exactly the logs [c .. c + min(number_requested, n - c) - 1], and
    [number_requested] is clamped to that count.  Nothing but the cursor
    changes. *)
Theorem handleLogsCursorRequested_posts_clamped_logs
    (core : ArbCore) (idx : nat) (cur : DataCursor) (c n : Z)
    (hashes : list Z) (vals : list value) :
  logs_cursors core !! idx = Some cur ->
  logsCursorGetCurrentTotalCount (data_storage core) cur = (OK, c) ->
  logInsertedCountImpl (data_storage core) = (OK, n) ->
  0 <= c -> n <= SIZE_MAX ->
  0 <= number_requested cur -> c + number_requested cur < U256 ->
  log_col (data_storage core) = dense 0 hashes ->
  n <= Z.of_nat (length hashes) ->
  Forall2 (fun h v => getValue (value_store (data_storage core)) h = inr v)
    (take (Z.to_nat n) hashes) vals ->
  exists cur',
    handleLogsCursorRequested core (data_storage core) idx
    = Ret (storeCursor core idx cur')
    /\ served_cursor cur cur' c n vals.
Proof. apply handleLogsCursorRequested_served. Qed.

(** One delivery cycle, with what it leaves in the core. *)
Lemma logsCursor_delivery_cycle
    (core : ArbCore) (idx : nat) (cur : DataCursor) (c n count : Z)
    (hashes : list Z) (vals : list value) :
  logs_cursors core !! idx = Some cur ->
  current_total_key cur = logscursor_current_prefix ++ [Z.of_nat idx] ->
  status cur = EMPTY ->
  logsCursorGetCurrentTotalCount (data_storage core) cur = (OK, c) ->
  logInsertedCountImpl (data_storage core) = (OK, n) ->
  0 <= c < n -> n <= SIZE_MAX -> 0 <= count -> c + count < U256 ->
  log_col (data_storage core) = dense 0 hashes ->
  n <= Z.of_nat (length hashes) ->
  Forall2 (fun h v => getValue (value_store (data_storage core)) h = inr v)
    (take (Z.to_nat n) hashes) vals ->
  exists core1 core2 core3 core4 core5 cur4,
    logsCursorRequest core idx count = Ret (true, core1)
    /\ handleLogsCursorRequested core1 (data_storage core1) idx = Ret core2
    /\ logsCursorGetLogs core2 idx
       = Ret ((OK, {| first_log_index := c;
                      new_logs := take (Z.to_nat (Z.min count (n - c)))
                                    (drop (Z.to_nat c) vals);
                      deleted_logs := deleted_data cur |}), core3)
    /\ logsCursorConfirmReceived core3 idx = Ret (true, core4)
    /\ logsCursorPosition core4 idx = Ret (OK, c + Z.min count (n - c))
    /\ logsCursorRequest core4 idx count = Ret (true, core5)
    /\ log_col (data_storage core4) = log_col (data_storage core)
    /\ logInsertedCountImpl (data_storage core4) = (OK, n)
    /\ logs_cursors core4 = <[idx := cur4]> (logs_cursors core)
    /\ current_total_key cur4 = current_total_key cur
    /\ state_col (data_storage core4)
       = <[current_total_key cur := c + Z.min count (n - c)]>
           (state_col (data_storage core)).
Proof.
  intros Hidx Hkey Hst Hc Hn Hcn Hmax Hcount Hov Hcol Hlen Hvals.
  pose proof SIZE_MAX_lt_U256 as HS.
  assert (length vals = Z.to_nat n) as Hlv.
  { apply Forall2_length in Hvals. rewrite length_take in Hvals. lia. }
  (* the request *)
  set (cur1 := set_status REQUESTED (set_number_requested count cur)).
  exists (storeCursor core idx cur1).
  assert (logsCursorRequest core idx count = Ret (true, storeCursor core idx cur1))
    as Hrequest.
  { unfold logsCursorRequest. rewrite Hidx, Hst. done. }
  (* the core thread *)
  assert (exists cur2,
            handleLogsCursorRequested (storeCursor core idx cur1)
              (data_storage (storeCursor core idx cur1)) idx
            = Ret (storeCursor (storeCursor core idx cur1) idx cur2)
            /\ served_cursor cur1 cur2 c n vals)
    as (cur2 & Hserve & Hk2 & Hp2 & Hdel2 & _ & _ & Hready).
  { apply (handleLogsCursorRequested_served _ idx cur1 c n hashes vals);
      try done; try (simpl; lia).
    by eapply storeCursor_lookup. }
  destruct (Hready ltac:(lia)) as (Hst2 & Hreq2 & Hdata2 & _).
  simpl in Hreq2, Hdata2, Hk2, Hdel2.
  set (core2 := storeCursor (storeCursor core idx cur1) idx cur2) in *.
  exists core2.
  assert (logs_cursors core2 !! idx = Some cur2) as Hidx2.
  { eapply storeCursor_lookup. by eapply storeCursor_lookup. }
  (* the consumer takes the logs *)
  set (k := Z.min count (n - c)) in *.
  set (cur3 := set_deleted_data []
                 (set_data []
                    (set_pending_total_count (c + k) cur2))).
  exists (storeCursor core2 idx cur3).
  assert (logsCursorGetLogs core2 idx
          = Ret ((OK, {| first_log_index := c;
                         new_logs := take (Z.to_nat k) (drop (Z.to_nat c) vals);
                         deleted_logs := deleted_data cur |}),
                 storeCursor core2 idx cur3)) as Hget.
  { unfold logsCursorGetLogs. rewrite Hidx2, Hst2. simpl.
    unfold logsCursorGetCurrentTotalCount in *. rewrite Hk2, Hc. simpl.
    rewrite Hdata2, Hdel2.
    rewrite add256_small
      by (rewrite length_take, length_drop; unfold k; lia).
    replace (Z.of_nat (length (take (Z.to_nat k) (drop (Z.to_nat c) vals))))
      with k by (rewrite length_take, length_drop; unfold k; lia).
    done. }
  (* the confirmation *)
  set (core3 := storeCursor core2 idx cur3) in *.
  assert (logs_cursors core3 !! idx = Some cur3) as Hidx3
    by (by eapply storeCursor_lookup).
  set (tx4 := (logsCursorSaveCurrentTotalCount (data_storage core3) cur3
                 (pending_total_count cur3)).2).
  set (core4 := storeCursor (set_data_storage tx4 core3) idx
                  (set_status EMPTY cur3)).
  exists core4.
  assert (logsCursorConfirmReceived core3 idx = Ret (true, core4)) as Hconfirm.
  { unfold logsCursorConfirmReceived. rewrite Hidx3. simpl. by rewrite Hst2. }
  assert (logs_cursors core4 !! idx = Some (set_status EMPTY cur3)) as Hidx4
    by (by eapply storeCursor_lookup).
  eexists. exists (set_status EMPTY cur3).
  split; [exact Hrequest|]. split; [exact Hserve|]. split; [exact Hget|].
  split; [exact Hconfirm|].
  split.
  { unfold logsCursorPosition. rewrite Hidx4. simpl.
    unfold logsCursorGetCurrentTotalCount, stateGetUint256. simpl.
    by rewrite lookup_insert_eq. }
  split.
  { unfold logsCursorRequest. rewrite Hidx4. simpl. reflexivity. }
  split; [done|].
  split.
  { unfold logInsertedCountImpl, stateGetUint256 in *. simpl.
    rewrite lookup_insert_ne; [done|].
    rewrite Hk2, Hkey. done. }
  split.
  { unfold core4, core3, core2, storeCursor. simpl.
    by rewrite !list_insert_insert_eq. }
  split; [done|].
  simpl. by rewrite Hk2.
Qed.

(** X6: one delivery cycle of a logs cursor.  From an EMPTY cursor at the
    persisted position [c], below the [n] inserted logs: the request is
    accepted, the core thread posts the logs, [logsCursorGetLogs] hands out
    the logs [c .. c + k - 1] with [k = min(count, n - c)] together with the
    deleted logs the cursor held, [logsCursorConfirmReceived] succeeds, and
    afterwards the persisted position is [c + k] and the cursor accepts the
    next request.  The log column and the inserted count are not
    changed. *)
Theorem logsCursor_delivery_advances_position
    (core : ArbCore) (idx : nat) (cur : DataCursor) (c n count : Z)
    (hashes : list Z) (vals : list value) :
  logs_cursors core !! idx = Some cur ->
  current_total_key cur = logscursor_current_prefix ++ [Z.of_nat idx] ->
  status cur = EMPTY ->
  logsCursorGetCurrentTotalCount (data_storage core) cur = (OK, c) ->
  logInsertedCountImpl (data_storage core) = (OK, n) ->
  0 <= c < n -> n <= SIZE_MAX -> 0 <= count -> c + count < U256 ->
  log_col (data_storage core) = dense 0 hashes ->
  n <= Z.of_nat (length hashes) ->
  Forall2 (fun h v => getValue (value_store (data_storage core)) h = inr v)
    (take (Z.to_nat n) hashes) vals ->
  exists core1 core2 core3 core4 core5,
    logsCursorRequest core idx count = Ret (true, core1)
    /\ handleLogsCursorRequested core1 (data_storage core1) idx = Ret core2
    /\ logsCursorGetLogs core2 idx
       = Ret ((OK, {| first_log_index := c;
                      new_logs := take (Z.to_nat (Z.min count (n - c)))
                                    (drop (Z.to_nat c) vals);
                      deleted_logs := deleted_data cur |}), core3)
    /\ logsCursorConfirmReceived core3 idx = Ret (true, core4)
    /\ logsCursorPosition core4 idx = Ret (OK, c + Z.min count (n - c))
    /\ logsCursorRequest core4 idx count = Ret (true, core5)
    /\ log_col (data_storage core4) = log_col (data_storage core)
    /\ logInsertedCountImpl (data_storage core4) = (OK, n).
Proof.
  intros Hidx Hkey Hst Hc Hn Hcn Hmax Hcount Hov Hcol Hlen Hvals.
  destruct (logsCursor_delivery_cycle core idx cur c n count hashes vals)
    as (core1 & core2 & core3 & core4 & core5 & cur4 & H1 & H2 & H3 & H4
        & H5 & H6 & H7 & H8 & _); try done.
  by exists core1, core2, core3, core4, core5.
Qed.


Lemma logsCursorGetLogs_READY
    (core : ArbCore) (idx : nat) (cur : DataCursor) (c : Z) :
  logs_cursors core !! idx = Some cur ->
  status cur = READY ->
  logsCursorGetCurrentTotalCount (data_storage core) cur = (OK, c) ->
  logsCursorGetLogs core idx
  = Ret ((OK, {| first_log_index := c; new_logs := data cur;
                 deleted_logs := deleted_data cur |}),
         storeCursor core idx
           (set_deleted_data []
              (set_data []
                 (set_pending_total_count
                    (add256 c (Z.of_nat (length (data cur)))) cur)))).
Proof.
  intros Hidx Hst Hc. unfold logsCursorGetLogs. rewrite Hidx, Hst. simpl.
  by rewrite Hc.
Qed.

Lemma logsCursorConfirmReceived_READY
    (core : ArbCore) (idx : nat) (cur : DataCursor) :
  logs_cursors core !! idx = Some cur ->
  status cur = READY -> data cur = [] -> deleted_data cur = [] ->
  logsCursorConfirmReceived core idx
  = Ret (true,
         storeCursor
           (set_data_storage
              (logsCursorSaveCurrentTotalCount (data_storage core) cur
                 (pending_total_count cur)).2 core)
           idx (set_status EMPTY cur)).
Proof.
  intros Hidx Hst Hd Hdel. unfold logsCursorConfirmReceived.
  rewrite Hidx, Hst, Hd, Hdel. done.
Qed.

Lemma logsCursorPosition_confirmed
    (core : ArbCore) (idx : nat) (cur cur0 : DataCursor) (tx : DataStorage) :
  logs_cursors core !! idx = Some cur0 ->
  logsCursorPosition
    (storeCursor
       (set_data_storage
          (logsCursorSaveCurrentTotalCount tx cur (pending_total_count cur)).2
          core)
       idx (set_status EMPTY cur)) idx
  = Ret (OK, pending_total_count cur).
Proof.
  intros Hidx. unfold logsCursorPosition.
  erewrite storeCursor_lookup by exact Hidx. simpl.
  unfold logsCursorGetCurrentTotalCount, stateGetUint256. simpl.
  by rewrite lookup_insert_eq.
Qed.

(** X7: taking the logs twice loses the advance.  [logsCursorGetLogs]
    leaves the cursor READY, so a second call before the confirmation is
    served again: it returns no logs and resets the pending position to the
    persisted one.  The confirmation then leaves the position at [c],
    whereas a confirmation after the first call alone moves it to
    [c + |data|]. *)
Theorem logsCursorGetLogs_twice_resets_pending
    (core : ArbCore) (idx : nat) (cur : DataCursor) (c : Z) :
  logs_cursors core !! idx = Some cur ->
  status cur = READY ->
  logsCursorGetCurrentTotalCount (data_storage core) cur = (OK, c) ->
  0 <= c -> c + Z.of_nat (length (data cur)) < U256 ->
  exists core1 core2 once twice,
    logsCursorGetLogs core idx
    = Ret ((OK, {| first_log_index := c; new_logs := data cur;
                   deleted_logs := deleted_data cur |}), core1)
    /\ logsCursorGetLogs core1 idx
       = Ret ((OK, {| first_log_index := c; new_logs := [];
                      deleted_logs := [] |}), core2)
    /\ logsCursorConfirmReceived core1 idx = Ret (true, once)
    /\ logsCursorPosition once idx
       = Ret (OK, c + Z.of_nat (length (data cur)))
    /\ logsCursorConfirmReceived core2 idx = Ret (true, twice)
    /\ logsCursorPosition twice idx = Ret (OK, c).
Proof.
  intros Hidx Hst Hc Hc0 Hov.
  set (cur1 := set_deleted_data []
                 (set_data []
                    (set_pending_total_count
                       (add256 c (Z.of_nat (length (data cur)))) cur))).
  set (core1 := storeCursor core idx cur1).
  assert (logs_cursors core1 !! idx = Some cur1) as Hidx1
    by (by eapply storeCursor_lookup).
  set (cur2 := set_deleted_data []
                 (set_data []
                    (set_pending_total_count
                       (add256 c (Z.of_nat (length (data cur1)))) cur1))).
  set (core2 := storeCursor core1 idx cur2).
  assert (logs_cursors core2 !! idx = Some cur2) as Hidx2
    by (by eapply storeCursor_lookup).
  exists core1, core2. do 2 eexists.
  split; [by apply logsCursorGetLogs_READY|].
  split; [by apply (logsCursorGetLogs_READY core1 idx cur1 c)|].
  split; [by apply (logsCursorConfirmReceived_READY core1 idx cur1)|].
  split.
  { erewrite logsCursorPosition_confirmed by exact Hidx1. simpl.
    by rewrite add256_small by lia. }
  split; [by apply (logsCursorConfirmReceived_READY core2 idx cur2)|].
  erewrite logsCursorPosition_confirmed by exact Hidx2. simpl.
  rewrite add256_small by lia. by rewrite Z.add_0_r.
Qed.

(** X8: a confirmation out of turn.  [logsCursorConfirmReceived] on a
    cursor that is not READY returns false and puts the cursor into ERROR;
    from then on requests are refused and [logsCursorGetLogs] answers
    TryAgain, until [logsCursorClearError] hands out the error text and
    resets the cursor to EMPTY with its logs and deleted logs dropped.  The
    store, and with it the persisted position, is never written. *)
Theorem logsCursorConfirmReceived_out_of_turn
    (core : ArbCore) (idx : nat) (cur : DataCursor) :
  logs_cursors core !! idx = Some cur ->
  status cur <> READY ->
  exists core1 core2 cur2,
    logsCursorConfirmReceived core idx = Ret (false, core1)
    /\ logsCursorCheckError core1 idx = Ret true
    /\ (forall count, logsCursorRequest core1 idx count = Ret (false, core1))
    /\ logsCursorGetLogs core1 idx
       = Ret ((TryAgain, empty_logscursor_logs), core1)
    /\ logsCursorClearError core1 idx
       = ("logsCursorConfirmReceived called at wrong state"%string, core2)
    /\ logs_cursors core2 !! idx = Some cur2
    /\ status cur2 = EMPTY /\ data cur2 = [] /\ deleted_data cur2 = []
    /\ error_string cur2 = EmptyString
    /\ data_storage core2 = data_storage core
    /\ logsCursorPosition core2 idx = logsCursorPosition core idx.
Proof.
  intros Hidx Hst.
  set (cur1 := cursorError "logsCursorConfirmReceived called at wrong state"
                 cur).
  set (core1 := storeCursor core idx cur1).
  assert (logs_cursors core1 !! idx = Some cur1) as Hidx1
    by (by eapply storeCursor_lookup).
  set (cur2 := set_status EMPTY
                 (set_deleted_data []
                    (set_data [] (set_error_string EmptyString cur1)))).
  exists core1, (storeCursor core1 idx cur2), cur2.
  split.
  { unfold logsCursorConfirmReceived. rewrite Hidx.
    by rewrite bool_decide_eq_true_2. }
  split; [unfold logsCursorCheckError; by rewrite Hidx1|].
  split; [intros count; unfold logsCursorRequest; by rewrite Hidx1|].
  split; [unfold logsCursorGetLogs; by rewrite Hidx1|].
  split; [unfold logsCursorClearError; by rewrite Hidx1|].
  split; [by eapply storeCursor_lookup|].
  repeat (split; [done|]).
  unfold logsCursorPosition.
  erewrite storeCursor_lookup by exact Hidx1. by rewrite Hidx.
Qed.

End CursorProtocolFacts.
Lemma handleLogsCursorRequested_posts_clamped_logs_witness :
  exists cur',
    @handleLogsCursorRequested refValueStore refPlatform refAVM refCore
      (data_storage refCore) 0
    = Ret (storeCursor refCore 0 cur')
    /\ served_cursor refCursor cur' 1 3 [7; 8; 9].
Proof.
  apply (@handleLogsCursorRequested_posts_clamped_logs refValueStore
           refPlatform refAVM refCore 0%nat refCursor 1 3
           [1007; 1008; 1009] [7; 8; 9]).
  - reflexivity.
  - reflexivity.
  - reflexivity.
  - lia.
  - vm_compute. discriminate.
  - simpl. lia.
  - vm_compute. reflexivity.
  - reflexivity.
  - simpl. lia.
  - repeat constructor.
Defined.

Lemma logsCursor_delivery_advances_position_witness :
  exists core1 core2 core3 core4 core5,
    @logsCursorRequest refValueStore refAVM idleCore 0 5 = Ret (true, core1)
    /\ @handleLogsCursorRequested refValueStore refPlatform refAVM core1
         (data_storage core1) 0 = Ret core2
    /\ logsCursorGetLogs core2 0
       = Ret ((OK, @Build_logscursor_logs refValueStore 1
                     (take (Z.to_nat (Z.min 5 (3 - 1)))
                        (drop (Z.to_nat 1) [7; 8; 9]))
                     []), core3)
    /\ logsCursorConfirmReceived core3 0 = Ret (true, core4)
    /\ logsCursorPosition core4 0 = Ret (OK, 1 + Z.min 5 (3 - 1))
    /\ logsCursorRequest core4 0 5 = Ret (true, core5)
    /\ log_col (data_storage core4) = log_col (data_storage idleCore)
    /\ logInsertedCountImpl (data_storage core4) = (OK, 3).
Proof.
  apply (@logsCursor_delivery_advances_position refValueStore refPlatform
           refAVM idleCore 0%nat idleCursor 1 3 5
           [1007; 1008; 1009] [7; 8; 9]).
  - reflexivity.
  - reflexivity.
  - reflexivity.
  - reflexivity.
  - reflexivity.
  - lia.
  - vm_compute. discriminate.
  - lia.
  - vm_compute. reflexivity.
  - reflexivity.
  - simpl. lia.
  - repeat constructor.
Defined.

Lemma logsCursorGetLogs_twice_resets_pending_witness :
  exists core1 core2 once twice,
    @logsCursorGetLogs refValueStore refAVM refCore 0
    = Ret ((OK, @Build_logscursor_logs refValueStore 1 [8; 9] []), core1)
    /\ logsCursorGetLogs core1 0
       = Ret ((OK, @Build_logscursor_logs refValueStore 1 [] []), core2)
    /\ logsCursorConfirmReceived core1 0 = Ret (true, once)
    /\ logsCursorPosition once 0 = Ret (OK, 1 + Z.of_nat 2)
    /\ logsCursorConfirmReceived core2 0 = Ret (true, twice)
    /\ logsCursorPosition twice 0 = Ret (OK, 1).
Proof.
  apply (@logsCursorGetLogs_twice_resets_pending refValueStore refAVM
           refCore 0%nat refCursor 1).
  - reflexivity.
  - reflexivity.
  - reflexivity.
  - lia.
  - vm_compute. reflexivity.
Defined.

Lemma logsCursorConfirmReceived_out_of_turn_witness :
  exists core1 core2 cur2,
    @logsCursorConfirmReceived refValueStore refAVM idleCore 0
    = Ret (false, core1)
    /\ logsCursorCheckError core1 0 = Ret true
    /\ (forall count, logsCursorRequest core1 0 count = Ret (false, core1))
    /\ logsCursorGetLogs core1 0
       = Ret ((TryAgain, empty_logscursor_logs), core1)
    /\ logsCursorClearError core1 0
       = ("logsCursorConfirmReceived called at wrong state"%string, core2)
    /\ logs_cursors core2 !! 0%nat = Some cur2
    /\ status cur2 = EMPTY /\ data cur2 = [] /\ deleted_data cur2 = []
    /\ error_string cur2 = EmptyString
    /\ data_storage core2 = data_storage idleCore
    /\ logsCursorPosition core2 0 = logsCursorPosition idleCore 0.
Proof.
  apply (@logsCursorConfirmReceived_out_of_turn refValueStore refAVM
           idleCore 0%nat idleCursor).
  - reflexivity.
  - discriminate.
Defined.

(** ** Columns in key order *)

Section SortedColumnFacts.
Context {V : Type}.

Lemma sorted_above_lt (lo : Z) (c : Column V) (e : Z * V) :
  sorted_above lo c = true -> e ∈ c -> lo < e.1.
Proof.
  revert lo. induction c as [|[k v] c IH]; intros lo Hs He; simpl in Hs.
  - by apply elem_of_nil in He.
  - apply andb_true_iff in Hs as [Hlo Hs]. apply Z.ltb_lt in Hlo.
    apply elem_of_cons in He as [->|He]; [done|].
    specialize (IH k Hs He). lia.
Qed.

Lemma sorted_above_weaken (lo lo' : Z) (c : Column V) :
  lo' <= lo -> sorted_above lo c = true -> sorted_above lo' c = true.
Proof.
  destruct c as [|[k v] c]; simpl; [done|].
  intros Hlo Hs. apply andb_true_iff in Hs as [Hk Hs]. apply Z.ltb_lt in Hk.
  apply andb_true_iff. split; [apply Z.ltb_lt; lia|done].
Qed.

Lemma sorted_column_cons (k : Z) (v : V) (c : Column V) :
  sorted_column ((k, v) :: c) = sorted_above k c.
Proof. done. Qed.

Lemma sorted_above_column (lo : Z) (c : Column V) :
  sorted_above lo c = true -> sorted_column c = true.
Proof.
  destruct c as [|[k v] c]; simpl; [done|].
  intros H. by apply andb_true_iff in H as [_ H].
Qed.

(** In a sorted column a key has one value. *)
Lemma sorted_column_functional (c : Column V) (k : Z) (v w : V) :
  sorted_column c = true -> (k, v) ∈ c -> (k, w) ∈ c -> v = w.
Proof.
  induction c as [|[k0 v0] c IH]; intros Hs Hv Hw.
  - by apply elem_of_nil in Hv.
  - rewrite sorted_column_cons in Hs.
    apply elem_of_cons in Hv as [Hv|Hv], Hw as [Hw|Hw].
    + congruence.
    + inversion Hv; subst. apply (sorted_above_lt _ _ _ Hs) in Hw. simpl in Hw. lia.
    + inversion Hw; subst. apply (sorted_above_lt _ _ _ Hs) in Hv. simpl in Hv. lia.
    + apply IH; [by eapply sorted_above_column|done..].
Qed.

(** [SeekForPrev] on a sorted column: the entry with the greatest key at
    or before the sought key. *)
Lemma SeekForPrev_sorted (key : Z) (c : Column V) (k : Z) (v : V) :
  sorted_column c = true ->
  (k, v) ∈ c -> k <= key ->
  (forall e, e ∈ c -> e.1 <= key -> e.1 <= k) ->
  SeekForPrev key c = Some (k, v).
Proof.
  induction c as [|[k0 v0] c IH]; intros Hs Hin Hk Hmax.
  - by apply elem_of_nil in Hin.
  - rewrite sorted_column_cons in Hs. simpl.
    apply elem_of_cons in Hin as [Heq|Hin].
    + inversion Heq; subst k0 v0. destruct (Z.leb_spec k key); [|lia].
      destruct c as [|[k1 v1] c]; [done|]. simpl.
      destruct (Z.leb_spec k1 key) as [Hle|]; [|done].
      specialize (Hmax (k1, v1) ltac:(set_solver) Hle). simpl in Hmax.
      simpl in Hs. apply andb_true_iff in Hs as [Hlt _]. apply Z.ltb_lt in Hlt. lia.
    + pose proof (sorted_above_lt _ _ _ Hs Hin) as Hlt. simpl in Hlt.
      destruct (Z.leb_spec k0 key); [|lia].
      rewrite IH; [done|by eapply sorted_above_column|done|done|].
      intros e He. apply Hmax. by right.
Qed.

Lemma SeekForPrev_none (key : Z) (c : Column V) :
  sorted_column c = true ->
  (forall e, e ∈ c -> key < e.1) -> SeekForPrev key c = None.
Proof.
  destruct c as [|[k v] c]; intros _ H; simpl; [done|].
  specialize (H (k, v) ltac:(set_solver)). simpl in H.
  destruct (Z.leb_spec k key); [lia|done].
Qed.

(** What [SeekForPrev] finds is in the column, at or before the key. *)
Lemma SeekForPrev_found (key : Z) (c : Column V) (e : Z * V) :
  SeekForPrev key c = Some e -> e ∈ c /\ e.1 <= key.
Proof.
  induction c as [|[k v] c IH]; simpl; [done|].
  destruct (Z.leb_spec k key); [|done].
  destruct (SeekForPrev key c) as [e'|].
  - intros [= ->]. destruct IH as [? ?]; [done|]. split; [by right|done].
  - intros [= <-]. split; [by left|done].
Qed.

(** [Seek] on a sorted column: it stops at the entry with the least key at
    or after the sought key. *)
Lemma Seek_sorted (key : Z) (c : Column V) (k : Z) (v : V) :
  sorted_column c = true ->
  (k, v) ∈ c -> key <= k ->
  (forall e, e ∈ c -> key <= e.1 -> k <= e.1) ->
  exists rest, Seek key c = (k, v) :: rest.
Proof.
  induction c as [|[k0 v0] c IH]; intros Hs Hin Hk Hmin.
  - by apply elem_of_nil in Hin.
  - rewrite sorted_column_cons in Hs. simpl.
    destruct (Z.ltb_spec k0 key) as [Hlt|Hge].
    + apply elem_of_cons in Hin as [Heq|Hin]; [inversion Heq; lia|].
      apply IH; [by eapply sorted_above_column|done|done|].
      intros e He. apply Hmin. by right.
    + apply elem_of_cons in Hin as [Heq|Hin]; [inversion Heq; by eexists|].
      pose proof (sorted_above_lt _ _ _ Hs Hin) as Hlt. simpl in Hlt.
      specialize (Hmin (k0, v0) ltac:(set_solver) Hge). simpl in Hmin. lia.
Qed.

Lemma Seek_none (key : Z) (c : Column V) :
  (forall e, e ∈ c -> e.1 < key) -> Seek key c = [].
Proof.
  induction c as [|[k v] c IH]; intros H; simpl; [done|].
  pose proof (H (k, v) ltac:(set_solver)) as Hk. simpl in Hk.
  destruct (Z.ltb_spec k key); [|lia].
  apply IH. intros e He. apply H. by right.
Qed.

(** A point read of a sorted column finds the value stored at the key. *)
Lemma Get_sorted (key : Z) (c : Column V) (v : V) :
  sorted_column c = true -> (key, v) ∈ c -> Get key c = Some v.
Proof.
  intros Hs Hin. unfold Get.
  destruct (Seek_sorted key c key v Hs Hin ltac:(lia)) as [rest ->]; [done|].
  by rewrite Z.eqb_refl.
Qed.

Lemma Get_found (key : Z) (c : Column V) (v : V) :
  Get key c = Some v -> (key, v) ∈ c.
Proof.
  unfold Get. destruct (Seek key c) as [|[k x] rest] eqn:E; [done|].
  destruct (Z.eqb_spec k key); [|done]. intros [= ->]. subst k.
  apply (Seek_sublist key). rewrite E. by left.
Qed.

(** [Put] on a sorted column: it stays sorted, holds the new entry, and
    keeps exactly the entries of the other keys. *)
Lemma Put_sorted_above (lo key : Z) (v : V) (c : Column V) :
  lo < key -> sorted_above lo c = true -> sorted_above lo (Put key v c) = true.
Proof.
  revert lo. induction c as [|[k x] c IH]; intros lo Hlo Hs; simpl in *.
  - apply andb_true_iff. split; [by apply Z.ltb_lt|done].
  - apply andb_true_iff in Hs as [Hk Hs]. apply Z.ltb_lt in Hk.
    destruct (Z.ltb_spec key k).
    + simpl. apply andb_true_iff. split; [by apply Z.ltb_lt|].
      apply andb_true_iff. split; [by apply Z.ltb_lt|done].
    + destruct (Z.eqb_spec key k).
      * subst. simpl. apply andb_true_iff. split; [by apply Z.ltb_lt|done].
      * simpl. apply andb_true_iff. split; [by apply Z.ltb_lt|].
        apply IH; [lia|done].
Qed.

Lemma Put_sorted (key : Z) (v : V) (c : Column V) :
  sorted_column c = true -> sorted_column (Put key v c) = true.
Proof.
  destruct c as [|[k x] c]; intros Hs; [done|].
  rewrite sorted_column_cons in Hs. simpl.
  destruct (Z.ltb_spec key k).
  - simpl. apply andb_true_iff. split; [by apply Z.ltb_lt|done].
  - destruct (Z.eqb_spec key k).
    + by subst.
    + simpl. apply Put_sorted_above; [lia|done].
Qed.

Lemma elem_of_Put (key : Z) (v : V) (c : Column V) (e : Z * V) :
  sorted_column c = true ->
  e ∈ Put key v c <-> e = (key, v) \/ (e ∈ c /\ e.1 <> key).
Proof.
  induction c as [|[k x] c IH]; intros Hs; simpl.
  - rewrite list_elem_of_singleton. split; [by left|].
    intros [->|[He _]]; [done|]. by apply elem_of_nil in He.
  - rewrite sorted_column_cons in Hs.
    assert (forall e', e' ∈ c -> k < e'.1) as Hall
      by (intros e' He'; by eapply sorted_above_lt).
    destruct (Z.ltb_spec key k).
    + rewrite !elem_of_cons. split.
      * intros [->|[->|He]]; [by left|right; simpl; split; [by left|lia]|].
        right. split; [by right|]. specialize (Hall e He). lia.
      * intros [->|[[->|He] _]]; [by left|right; by left|right; by right].
    + destruct (Z.eqb_spec key k).
      * subst k. rewrite !elem_of_cons. split.
        -- intros [->|He]; [by left|]. right. split; [by right|].
           specialize (Hall e He). lia.
        -- intros [->|[[->|He] Hne]]; [by left|done|by right].
      * rewrite !elem_of_cons, IH by (by eapply sorted_above_column).
        split.
        -- intros [->|[->|[He Hne]]]; [|by left|].
           ++ right. split; [by left|simpl; lia].
           ++ right. split; [by right|done].
        -- intros [->|[[->|He] Hne]]; [right; by left|by left|].
           right. right. done.
Qed.

(** The last entry of a sorted column has the greatest key. *)
Lemma last_sorted (c : Column V) (k : Z) (v : V) (e : Z * V) :
  sorted_column c = true -> last c = Some (k, v) -> e ∈ c -> e.1 <= k.
Proof.
  induction c as [|[k0 v0] c IH]; intros Hs Hl He; [done|].
  rewrite sorted_column_cons in Hs.
  destruct c as [|e1 c].
  - simpl in Hl. inversion Hl; subst. apply list_elem_of_singleton in He.
    subst. simpl. lia.
  - change (last ((k0, v0) :: e1 :: c)) with (last (e1 :: c)) in Hl.
    assert (e1 :: c ≠ []) as Hne by done.
    apply elem_of_cons in He as [->|He].
    + simpl. assert ((k, v) ∈ e1 :: c) as Hin.
      { apply last_Some in Hl as [l' ->]. set_solver. }
      apply (sorted_above_lt _ _ _ Hs) in Hin. simpl in Hin. lia.
    + apply IH; [by eapply sorted_above_column|done|done].
Qed.

End SortedColumnFacts.
(** ** Checkpoints: saving and looking up *)

Section CheckpointLookupFacts.
Context {VS : ValueStore} {PF : Platform} {VM : AVM}.
Variable ndebug : bool.

(** X9: a saved checkpoint is found again.  When [isValid] accepts the
    live machine's inbox and its state is saved, [saveCheckpoint] returns
    OK and writes the machine's state keys under its gas; then
    [getCheckpoint] at that gas returns these keys, the checkpoints are not
    empty, the checkpoints at other gas values are the ones from before,
    and, the column being sorted, [maxCheckpointGas] is at least that gas
    and [getCheckpointUsingGas] at that gas returns these keys. *)
Theorem saveCheckpoint_then_getCheckpoint
    (core : ArbCore) (tx : DataStorage) (m : MachineThread) :
  machine core = Some m ->
  isValid tx (fully_processed_inbox (output (thread_state_keys m))) = true ->
  (saveMachineState (value_store tx) m).1 = OK ->
  sorted_column (checkpoint_col tx) = true ->
  let keys := thread_state_keys m in
  let gas := arb_gas_used (output keys) in
  exists tx',
    saveCheckpoint ndebug core tx = Ret (OK, tx')
    /\ getCheckpoint tx' gas = inr keys
    /\ isCheckpointsEmpty tx' = false
    /\ (forall g, g <> gas -> getCheckpoint tx' g = getCheckpoint tx g)
    /\ gas <= maxCheckpointGas (set_data_storage tx' core)
    /\ getCheckpointUsingGas tx' gas false = inr keys
    /\ sorted_column (checkpoint_col tx') = true.
Proof.
  intros Hm Hvalid Hsave Hsorted keys gas.
  set (col := Put gas keys (checkpoint_col tx)).
  set (tx' := set_checkpoint_col col
                (set_value_store (saveMachineState (value_store tx) m).2 tx)).
  assert (checkpoint_col tx' = col) as Hcc by done.
  exists tx'. split.
  { unfold saveCheckpoint. rewrite Hm, Hvalid. simpl.
    rewrite Hsave. simpl. reflexivity. }
  assert (sorted_column col = true) as Hcol by (by apply Put_sorted).
  assert ((gas, keys) ∈ col) as Hin by (apply elem_of_Put; [done|by left]).
  assert (col <> []) as Hne.
  { intros E. rewrite E in Hin. by apply elem_of_nil in Hin. }
  clearbody tx'.
  split; [unfold getCheckpoint; rewrite Hcc; unfold col; by rewrite Get_Put_eq|].
  split.
  { unfold isCheckpointsEmpty. rewrite Hcc.
    apply bool_decide_eq_false_2. intros Hlast.
    apply last_None in Hlast. exact (Hne Hlast). }
  split.
  { intros g Hg. unfold getCheckpoint. rewrite Hcc.
    destruct (Get g (checkpoint_col tx)) as [v|] eqn:E.
    - apply Get_found in E.
      rewrite (Get_sorted g col v); [done|done|].
      apply elem_of_Put; [done|]. right. done.
    - destruct (Get g col) as [v|] eqn:E'; [|done].
      apply Get_found in E'.
      apply (elem_of_Put gas keys _ (g, v) Hsorted) in E' as [E'|[E' _]].
      + inversion E'. done.
      + by rewrite (Get_sorted g _ v) in E. }
  split.
  { unfold maxCheckpointGas. cbn [data_storage set_data_storage]. rewrite Hcc.
    destruct (last col) as [[k v]|] eqn:El.
    - by apply (last_sorted col k v (gas, keys)).
    - apply last_None in El. destruct (Hne El). }
  split; [|by rewrite Hcc].
  unfold getCheckpointUsingGas. rewrite Hcc.
  rewrite (SeekForPrev_sorted gas col gas keys); done.
Qed.

(** X10: which checkpoint [getCheckpointUsingGas] returns on a sorted
    checkpoint column.  With [after_gas] unset it is the checkpoint with the
    greatest gas at or before [total_gas], and not-found when there is
    none.  With [after_gas] set it is the checkpoint with the least gas
    above [total_gas], but only if some checkpoint lies at or before
    [total_gas]: otherwise the result is not-found although later
    checkpoints may exist. *)
Theorem getCheckpointUsingGas_nearest
    (tx : DataStorage) (total_gas : Z) :
  sorted_column (checkpoint_col tx) = true ->
  ((forall e, e ∈ checkpoint_col tx -> total_gas < e.1) ->
   forall after_gas, getCheckpointUsingGas tx total_gas after_gas = inl NotFound)
  /\ (forall k v,
        (k, v) ∈ checkpoint_col tx -> k <= total_gas ->
        (forall e, e ∈ checkpoint_col tx -> e.1 <= total_gas -> e.1 <= k) ->
        getCheckpointUsingGas tx total_gas false = inr v
        /\ getClosestExecutionMachine tx total_gas = inr v
        /\ ((forall e, e ∈ checkpoint_col tx -> e.1 <= total_gas) ->
            getCheckpointUsingGas tx total_gas true = inl NotFound)
        /\ (forall k' v',
              (k', v') ∈ checkpoint_col tx -> total_gas < k' ->
              (forall e, e ∈ checkpoint_col tx -> total_gas < e.1 -> k' <= e.1) ->
              getCheckpointUsingGas tx total_gas true = inr v')).
Proof.
  intros Hsorted. split.
  - intros Hnone after_gas. unfold getCheckpointUsingGas.
    by rewrite SeekForPrev_none.
  - intros k v Hin Hk Hmax.
    unfold getClosestExecutionMachine, getCheckpointUsingGas.
    rewrite (SeekForPrev_sorted total_gas _ k v) by done.
    split; [done|]. split; [done|]. split.
    + intros Hall. rewrite Seek_none; [done|].
      intros e He. specialize (Hall e He). specialize (Hmax e He Hall). lia.
    + intros k' v' Hin' Hk' Hmin.
      destruct (Seek_sorted (k + 1) (checkpoint_col tx) k' v') as [rest ->];
        try done; [lia|].
      intros e He Hge. apply Hmin; [done|].
      destruct (Z.le_gt_cases e.1 total_gas) as [Hle|Hgt]; [|lia].
      specialize (Hmax e He Hle). lia.
Qed.

End CheckpointLookupFacts.
(** Case analysis on the entries of a concrete column. *)
Ltac each_entry H :=
  repeat (apply elem_of_cons in H as [->|H]);
  simpl in *; try lia; try (by apply elem_of_nil in H).

Lemma saveCheckpoint_then_getCheckpoint_witness :
  exists tx',
    @saveCheckpoint refValueStore refPlatform refAVM true earlyCore refStore
    = Ret (OK, tx')
    /\ getCheckpoint tx' 1 = inr earlyKeys
    /\ isCheckpointsEmpty tx' = false
    /\ (forall g, g <> 1 -> getCheckpoint tx' g = getCheckpoint refStore g)
    /\ 1 <= maxCheckpointGas (set_data_storage tx' earlyCore)
    /\ getCheckpointUsingGas tx' 1 false = inr earlyKeys
    /\ sorted_column (checkpoint_col tx') = true.
Proof.
  apply (@saveCheckpoint_then_getCheckpoint refValueStore refPlatform refAVM
           true earlyCore refStore (refThreadAt earlyKeys)).
  - reflexivity.
  - reflexivity.
  - reflexivity.
  - reflexivity.
Defined.

Lemma getCheckpointUsingGas_nearest_witness :
  @getCheckpointUsingGas refValueStore refStore 1 false = inr genesisKeys
  /\ @getClosestExecutionMachine refValueStore refStore 1 = inr genesisKeys
  /\ @getCheckpointUsingGas refValueStore refStore 1 true = inr refMachineKeys
  /\ (forall after_gas,
        @getCheckpointUsingGas refValueStore refStore (-1) after_gas
        = inl NotFound).
Proof.
  destruct (@getCheckpointUsingGas_nearest refValueStore refStore 1 eq_refl)
    as [_ Hfound].
  destruct (Hfound 0 genesisKeys) as (Hle & Hclosest & _ & Hafter).
  { by left. }
  { lia. }
  { intros e He Hgas. simpl in He.
    each_entry He. }
  split; [exact Hle|]. split; [exact Hclosest|]. split.
  - apply (Hafter 2).
    + right. by left.
    + lia.
    + intros e He Hgas. simpl in He.
      each_entry He.
  - destruct (@getCheckpointUsingGas_nearest refValueStore refStore (-1) eq_refl)
      as [Hnone _].
    apply Hnone. intros e He. simpl in He.
    each_entry He.
Defined.
(** ** Reorganisation: which checkpoints go, which one is the target *)

Section ReorgTargetFacts.
Context {VS : ValueStore} {PF : Platform} {VM : AVM}.
Variable ndebug : bool.

Lemma isGoodCheckpoint_ext
    (tx tx' : DataStorage) (msn : Z) (use_latest : bool) (C : MachineStateKeys) :
  sequencer_batch_item_col tx' = sequencer_batch_item_col tx ->
  isGoodCheckpoint ndebug tx' msn use_latest C
  = isGoodCheckpoint ndebug tx msn use_latest C.
Proof.
  intros H. unfold isGoodCheckpoint, isValid, getNextSequencerBatchItem.
  by rewrite H.
Qed.

Lemma deleteMachineState_frame (tx : DataStorage) (C : MachineStateKeys) :
  checkpoint_col (deleteMachineState tx C) = checkpoint_col tx
  /\ sequencer_batch_item_col (deleteMachineState tx C)
     = sequencer_batch_item_col tx.
Proof. done. Qed.

(** The transaction of the walk after the checkpoints [gone] have been
    deleted, newest first. *)
Lemma reorgFindCheckpoint_walk
    (gone rest : Column MachineStateKeys) (tx0 tx : DataStorage)
    (msn : Z) (use_latest : bool) :
  sequencer_batch_item_col tx = sequencer_batch_item_col tx0 ->
  (forall e, e ∈ gone -> isGoodCheckpoint ndebug tx0 msn use_latest e.2 = Ret false) ->
  exists tx1,
    reorgFindCheckpoint ndebug (gone ++ rest) tx msn use_latest
    = reorgFindCheckpoint ndebug rest tx1 msn use_latest
    /\ sequencer_batch_item_col tx1 = sequencer_batch_item_col tx0
    /\ checkpoint_col tx1
       = fold_left (fun c e => Delete e.1 c) gone (checkpoint_col tx).
Proof.
  revert tx. induction gone as [|[k C] gone IH]; intros tx Hseq Hbad; simpl.
  - by exists tx.
  - rewrite (isGoodCheckpoint_ext tx0 tx) by done.
    pose proof (Hbad (k, C) ltac:(by left)) as Hk. simpl in Hk.
    rewrite Hk. simpl.
    destruct (IH (checkpointDelete (deleteMachineState tx C) k))
      as (tx1 & Hrun & Hseq1 & Hcol1); [done| |].
    { intros e He. apply Hbad. by right. }
    exists tx1. by rewrite Hrun.
Qed.

(** X11: a reorg that finds no checkpoint to go back to.  When every
    checkpoint is passed over (none lies at or before the message, or the
    ones that do are not confirmed by the message log and assertions are
    compiled out), the core is left as it was: the deletions of the walk
    are not committed.  The status is not-found only if there is no
    checkpoint at all; otherwise the walk runs off the first checkpoint and
    the iterator's status, OK, is returned, so the caller sees success
    although nothing was reorganised. *)
Theorem reorgToMessageOrBefore_without_target
    (core : ArbCore) (msn : Z) (use_latest : bool) :
  (forall e, e ∈ checkpoint_col (data_storage core) ->
     isGoodCheckpoint ndebug (data_storage core) msn use_latest e.2
     = Ret false) ->
  reorgToMessageOrBefore ndebug core msn use_latest
  = Ret (if bool_decide (checkpoint_col (data_storage core) = [])
         then NotFound else OK, core).
Proof.
  intros Hbad. unfold reorgToMessageOrBefore.
  destruct (decide (checkpoint_col (data_storage core) = [])) as [Hcol|Hcol].
  - rewrite Hcol. done.
  - rewrite (bool_decide_eq_false_2 (checkpoint_col _ = [])) by done.
    case_bool_decide as Hnil.
    { apply (f_equal (@rev _)) in Hnil. rewrite rev_involutive in Hnil. done. }
    destruct (reorgFindCheckpoint_walk (rev (checkpoint_col (data_storage core)))
                [] (data_storage core) (data_storage core) msn use_latest)
      as (tx1 & Hrun & _); [done| |].
    { intros e He. apply Hbad. apply list_elem_of_In, in_rev.
      by apply list_elem_of_In. }
    rewrite app_nil_r in Hrun. rewrite Hrun. done.
Qed.

Lemma sorted_above_app (lo : Z) (c1 c2 : Column MachineStateKeys) :
  sorted_above lo (c1 ++ c2) = true ->
  sorted_above lo c1 = true
  /\ forall e1 e2, e1 ∈ c1 -> e2 ∈ c2 -> e1.1 < e2.1.
Proof.
  revert lo. induction c1 as [|[k v] c1 IH]; intros lo Hs; simpl in *.
  - split; [done|]. intros e1 e2 He1. by apply elem_of_nil in He1.
  - apply andb_true_iff in Hs as [Hlo Hs].
    destruct (IH k Hs) as [Hs1 Hlt]. split; [by rewrite Hlo, Hs1|].
    intros e1 e2 He1 He2. apply elem_of_cons in He1 as [->|He1].
    + simpl. eapply (sorted_above_lt k (c1 ++ c2)); [done|].
      apply elem_of_app. by right.
    + by apply Hlt.
Qed.

Lemma sorted_column_app (c1 c2 : Column MachineStateKeys) :
  sorted_column (c1 ++ c2) = true ->
  forall e1 e2, e1 ∈ c1 -> e2 ∈ c2 -> e1.1 < e2.1.
Proof.
  destruct c1 as [|[k v] c1]; intros Hs e1 e2 He1 He2.
  - by apply elem_of_nil in He1.
  - simpl in Hs. apply elem_of_cons in He1 as [->|He1].
    + simpl. eapply (sorted_above_lt k (c1 ++ c2)); [done|].
      apply elem_of_app. by right.
    + apply sorted_above_app in Hs as [_ Hlt]. by apply Hlt.
Qed.

(** Deleting, by key, the entries of a sorted column behind some entry
    leaves the column up to that entry. *)
Lemma sorted_column_prefix (c1 c2 : Column MachineStateKeys) :
  sorted_column (c1 ++ c2) = true -> sorted_column c1 = true.
Proof.
  destruct c1 as [|[k v] c1]; [done|]. simpl. intros Hs.
  by apply sorted_above_app in Hs as [Hs _].
Qed.

Lemma Delete_last (keep : Column MachineStateKeys) (k : Z) (C : MachineStateKeys) :
  sorted_column (keep ++ [(k, C)]) = true ->
  Delete k (keep ++ [(k, C)]) = keep.
Proof.
  intros Hs. pose proof (sorted_column_app _ _ Hs) as Hlt.
  unfold Delete, Column in *. rewrite filter_app.
  rewrite (filter_cons_False _ (k, C)) by (simpl; by intros H; apply H).
  rewrite filter_nil, app_nil_r.
  clear Hs. induction keep as [|e keep IH]; [done|].
  rewrite filter_cons_True.
  - rewrite IH; [done|]. intros e1 e2 He1 He2. apply Hlt; [by right|done].
  - specialize (Hlt e (k, C) ltac:(by left) ltac:(by left)). simpl in Hlt. lia.
Qed.

Lemma Delete_newer
    (keep newer : Column MachineStateKeys) :
  sorted_column (keep ++ newer) = true ->
  fold_left (fun c e => Delete e.1 c) (rev newer) (keep ++ newer) = keep.
Proof.
  induction newer as [|[k1 v1] newer IH] using rev_ind; intros Hs.
  - simpl. by rewrite app_nil_r.
  - rewrite rev_unit. simpl. rewrite app_assoc in Hs |- *.
    rewrite Delete_last by done.
    apply IH. by eapply sorted_column_prefix.
Qed.

Lemma cursorReorgSaveDeleted_keeps_checkpoints
    (tx tx' : DataStorage) (cur cur' : DataCursor) (current log_count : Z) :
  cursorReorgSaveDeleted tx cur current log_count = Ret (inr (cur', tx')) ->
  checkpoint_col tx' = checkpoint_col tx
  /\ sideload_col tx' = sideload_col tx.
Proof.
  unfold cursorReorgSaveDeleted. intros H.
  destruct (log_count <? pending_total_count cur); [|by inversion H].
  destruct (getLogsNoLock _ _ _) as [logs| |]; simpl in H; try discriminate.
  destruct (ok logs.1); simpl in H; [|discriminate].
  destruct (current >? log_count); simpl in H; by inversion H.
Qed.

Lemma handleLogsCursorReorg_keeps_checkpoints
    (core core' : ArbCore) (i : nat) (log_count : Z) (s : Status) :
  handleLogsCursorReorg core i log_count = Ret (s, core') ->
  checkpoint_col (data_storage core') = checkpoint_col (data_storage core)
  /\ sideload_col (data_storage core') = sideload_col (data_storage core)
  /\ sideload_cache core' = sideload_cache core.
Proof.
  unfold handleLogsCursorReorg. intros H.
  destruct (logs_cursors core !! i) as [cur|]; [|discriminate].
  destruct (ok _); simpl in H; [|by inversion H].
  destruct (cursorReorgSaveDeleted _ _ _ _) as [[[s1 c1]|[c1 tx1]]| |] eqn:E;
    simpl in H; try discriminate.
  - by inversion H.
  - destruct (cursorReorgTruncateData _ _ _) as [c2| |]; simpl in H;
      try discriminate.
    inversion H; subst. simpl.
    apply cursorReorgSaveDeleted_keeps_checkpoints in E as [-> ->]. done.
Qed.

Lemma reorgLogsCursors_keeps_checkpoints
    (indices : list nat) (core core' : ArbCore) (log_count : Z) (s : Status) :
  reorgLogsCursors core indices log_count = Ret (s, core') ->
  checkpoint_col (data_storage core') = checkpoint_col (data_storage core)
  /\ sideload_col (data_storage core') = sideload_col (data_storage core)
  /\ sideload_cache core' = sideload_cache core.
Proof.
  revert core. induction indices as [|i indices IH]; intros core H; simpl in H.
  - by inversion H.
  - destruct (handleLogsCursorReorg core i log_count) as [[s1 core1]| |] eqn:E;
      simpl in H; try discriminate.
    apply handleLogsCursorReorg_keeps_checkpoints in E as (E1 & E2 & E3).
    destruct (ok s1); simpl in H.
    + apply IH in H as (H1 & H2 & H3). by rewrite H1, H2, H3.
    + by inversion H; subst.
Qed.

Lemma deleteSideloads_keeps_checkpoints (it : Column Z) (tx : DataStorage) :
  checkpoint_col (fold_left (fun tx e => sideloadDelete tx e.1) it tx)
  = checkpoint_col tx.
Proof.
  revert tx. induction it as [|e it IH]; intros tx; simpl; [done|].
  by rewrite IH.
Qed.

Lemma deleteLogs_keeps_checkpoints (it : Column Z) (tx : DataStorage) :
  checkpoint_col (fold_left (fun tx e => deleteValueTx tx e.2) it tx)
  = checkpoint_col tx
  /\ sideload_col (fold_left (fun tx e => deleteValueTx tx e.2) it tx)
     = sideload_col tx.
Proof.
  revert tx. induction it as [|e it IH]; intros tx; simpl; [done|].
  destruct (IH (deleteValueTx tx e.2)) as [-> ->]. done.
Qed.

(** The second half of a successful reorg keeps the checkpoints and
    restarts the machine from the target. *)
Lemma reorgToCheckpoint_restores_machine
    (core core' : ArbCore) (C : MachineStateKeys) :
  reorgToCheckpoint core C = Ret (OK, core') ->
  checkpoint_col (data_storage core') = checkpoint_col (data_storage core)
  /\ exists m,
       getMachineThreadUsingStateKeys (value_store (data_storage core')) C
       = Ret m
       /\ machine core' = Some m
       /\ last_machine_output core' = output (thread_state_keys m).
Proof.
  unfold reorgToCheckpoint. intros H.
  destruct (logInsertedCount core) as [s0 n0] eqn:Hn0.
  destruct s0; simpl in H; try (by inversion H).
  destruct (if log_count (output C) <? n0
            then reorgLogsCursors core (seq 0 (length (logs_cursors core)))
                   (log_count (output C))
            else Ret (OK, core)) as [[st core1]| |] eqn:Hcur;
    simpl in H; try discriminate.
  assert (checkpoint_col (data_storage core1) = checkpoint_col (data_storage core))
    as Hc.
  { destruct (log_count (output C) <? n0).
    - by eapply reorgLogsCursors_keeps_checkpoints.
    - by inversion Hcur; subst. }
  destruct st; simpl in H; try (by inversion H).
  unfold deleteLogsStartingAt in H. simpl in H.
  destruct (getMachineThreadUsingStateKeys _ _) as [m| |] eqn:Hm; simpl in H;
    try discriminate.
  inversion H; subst; clear H. simpl.
  split.
  - destruct (deleteLogs_keeps_checkpoints
                (Seek (log_count (output C))
                   (log_col (fold_left (fun tx e => sideloadDelete tx e.1)
                      (Seek match last_sideload (output C) with
                            | Some b => add256 b 1
                            | None => 0
                            end (sideload_col (data_storage core1)))
                      (data_storage core1))))
                (fold_left (fun tx e => sideloadDelete tx e.1)
                      (Seek match last_sideload (output C) with
                            | Some b => add256 b 1
                            | None => 0
                            end (sideload_col (data_storage core1)))
                      (data_storage core1))) as [-> _].
    by rewrite deleteSideloads_keeps_checkpoints.
  - exists m. done.
Qed.

(** X12: which checkpoints a reorg deletes.  On a sorted checkpoint
    column, let [C] be the newest checkpoint that the walk accepts (every
    newer one is passed over).  A reorg that returns OK has deleted exactly
    the checkpoints newer than [C]; [C] and the older ones remain; and the
    live machine is the one loaded from [C], whose output is the last
    machine output. *)
Theorem reorgToMessageOrBefore_deletes_newer_checkpoints
    (core core' : ArbCore) (msn : Z) (use_latest : bool)
    (older newer : Column MachineStateKeys) (k : Z) (C : MachineStateKeys) :
  checkpoint_col (data_storage core) = older ++ (k, C) :: newer ->
  sorted_column (checkpoint_col (data_storage core)) = true ->
  (forall e, e ∈ newer ->
     isGoodCheckpoint ndebug (data_storage core) msn use_latest e.2
     = Ret false) ->
  isGoodCheckpoint ndebug (data_storage core) msn use_latest C = Ret true ->
  reorgToMessageOrBefore ndebug core msn use_latest = Ret (OK, core') ->
  checkpoint_col (data_storage core') = older ++ [(k, C)]
  /\ exists m,
       getMachineThreadUsingStateKeys (value_store (data_storage core')) C
       = Ret m
       /\ machine core' = Some m
       /\ last_machine_output core' = output (thread_state_keys m).
Proof.
  intros Hcol Hsorted Hbad Hgood Hreorg.
  unfold reorgToMessageOrBefore in Hreorg. rewrite Hcol in Hreorg.
  rewrite rev_app_distr in Hreorg. simpl in Hreorg.
  rewrite <- app_assoc in Hreorg. simpl in Hreorg.
  case_bool_decide as Hnil; [by destruct (rev newer)|].
  destruct (reorgFindCheckpoint_walk (rev newer) ((k, C) :: rev older)
              (data_storage core) (data_storage core) msn use_latest)
    as (tx1 & Hrun & Hseq & Hcp); [done| |].
  { intros e He. apply Hbad. apply list_elem_of_In, in_rev.
    by apply list_elem_of_In. }
  rewrite Hrun in Hreorg. simpl in Hreorg.
  rewrite (isGoodCheckpoint_ext (data_storage core) tx1) in Hreorg by done.
  rewrite Hgood in Hreorg. simpl in Hreorg.
  apply reorgToCheckpoint_restores_machine in Hreorg as [Hc Hm].
  split; [|done]. rewrite Hc. simpl. rewrite Hcp, Hcol.
  rewrite Hcol, (cons_middle (k, C)), app_assoc in Hsorted.
  rewrite (cons_middle (k, C)), app_assoc.
  by apply Delete_newer.
Qed.

End ReorgTargetFacts.
Lemma reorgToMessageOrBefore_without_target_witness :
  @reorgToMessageOrBefore refValueStore refPlatform refAVM false lateCore 0 false
  = Ret (if bool_decide (checkpoint_col (data_storage lateCore) = [])
         then NotFound else OK, lateCore).
Proof.
  apply (@reorgToMessageOrBefore_without_target refValueStore refPlatform
           refAVM false lateCore 0 false).
  intros e He. simpl in He. each_entry He. reflexivity.
Defined.

Lemma reorgToMessageOrBefore_deletes_newer_checkpoints_witness :
  checkpoint_col (data_storage reorgedCore) = [] ++ [(0, genesisKeys)]
  /\ exists m,
       @getMachineThreadUsingStateKeys refValueStore refAVM
         (value_store (data_storage reorgedCore)) genesisKeys = Ret m
       /\ machine reorgedCore = Some m
       /\ last_machine_output reorgedCore = output (thread_state_keys m).
Proof.
  apply (@reorgToMessageOrBefore_deletes_newer_checkpoints refValueStore
           refPlatform refAVM true refCore reorgedCore 0 false
           [] [(2, refMachineKeys)] 0 genesisKeys).
  - reflexivity.
  - reflexivity.
  - intros e He. each_entry He. reflexivity.
  - reflexivity.
  - apply Ret_fst_eta. vm_compute. reflexivity.
Defined.

(** ** Start-up *)

Section StartupFacts.
Context {VS : ValueStore} {PF : Platform} {VM : AVM}.
Variable ndebug : bool.

(** The cursor loop of [initialize] writes zeros into the state column
    and nothing else. *)
Lemma initializeCursors_zero (cursors : list DataCursor) (tx : DataStorage) :
  exists tx',
    initializeCursors tx cursors = Ret tx'
    /\ checkpoint_col tx' = checkpoint_col tx
    /\ (forall key,
          state_col tx' !! key = Some 0
          \/ (state_col tx' !! key = state_col tx !! key
              /\ forall cur, cur ∈ cursors -> current_total_key cur <> key)).
Proof.
  revert tx. induction cursors as [|cur cursors IH]; intros tx; simpl.
  - exists tx. split; [done|]. split; [done|]. intros key. right.
    split; [done|]. intros cur Hcur. by apply elem_of_nil in Hcur.
  - destruct (IH (set_state_col (<[current_total_key cur := 0]> (state_col tx)) tx))
      as (tx' & Hrun & Hcp & Hkeys).
    exists tx'. split; [done|]. split; [done|]. intros key.
    destruct (Hkeys key) as [Hz|[Hsame Hother]]; [by left|].
    simpl in Hsame.
    destruct (decide (current_total_key cur = key)) as [<-|Hne].
    + left. by rewrite Hsame, lookup_insert_eq.
    + right. rewrite lookup_insert_ne in Hsame by done. split; [done|].
      intros c Hc. apply elem_of_cons in Hc as [->|Hc]; [done|by apply Hother].
Qed.

(** [initialize] when [reorgToMessageOrBefore] finds no checkpoint. *)
Lemma initialize_on_empty_store (core : ArbCore) (executable : MachineThread) :
  checkpoint_col (data_storage core) = [] ->
  isValid (data_storage core)
    (fully_processed_inbox (output (thread_state_keys executable))) = true ->
  (saveMachineState (value_store (data_storage core)) executable).1 = OK ->
  exists core',
    initialize ndebug core executable = Ret (OK, core')
    /\ machine core' = Some executable
    /\ checkpoint_col (data_storage core')
       = [(arb_gas_used (output (thread_state_keys executable)),
           thread_state_keys executable)]
    /\ logInsertedCount core' = (OK, 0)
    /\ sendInsertedCount core' = (OK, 0)
    /\ messageEntryInsertedCountImpl (data_storage core') = (OK, 0)
    /\ logs_cursors core' = logs_cursors core
    /\ (forall i cur, logs_cursors core !! i = Some cur ->
          logsCursorPosition core' i = Ret (OK, 0))
    /\ initialized core'
       = bool_decide (arb_gas_used (output (thread_state_keys executable)) = 0).
Proof.
  intros Hempty Hvalid Hsave.
  unfold initialize, reorgToMessageOrBefore. rewrite Hempty. simpl.
  unfold saveCheckpoint. simpl. rewrite Hvalid. simpl. rewrite Hsave. simpl.
  rewrite Hempty. simpl.
  match goal with
  | |- context [initializeCursors ?t _] => set (tx0 := t)
  end.
  destruct (initializeCursors_zero (logs_cursors core) tx0)
    as (tx' & Hrun & Hcp & Hkeys).
  rewrite Hrun. simpl. eexists. split; [reflexivity|]. simpl.
  split; [done|]. split; [by rewrite Hcp|].
  assert (forall key, state_col tx0 !! key = Some 0 ->
            state_col tx' !! key = Some 0) as Hzero.
  { intros key Hk. destruct (Hkeys key) as [?|[-> _]]; done. }
  split.
  { unfold logInsertedCount, logInsertedCountImpl, stateGetUint256. simpl.
    rewrite Hzero; [done|]. simpl.
    rewrite lookup_insert_ne by done. rewrite lookup_insert_ne by done.
    by rewrite lookup_insert_eq. }
  split.
  { unfold sendInsertedCount, sendInsertedCountImpl, stateGetUint256. simpl.
    rewrite Hzero; [done|]. simpl.
    rewrite lookup_insert_ne by done. by rewrite lookup_insert_eq. }
  split.
  { unfold messageEntryInsertedCountImpl, stateGetUint256.
    rewrite Hzero; [done|]. simpl. by rewrite lookup_insert_eq. }
  split; [done|]. split.
  { intros i cur Hi. unfold logsCursorPosition. simpl. rewrite Hi.
    unfold logsCursorGetCurrentTotalCount, stateGetUint256. simpl.
    destruct (Hkeys (current_total_key cur)) as [->|[_ Hother]]; [done|].
    destruct (Hother cur); [|done]. by eapply list_elem_of_lookup_2. }
  unfold initialized. simpl. rewrite Hcp. simpl. unfold Get. simpl.
  set (gas := arb_gas_used _).
  destruct (Z.ltb_spec gas 0).
  - rewrite bool_decide_eq_false_2 by (by intros [? ?]).
    by rewrite bool_decide_eq_false_2 by lia.
  - destruct (Z.eqb_spec gas 0).
    + rewrite bool_decide_eq_true_2 by done.
      by rewrite bool_decide_eq_true_2.
    + rewrite bool_decide_eq_false_2 by (by intros [? ?]).
      by rewrite bool_decide_eq_false_2.
Qed.

(** X13: [initialize] on a store without checkpoints.  With an initial
    machine whose inbox the message log confirms (a fresh machine has read
    nothing) and whose state can be saved, [initialize] returns OK, keeps
    that machine as the live machine, commits one checkpoint, the one of
    the initial machine under its gas, sets the inserted counts of logs,
    sends and message entries to zero and puts every logs cursor at
    position zero.  [initialized] then holds exactly if the initial machine
    has used no gas. *)
Theorem initialize_from_scratch (core : ArbCore) (executable : MachineThread) :
  checkpoint_col (data_storage core) = [] ->
  isValid (data_storage core)
    (fully_processed_inbox (output (thread_state_keys executable))) = true ->
  (saveMachineState (value_store (data_storage core)) executable).1 = OK ->
  exists core',
    initialize ndebug core executable = Ret (OK, core')
    /\ machine core' = Some executable
    /\ checkpoint_col (data_storage core')
       = [(arb_gas_used (output (thread_state_keys executable)),
           thread_state_keys executable)]
    /\ logInsertedCount core' = (OK, 0)
    /\ sendInsertedCount core' = (OK, 0)
    /\ messageEntryInsertedCountImpl (data_storage core') = (OK, 0)
    /\ logs_cursors core' = logs_cursors core
    /\ (forall i cur, logs_cursors core !! i = Some cur ->
          logsCursorPosition core' i = Ret (OK, 0))
    /\ initialized core'
       = bool_decide (arb_gas_used (output (thread_state_keys executable)) = 0).
Proof. apply initialize_on_empty_store. Qed.

End StartupFacts.
Lemma initialize_from_scratch_witness :
  exists core',
    @initialize refValueStore refPlatform refAVM true blankCore
      (refThreadAt genesisKeys) = Ret (OK, core')
    /\ machine core'
       = Some (refThreadAt genesisKeys : @MachineThread refValueStore refAVM)
    /\ checkpoint_col (data_storage core')
       = [(0, genesisKeys)]
    /\ logInsertedCount core' = (OK, 0)
    /\ sendInsertedCount core' = (OK, 0)
    /\ messageEntryInsertedCountImpl (data_storage core') = (OK, 0)
    /\ logs_cursors core' = logs_cursors blankCore
    /\ (forall i cur, logs_cursors blankCore !! i = Some cur ->
          logsCursorPosition core' i = Ret (OK, 0))
    /\ initialized core'
       = bool_decide (0 = 0).
Proof.
  apply (@initialize_from_scratch refValueStore refPlatform refAVM true
           blankCore (refThreadAt genesisKeys)).
  - reflexivity.
  - reflexivity.
  - reflexivity.
Defined.
(** ** Machines for sideloads *)

Section SideloadMachineFacts.
Context {VS : ValueStore} {PF : Platform} {VM : AVM}.
Variable ndebug : bool.

(** The entry that the backward step from [upper_bound] reaches. *)
Lemma sideloadCacheBefore_fold (block : Z) (l : list (Z * Machine)) :
  match foldr
          (fun e best =>
             if e.1 <=? block then
               match best with
               | Some b => if b.1 <? e.1 then Some e else best
               | None => Some e
               end
             else best)
          None l with
  | Some e => e ∈ l /\ e.1 <= block
              /\ forall e', e' ∈ l -> e'.1 <= block -> e'.1 <= e.1
  | None => forall e', e' ∈ l -> block < e'.1
  end.
Proof.
  induction l as [|e l IH]; simpl.
  - intros e' He'. by apply elem_of_nil in He'.
  - destruct (foldr _ None l) as [b|].
    + destruct IH as (Hb & Hble & Hmax).
      destruct (Z.leb_spec e.1 block) as [Hle|Hgt].
      * destruct (Z.ltb_spec b.1 e.1) as [Hlt|Hge].
        -- split; [by left|]. split; [done|].
           intros e' He' Hle'. apply elem_of_cons in He' as [->|He']; [lia|].
           specialize (Hmax e' He' Hle'). lia.
        -- split; [by right|]. split; [done|].
           intros e' He' Hle'. apply elem_of_cons in He' as [->|He']; [lia|].
           by apply Hmax.
      * split; [by right|]. split; [done|].
        intros e' He' Hle'. apply elem_of_cons in He' as [->|He']; [lia|].
        by apply Hmax.
    + destruct (Z.leb_spec e.1 block) as [Hle|Hgt].
      * split; [by left|]. split; [done|].
        intros e' He' Hle'. apply elem_of_cons in He' as [->|He']; [lia|].
        specialize (IH e' He'). lia.
      * intros e' He'. apply elem_of_cons in He' as [->|He']; [done|].
        by apply IH.
Qed.

Lemma sideloadCacheBefore_Some
    (block b : Z) (m : Machine) (cache : gmap Z Machine) :
  cache !! b = Some m -> b <= block ->
  (forall b', is_Some (cache !! b') -> b' <= block -> b' <= b) ->
  sideloadCacheBefore block cache = Some (b, m).
Proof.
  intros Hb Hle Hmax. unfold sideloadCacheBefore.
  pose proof (sideloadCacheBefore_fold block (map_to_list cache)) as H.
  destruct (foldr _ None (map_to_list cache)) as [[b0 m0]|].
  - destruct H as (Hin & Hle0 & Hmax0). simpl in *.
    apply elem_of_map_to_list in Hin.
    assert (b0 = b) as ->.
    { specialize (Hmax b0 ltac:(eauto) Hle0).
      specialize (Hmax0 (b, m) ltac:(by apply elem_of_map_to_list) Hle).
      simpl in Hmax0. lia. }
    congruence.
  - specialize (H (b, m) ltac:(by apply elem_of_map_to_list)). simpl in H. lia.
Qed.

(** X14: the sideload cache answers with the nearest older block.
    Whenever the cache holds a block at or before the requested one,
    [getMachineForSideload] returns OK with the machine cached for the
    greatest such block, without consulting the store: also when that block
    is not the requested one. *)
Theorem getMachineForSideload_serves_nearest_cached_block
    (fuel : nat) (core : ArbCore) (block_number b : Z) (m : Machine) :
  sideload_cache core !! b = Some m -> b <= block_number ->
  (forall b', is_Some (sideload_cache core !! b') ->
     b' <= block_number -> b' <= b) ->
  getMachineForSideload ndebug fuel core block_number = Ret (Some (OK, Some m)).
Proof.
  intros Hb Hle Hmax. unfold getMachineForSideload.
  by rewrite (sideloadCacheBefore_Some block_number b m).
Qed.

(** X15: a sideload that the core thread has just cached is served from
    the cache.  After the machine [m] has been cached for [block], a
    request for [block], and for any later block, returns [m]. *)
Theorem getMachineForSideload_after_caching
    (fuel : nat) (core : ArbCore) (block later : Z) (m : Machine) :
  is_u256 block ->
  (forall j, j ∈ dom (sideload_cache core) -> 0 <= j) ->
  block <= later ->
  getMachineForSideload ndebug fuel
    (set_sideload_cache
       (cacheSideloadMachine block m (sideload_cache core)) core) later
  = Ret (Some (OK, Some m)).
Proof.
  intros Hb Hpos Hlater. unfold getMachineForSideload. simpl.
  rewrite (sideloadCacheBefore_Some later block m); [done| |done|].
  - rewrite cacheSideloadMachine_lookup by done.
    rewrite bool_decide_eq_true_2 by lia. by rewrite lookup_insert_eq.
  - intros b' [x Hx] _. rewrite cacheSideloadMachine_lookup in Hx by done.
    case_bool_decide; [lia|done].
Qed.






(** A cursor whose machine is at the target, or cannot take its next
    instruction without passing it, is done at once: no message is read. *)
Lemma advanceExecutionCursorImpl_at_target
    (fuel : nat) (core : ArbCore) (keys : MachineStateKeys) (mach : Machine)
    (total_gas_used : Z) (message_group_size : Z) :
  getMachineUsingStateKeys (value_store (data_storage core)) keys = Ret mach ->
  arb_gas_used (output (machine_state_keys mach)) = total_gas_used
  \/ add256 (arb_gas_used (output (machine_state_keys mach))) (nextGasCost mach)
     > total_gas_used ->
  advanceExecutionCursorImpl ndebug (S fuel) core (inl keys) total_gas_used
    false message_group_size
  = Ret (Some (OK, inr mach)).
Proof.
  intros Hload Hgas. unfold advanceExecutionCursorImpl. simpl.
  rewrite Hload. simpl.
  destruct (Z.eqb_spec (arb_gas_used (output (machine_state_keys mach)))
              total_gas_used) as [|Hne]; [done|].
  destruct Hgas as [|Hgt]; [done|].
  destruct (Z.gtb_spec
              (add256 (arb_gas_used (output (machine_state_keys mach)))
                 (nextGasCost mach)) total_gas_used); [done|lia].
Qed.

(** X17: an execution cursor at a checkpoint.  On a sorted checkpoint
    column, when the machine of the checkpoint with the greatest gas at or
    before the target is at the target, or cannot take its next instruction
    without passing it, [getExecutionCursor] returns OK with that machine:
    no message is read and the machine is not run. *)
Theorem getExecutionCursor_at_checkpoint
    (fuel : nat) (core : ArbCore) (total_gas_used k : Z)
    (keys : MachineStateKeys) (mach : Machine) :
  sorted_column (checkpoint_col (data_storage core)) = true ->
  (k, keys) ∈ checkpoint_col (data_storage core) -> k <= total_gas_used ->
  (forall e, e ∈ checkpoint_col (data_storage core) ->
     e.1 <= total_gas_used -> e.1 <= k) ->
  getMachineUsingStateKeys (value_store (data_storage core)) keys = Ret mach ->
  arb_gas_used (output (machine_state_keys mach)) = total_gas_used
  \/ add256 (arb_gas_used (output (machine_state_keys mach))) (nextGasCost mach)
     > total_gas_used ->
  getExecutionCursor ndebug (S fuel) core total_gas_used
  = Ret (Some (OK, Some (inr mach))).
Proof.
  intros Hsorted Hin Hk Hmax Hload Hgas. unfold getExecutionCursor.
  unfold getClosestExecutionMachine, getCheckpointUsingGas.
  rewrite (SeekForPrev_sorted total_gas_used _ k keys) by done.
  by rewrite (advanceExecutionCursorImpl_at_target fuel core keys mach).
Qed.




End SideloadMachineFacts.
Lemma getMachineForSideload_serves_nearest_cached_block_witness :
  @getMachineForSideload refValueStore refPlatform refAVM true 0 cachedCore 7
  = Ret (Some (OK, Some refMachineKeys)).
Proof.
  apply (@getMachineForSideload_serves_nearest_cached_block refValueStore
           refPlatform refAVM true 0%nat cachedCore 7 5 refMachineKeys).
  - reflexivity.
  - lia.
  - intros b' [x Hx] _.
    change (sideload_cache cachedCore)
      with ({[5 := refMachineKeys]} : gmap Z MachineStateKeys) in Hx.
    apply lookup_singleton_Some in Hx as [<- _]. lia.
Defined.

Lemma getMachineForSideload_after_caching_witness :
  @getMachineForSideload refValueStore refPlatform refAVM true 0
    (set_sideload_cache
       (cacheSideloadMachine (VS:=refValueStore) (VM:=refAVM) 6
          refMachineKeys (sideload_cache refCore))
       refCore) 9
  = Ret (Some (OK, Some refMachineKeys)).
Proof.
  apply (@getMachineForSideload_after_caching refValueStore refPlatform refAVM true
           0%nat refCore 6 9 refMachineKeys).
  - vm_compute. split; [discriminate|reflexivity].
  - intros j Hj. apply elem_of_dom in Hj as [x Hx]. done.
  - lia.
Defined.


Lemma getExecutionCursor_at_checkpoint_witness :
  @getExecutionCursor refValueStore refPlatform refAVM true 1 refCore 2
  = Ret (Some (OK, Some (inr refMachineKeys))).
Proof.
  apply (@getExecutionCursor_at_checkpoint refValueStore refPlatform refAVM
           true 0%nat refCore 2 2 refMachineKeys refMachineKeys).
  - reflexivity.
  - right. by left.
  - lia.
  - intros e He _. each_entry He.
  - reflexivity.
  - by left.
Defined.


(** ** The core thread: committing an assertion *)

Section CoreThreadFacts.
Context {VS : ValueStore} {PF : Platform} {VM : AVM}.
Variable ndebug : bool.

(** X19: a tick of the core thread that leaves the loop commits nothing.
    When the handling of a finished assertion breaks out of the loop (the
    assertion or the checkpoint could not be saved, or the machine could
    not be restarted), the committed store is the one from before the tick:
    the logs, sends, sideload position and checkpoint written into the
    transaction are dropped with it. *)
Theorem coreThreadMachineSuccess_break_commits_nothing
    (core core' : ArbCore) :
  coreThreadMachineSuccess ndebug core = Ret (TickBreak, core') ->
  data_storage core' = data_storage core.
Proof.
  unfold coreThreadMachineSuccess. intros H.
  destruct (machine core) as [m|]; [|discriminate].
  destruct (nextAssertion m) as [a m1].
  destruct (ok (saveAssertion _ _ _).1); simpl in H; [|by inversion H].
  destruct (sideloadBlockNumber a) as [block|]; simpl in H; [|discriminate].
  unfold coreThreadSideload in H.
  destruct (saveCheckpoint _ _ _) as [st| |]; simpl in H; try discriminate.
  destruct (ok st.1); simpl in H; [|by inversion H].
  destruct (continueRunningMachine m1) as [[|] m2]; simpl in H;
    [discriminate|by inversion H].
Qed.








End CoreThreadFacts.
Lemma coreThreadMachineSuccess_break_commits_nothing_witness :
  data_storage brokenCore = data_storage failingCore.
Proof.
  apply (@coreThreadMachineSuccess_break_commits_nothing refValueStore refPlatform refAVM
           true failingCore brokenCore).
  apply Ret_fst_eta. vm_compute. reflexivity.
Defined.

(** ** Reorganisation and the logs cursors *)

Section ReorgCursorFacts.
Context {VS : ValueStore} {PF : Platform} {VM : AVM}.
Variable ndebug : bool.

Lemma cursorReorgTruncateData_key (cur cur' : DataCursor) (current t : Z) :
  cursorReorgTruncateData cur current t = Ret cur' ->
  current_total_key cur' = current_total_key cur.
Proof.
  unfold cursorReorgTruncateData.
  destruct (negb _); [|by intros [= <-]].
  destruct (current >=? t); [by intros [= <-]|].
  destruct (_ >? t); [|by intros [= <-]].
  destruct (narrow_cast _); simpl; [|done..]. by intros [= <-].
Qed.

(** One cursor in a reorg to [t] logs: its key stays, and its persisted
    position either stays, being at most [t], or is set to [t]. *)
Lemma handleLogsCursorReorg_position
    (core core' : ArbCore) (i : nat) (t c : Z) (cur : DataCursor) :
  logs_cursors core !! i = Some cur ->
  logsCursorGetCurrentTotalCount (data_storage core) cur = (OK, c) ->
  handleLogsCursorReorg core i t = Ret (OK, core') ->
  exists cur',
    logs_cursors core' = <[i := cur']> (logs_cursors core)
    /\ current_total_key cur' = current_total_key cur
    /\ ((state_col (data_storage core') = state_col (data_storage core)
         /\ c <= t)
        \/ state_col (data_storage core')
           = <[current_total_key cur := t]> (state_col (data_storage core))).
Proof.
  intros Hi Hc. unfold handleLogsCursorReorg. rewrite Hi, Hc. simpl.
  set (cur0 := if c >? pending_total_count cur
               then set_pending_total_count c cur else cur).
  assert (current_total_key cur0 = current_total_key cur
          /\ c <= pending_total_count cur0) as [Hk0 Hp0].
  { unfold cur0. destruct (Z.gtb_spec c (pending_total_count cur)); simpl;
      split; try done; lia. }
  unfold cursorReorgSaveDeleted.
  destruct (Z.ltb_spec t (pending_total_count cur0)) as [Hlt|Hge]; simpl.
  - destruct (getLogsNoLock _ _ _) as [[[] ld]| |]; simpl; try discriminate.
    destruct (Z.gtb_spec c t) as [Hgt|Hle]; simpl.
    + destruct (cursorReorgTruncateData _ _ _) as [cur2| |] eqn:Htr; simpl;
        try discriminate.
      intros [= <-]. eexists. split; [reflexivity|].
      rewrite cursorReorgDowngrade_key.
      apply cursorReorgTruncateData_key in Htr. simpl in Htr.
      split; [by rewrite Htr|]. right. simpl. by rewrite Hk0.
    + destruct (cursorReorgTruncateData _ _ _) as [cur2| |] eqn:Htr; simpl;
        try discriminate.
      intros [= <-]. eexists. split; [reflexivity|].
      rewrite cursorReorgDowngrade_key.
      apply cursorReorgTruncateData_key in Htr. simpl in Htr.
      split; [by rewrite Htr|]. by left.
  - destruct (cursorReorgTruncateData _ _ _) as [cur2| |] eqn:Htr; simpl;
      try discriminate.
    intros [= <-]. eexists. split; [reflexivity|].
    rewrite cursorReorgDowngrade_key.
    apply cursorReorgTruncateData_key in Htr.
    split; [by rewrite Htr|]. left. split; [done|lia].
Qed.

(** All cursors in a reorg to [t] logs: the keys stay, the state column
    is only written with [t], and every handled cursor ends at most at
    [t]. *)
Lemma reorgLogsCursors_positions
    (indices : list nat) (core core' : ArbCore) (t : Z) :
  (forall i cur, logs_cursors core !! i = Some cur ->
     exists c, logsCursorGetCurrentTotalCount (data_storage core) cur = (OK, c)) ->
  reorgLogsCursors core indices t = Ret (OK, core') ->
  current_total_key <$> logs_cursors core'
  = current_total_key <$> logs_cursors core
  /\ (forall key,
        state_col (data_storage core') !! key
        = state_col (data_storage core) !! key
        \/ state_col (data_storage core') !! key = Some t)
  /\ (forall i cur, i ∈ indices -> logs_cursors core !! i = Some cur ->
        exists c, state_col (data_storage core') !! current_total_key cur
                  = Some c /\ c <= t).
Proof.
  revert core. induction indices as [|i indices IH]; intros core Hread H;
    simpl in H.
  - inversion H; subst. split; [done|]. split; [by left|].
    intros i cur Hi. by apply elem_of_nil in Hi.
  - destruct (handleLogsCursorReorg core i t) as [[s1 core1]| |] eqn:E;
      simpl in H; try discriminate.
    destruct s1; simpl in H; try (by inversion H).
    assert (exists cur, logs_cursors core !! i = Some cur) as [cur Hi].
    { unfold handleLogsCursorReorg in E.
      destruct (logs_cursors core !! i); [by eexists|discriminate]. }
    destruct (Hread i cur Hi) as [c Hc].
    destruct (handleLogsCursorReorg_position core core1 i t c cur Hi Hc E)
      as (cur1 & Hl1 & Hk1 & Hst1).
    assert (current_total_key <$> logs_cursors core1
            = current_total_key <$> logs_cursors core) as Hkeys1.
    { rewrite Hl1, list_fmap_insert, Hk1. apply list_insert_id.
      by rewrite list_lookup_fmap, Hi. }
    assert (forall key,
              state_col (data_storage core1) !! key
              = state_col (data_storage core) !! key
              \/ state_col (data_storage core1) !! key = Some t) as Hw1.
    { intros key. destruct Hst1 as [[-> _]| ->]; [by left|].
      destruct (decide (current_total_key cur = key)) as [<-|Hne].
      - right. by rewrite lookup_insert_eq.
      - left. by rewrite lookup_insert_ne. }
    assert (forall j curj, logs_cursors core1 !! j = Some curj ->
              exists curj0, logs_cursors core !! j = Some curj0
                /\ current_total_key curj = current_total_key curj0) as Hback.
    { intros j curj Hj.
      assert ((current_total_key <$> logs_cursors core1) !! j
              = Some (current_total_key curj)) as Hfj
        by (by rewrite list_lookup_fmap, Hj).
      rewrite Hkeys1, list_lookup_fmap in Hfj.
      destruct (logs_cursors core !! j) as [curj0|]; [|done].
      exists curj0. split; [done|]. by inversion Hfj. }
    destruct (IH core1) as (Hkeys & Hw & Hpos); [|done|].
    { intros j curj Hj. destruct (Hback j curj Hj) as (curj0 & Hj0 & Hkj).
      destruct (Hread j curj0 Hj0) as [cj Hcj].
      unfold logsCursorGetCurrentTotalCount, stateGetUint256 in *.
      rewrite Hkj. destruct (Hw1 (current_total_key curj0)) as [-> | ->].
      - by exists cj.
      - by exists t. }
    split; [by rewrite Hkeys|]. split.
    { intros key. destruct (Hw key) as [-> | ->]; [apply Hw1|by right]. }
    intros j curj Hj Hlj. apply elem_of_cons in Hj as [->|Hj].
    + rewrite Hi in Hlj. inversion Hlj; subst curj.
      destruct (Hw (current_total_key cur)) as [-> | ->]; [|exists t; split; [done|lia]].
      destruct Hst1 as [[-> Hle]| ->].
      * exists c. split; [|done].
        unfold logsCursorGetCurrentTotalCount, stateGetUint256 in Hc.
        destruct (state_col (data_storage core) !! current_total_key cur);
          by inversion Hc.
      * exists t. split; [by rewrite lookup_insert_eq|lia].
    + assert (exists curj1, logs_cursors core1 !! j = Some curj1
                /\ current_total_key curj1 = current_total_key curj)
        as (curj1 & Hj1 & Hkj1).
      { assert ((current_total_key <$> logs_cursors core1) !! j
                = Some (current_total_key curj)) as Hfj
          by (by rewrite Hkeys1, list_lookup_fmap, Hlj).
        rewrite list_lookup_fmap in Hfj.
        destruct (logs_cursors core1 !! j) as [curj1|]; [|done].
        exists curj1. split; [done|]. by inversion Hfj. }
      rewrite <- Hkj1. by eapply Hpos.
Qed.


Lemma deleteSideloads_state (it : Column Z) (tx : DataStorage) :
  state_col (fold_left (fun tx e => sideloadDelete tx e.1) it tx)
  = state_col tx.
Proof.
  revert tx. induction it as [|e it IH]; intros tx; simpl; [done|].
  by rewrite IH.
Qed.

Lemma deleteLogs_state (it : Column Z) (tx : DataStorage) :
  state_col (fold_left (fun tx e => deleteValueTx tx e.2) it tx)
  = state_col tx.
Proof.
  revert tx. induction it as [|e it IH]; intros tx; simpl; [done|].
  by rewrite IH.
Qed.

Lemma reorgToCheckpoint_cursors
    (core core' : ArbCore) (C : MachineStateKeys) :
  cursors_behind_logs core ->
  reorgToCheckpoint core C = Ret (OK, core') ->
  cursors_behind_logs core'.
Proof.
  intros (n0 & Hn0 & Hcur) H. unfold reorgToCheckpoint in H.
  rewrite Hn0 in H. simpl in H.
  set (t := log_count (output C)) in *.
  destruct (if t <? n0
            then reorgLogsCursors core (seq 0 (length (logs_cursors core))) t
            else Ret (OK, core)) as [[st core1]| |] eqn:Hloop;
    simpl in H; try discriminate.
  destruct st; simpl in H; try (by inversion H).
  assert (current_total_key <$> logs_cursors core1
          = current_total_key <$> logs_cursors core
          /\ forall i cur, logs_cursors core !! i = Some cur ->
               exists c, state_col (data_storage core1) !! current_total_key cur
                         = Some c /\ c <= t) as [Hkeys Hpos].
  { destruct (Z.ltb_spec t n0) as [Hlt|Hge].
    - destruct (reorgLogsCursors_positions (seq 0 (length (logs_cursors core)))
                  core core1 t) as (Hk & _ & Hp);
        [|exact Hloop|].
      { intros i cur Hi. destruct (Hcur i cur Hi) as [_ [c [Hc _]]]. by exists c. }
      split; [done|]. intros i cur Hi. apply (Hp i cur); [|done].
      apply elem_of_seq. split; [lia|]. simpl. by eapply lookup_lt_Some.
    - inversion Hloop; subst core1. split; [done|].
      intros i cur Hi. destruct (Hcur i cur Hi) as [_ [c [Hc Hle]]].
      exists c. split; [|lia].
      unfold logsCursorGetCurrentTotalCount, stateGetUint256 in Hc.
      destruct (state_col (data_storage core) !! current_total_key cur);
        by inversion Hc. }
  unfold deleteLogsStartingAt in H. simpl in H.
  destruct (getMachineThreadUsingStateKeys _ _) as [m| |]; simpl in H;
    try discriminate.
  inversion H; subst core'; clear H.
  exists t. split.
  { unfold logInsertedCount, logInsertedCountImpl, stateGetUint256. simpl.
    rewrite lookup_insert_ne by done. by rewrite lookup_insert_eq. }
  intros i cur' Hi'. simpl in Hi'.
  assert (exists cur, logs_cursors core !! i = Some cur
            /\ current_total_key cur' = current_total_key cur)
    as (cur & Hi & Hk).
  { assert ((current_total_key <$> logs_cursors core1) !! i
            = Some (current_total_key cur')) as Hf
      by (by rewrite list_lookup_fmap, Hi').
    rewrite Hkeys, list_lookup_fmap in Hf.
    destruct (logs_cursors core !! i) as [cur|]; [|done].
    exists cur. split; [done|]. by inversion Hf. }
  destruct (Hcur i cur Hi) as [Hkey _].
  split; [by rewrite Hk|].
  destruct (Hpos i cur Hi) as (c & Hc & Hle).
  exists c. split; [|done].
  unfold logsCursorGetCurrentTotalCount, stateGetUint256. simpl.
  rewrite Hk, Hkey.
  rewrite lookup_insert_ne by done. rewrite lookup_insert_ne by done.
  rewrite deleteLogs_state, deleteSideloads_state.
  rewrite <- Hkey. by rewrite Hc.
Qed.

(** X23: a reorg keeps the logs cursors behind the log.  If before the
    reorg every cursor's persisted position is at most the inserted count
    of logs, then after a [reorgToMessageOrBefore] that returns OK every
    persisted position is at most the new inserted count: a position past
    the target's log count has been pulled back to it. *)
Theorem reorgToMessageOrBefore_keeps_cursors_behind_logs
    (core core' : ArbCore) (msn : Z) (use_latest : bool) :
  cursors_behind_logs core ->
  reorgToMessageOrBefore ndebug core msn use_latest = Ret (OK, core') ->
  cursors_behind_logs core'.
Proof.
  intros Hinv H. unfold reorgToMessageOrBefore in H.
  case_bool_decide as Hnil; [discriminate|].
  destruct (reorgFindCheckpoint _ _ _ _ _) as [[[C tx1]|s]| |] eqn:Hfind;
    simpl in H; try discriminate.
  - apply (reorgFindCheckpoint_frame ndebug) in Hfind as (_ & _ & Hstate).
    eapply reorgToCheckpoint_cursors; [|exact H].
    destruct Hinv as (n & Hn & Hcur). exists n. split.
    + unfold logInsertedCount, logInsertedCountImpl, stateGetUint256 in *.
      simpl. by rewrite Hstate.
    + intros i cur Hi. simpl in Hi. destruct (Hcur i cur Hi) as [Hk [c [Hc Hle]]].
      split; [done|]. exists c. split; [|done].
      unfold logsCursorGetCurrentTotalCount, stateGetUint256 in *.
      simpl. by rewrite Hstate.
  - by inversion H; subst.
Qed.

End ReorgCursorFacts.
Lemma refCore_cursors_behind_logs : cursors_behind_logs refCore.
Proof.
  exists 3. split; [reflexivity|].
  intros [|i] cur Hi; simpl in Hi; [|done].
  inversion Hi; subst cur. split; [reflexivity|].
  exists 1. split; [reflexivity|lia].
Qed.

Lemma reorgToMessageOrBefore_keeps_cursors_behind_logs_witness :
  cursors_behind_logs reorgedCore.
Proof.
  apply (@reorgToMessageOrBefore_keeps_cursors_behind_logs refValueStore
           refPlatform refAVM true refCore reorgedCore 0 false).
  - exact refCore_cursors_behind_logs.
  - apply Ret_fst_eta. vm_compute. reflexivity.
Defined.
(** ** Inbox accumulators *)

Section InboxAccFacts.
Context {VS : ValueStore} {PF : Platform} {VM : AVM}.

(** X24: the inbox accumulators are looked up at the stale lower bound,
    not at the index asked for.  When the stale slice reads a key past the
    message log, [getInboxAcc] and [getInboxAccPair] are not-found for
    every index, also for the messages that the log holds, and [isValid]
    accepts an inbox state exactly if it has consumed no message. *)
Theorem getInboxAcc_finds_no_batch_item
    (core : ArbCore) (i j : Z) (inbox : InboxState) :
  stale_past_log (data_storage core) ->
  getInboxAcc core i = (NotFound, 0)
  /\ getInboxAccPair core i j = (NotFound, (0, 0))
  /\ isValid (data_storage core) inbox = bool_decide (count inbox = 0).
Proof.
  intros Hstale.
  unfold getInboxAcc, getInboxAccPair, isValid, getNextSequencerBatchItem.
  simpl. rewrite !stale_past_log_Seek by done. simpl.
  split; [done|]. split; [done|].
  destruct (Z.eqb_spec (count inbox) 0) as [E|E].
  - by rewrite bool_decide_eq_true_2.
  - by rewrite bool_decide_eq_false_2.
Qed.

End InboxAccFacts.

Lemma getInboxAcc_finds_no_batch_item_witness :
  v_accumulator <$> Get 1 (sequencer_batch_item_col (data_storage refCore))
  = Some 22
  /\ @getInboxAcc refValueStore refPlatform refAVM refCore 1 = (NotFound, 0)
  /\ @getInboxAccPair refValueStore refPlatform refAVM refCore 0 1
     = (NotFound, (0, 0))
  /\ @isValid refValueStore refPlatform (data_storage refCore)
       {| count := 2; accumulator := 22 |}
     = bool_decide (2 = 0).
Proof.
  split; [reflexivity|].
  apply (@getInboxAcc_finds_no_batch_item refValueStore refPlatform refAVM
           refCore 1 1 {| count := 2; accumulator := 22 |}).
  exact refStore_stale_past_log.
Defined.
(** ** A request that waits for logs *)

Section WaitingRequestFacts.
Context {VS : ValueStore} {PF : Platform} {VM : AVM}.

Lemma overwrite_from_prefix {V} (n : nat) (ws vs : list V) :
  (n <= length vs)%nat ->
  take (n + length ws) (overwrite_from n ws vs) = take n vs ++ ws.
Proof.
  intros H. unfold overwrite_from.
  rewrite take_app_add' by (rewrite length_take; lia).
  by rewrite take_app_length.
Qed.

(** [saveLogs] on a log whose counted entries are the hashes of readable
    values: afterwards the counted entries, old and new, are the hashes of
    readable values. *)
Lemma saveLogs_resolved
    (tx : DataStorage) (hashes : list Z) (olds vals : list value) (n : nat) :
  content_addressed ->
  log_col tx = dense 0 hashes ->
  logInsertedCountImpl tx = (OK, Z.of_nat n) ->
  (n <= length hashes)%nat ->
  Z.of_nat n + Z.of_nat (length vals) < U256 ->
  Forall2 (fun h v => h = hash_value v /\ getValue (value_store tx) h = inr v)
    (take n hashes) olds ->
  (saveLogs tx vals).1 = OK ->
  exists hashes',
    log_col (saveLogs tx vals).2 = dense 0 hashes'
    /\ (n + length vals <= length hashes')%nat
    /\ logInsertedCountImpl (saveLogs tx vals).2
       = (OK, Z.of_nat n + Z.of_nat (length vals))
    /\ Forall2 (fun h v => getValue (value_store (saveLogs tx vals).2) h = inr v)
         (take (n + length vals) hashes') (olds ++ vals)
    /\ forall key, key <> log_inserted_key ->
         state_col (saveLogs tx vals).2 !! key = state_col tx !! key.
Proof.
  intros HCA Hcol Hcount Hn Hov Holds Hok.
  assert (take n hashes = hash_value <$> olds) as Hh.
  { clear -Holds. induction Holds as [|h v hs vs [-> _] _ IH]; simpl; [done|].
    by rewrite IH. }
  assert (Forall (fun v => getValue (value_store tx) (hash_value v) = inr v) olds)
    as Hres.
  { clear -Holds. induction Holds as [|h v hs vs [-> Hv] _ IH];
      by constructor. }
  revert Hok. unfold saveLogs. case_bool_decide as Hempty.
  - subst vals. simpl. intros _. exists hashes.
    rewrite Nat.add_0_r, Z.add_0_r, app_nil_r.
    split; [done|]. split; [done|]. split; [done|]. split; [|done].
    rewrite Hh. by apply Forall2_fmap_l, Forall_Forall2_diag.
  - rewrite Hcount. simpl.
    pose proof (saveLogsLoop_dense vals tx n hashes olds HCA Hcol Hn Hov Hres)
      as Hloop.
    destruct (saveLogsLoop tx (Z.of_nat n) vals) as [[s tx'] idx] eqn:Hrun.
    simpl in Hloop. destruct (ok s) eqn:Hs; simpl; [|by intros ->].
    intros _. destruct (Hloop eq_refl) as (Ha & Hb & -> & Hd).
    exists (overwrite_from n (hash_value <$> vals) hashes). simpl.
    split; [done|].
    split; [rewrite <- (length_fmap hash_value vals);
            by apply length_overwrite_from|].
    split.
    { unfold logInsertedCountImpl, stateGetUint256. simpl.
      by rewrite lookup_insert_eq. }
    split.
    { rewrite <- (length_fmap hash_value vals) at 1.
      rewrite overwrite_from_prefix by done.
      rewrite Hh, <- fmap_app.
      by apply Forall2_fmap_l, Forall_Forall2_diag. }
    intros key Hkey. rewrite lookup_insert_ne by done. by rewrite Hb.
Qed.


(** X25: a request at the head of the log waits and is served when logs
    arrive.  With the cursor's position at the inserted count, the request
    is accepted but the core thread posts nothing: the cursor stays
    REQUESTED and [logsCursorGetLogs] answers TryAgain.  Once [saveLogs] has
    committed new logs, the next pass of the core thread makes the cursor
    READY and [logsCursorGetLogs] hands out the first [count] of the new
    logs, starting at the old inserted count. *)
Theorem waiting_request_is_served_when_logs_arrive
    (core : ArbCore) (idx : nat) (cur : DataCursor) (n : nat) (count : Z)
    (hashes : list Z) (olds vals : list value) :
  content_addressed ->
  logs_cursors core !! idx = Some cur ->
  current_total_key cur = logscursor_current_prefix ++ [Z.of_nat idx] ->
  status cur = EMPTY ->
  logsCursorGetCurrentTotalCount (data_storage core) cur = (OK, Z.of_nat n) ->
  logInsertedCountImpl (data_storage core) = (OK, Z.of_nat n) ->
  log_col (data_storage core) = dense 0 hashes ->
  (n <= length hashes)%nat ->
  Forall2 (fun h v => h = hash_value v
                      /\ getValue (value_store (data_storage core)) h = inr v)
    (take n hashes) olds ->
  0 < count -> Z.of_nat n + count < U256 ->
  vals <> [] -> Z.of_nat n + Z.of_nat (length vals) <= SIZE_MAX ->
  (saveLogs (data_storage core) vals).1 = OK ->
  exists core1 core2 core4 core5,
    logsCursorRequest core idx count = Ret (true, core1)
    /\ handleLogsCursorRequested core1 (data_storage core1) idx = Ret core2
    /\ logsCursorGetLogs core2 idx
       = Ret ((TryAgain, empty_logscursor_logs), core2)
    /\ handleLogsCursorRequested
         (set_data_storage (saveLogs (data_storage core2) vals).2 core2)
         (saveLogs (data_storage core2) vals).2 idx
       = Ret core4
    /\ logsCursorGetLogs core4 idx
       = Ret ((OK, {| first_log_index := Z.of_nat n;
                      new_logs := take (Z.to_nat count) vals;
                      deleted_logs := deleted_data cur |}), core5).
Proof.
  intros HCA Hidx Hkey Hst Hc Hn Hcol Hlen Holds Hcount Hov Hvals Hmax Hok.
  pose proof SIZE_MAX_lt_U256 as HS.
  assert (length olds = n) as Hlo.
  { apply Forall2_length in Holds. rewrite length_take in Holds. lia. }
  (* the request *)
  set (cur1 := set_status REQUESTED (set_number_requested count cur)).
  set (core1 := storeCursor core idx cur1).
  assert (logs_cursors core1 !! idx = Some cur1) as Hidx1
    by (by eapply storeCursor_lookup).
  (* the first pass of the core thread: nothing to post *)
  destruct (handleLogsCursorRequested_served core1 idx cur1 (Z.of_nat n)
              (Z.of_nat n) hashes olds)
    as (cur2 & Hserve & Hk2 & Hp2 & Hdel2 & Hhead & _ & _); try done;
    try (simpl; lia).
  { rewrite Nat2Z.id. eapply Forall2_impl; [exact Holds|]. by intros h v [_ ?]. }
  destruct (Hhead eq_refl) as (Hst2 & Hdata2 & Hreq2 & _).
  set (core2 := storeCursor core1 idx cur2) in *.
  assert (logs_cursors core2 !! idx = Some cur2) as Hidx2
    by (by eapply storeCursor_lookup).
  (* the logs arrive *)
  destruct (saveLogs_resolved (data_storage core) hashes olds vals n)
    as (hashes' & Hcol' & Hlen' & Hn' & Hres' & Hframe); try done; [lia|].
  set (tx3 := (saveLogs (data_storage core) vals).2) in *.
  set (core3 := set_data_storage tx3 core2).
  assert (logs_cursors core3 !! idx = Some cur2) as Hidx3 by done.
  (* the second pass *)
  destruct (handleLogsCursorRequested_served core3 idx cur2 (Z.of_nat n)
              (Z.of_nat n + Z.of_nat (length vals)) hashes' (olds ++ vals))
    as (cur4 & Hserve4 & Hk4 & Hp4 & Hdel4 & _ & _ & Hready); try done;
    try (simpl in *; lia).
  { unfold logsCursorGetCurrentTotalCount, stateGetUint256 in *. simpl.
    rewrite Hk2. simpl. rewrite Hframe; [done|]. by rewrite Hkey. }
  { simpl. by replace (Z.to_nat (Z.of_nat n + Z.of_nat (length vals)))
      with (n + length vals)%nat by lia. }
  assert (length vals <> 0%nat) as Hlv by (by destruct vals).
  destruct (Hready ltac:(lia)) as (Hst4 & Hreq4 & Hdata4 & _).
  set (core4 := storeCursor core3 idx cur4) in *.
  assert (logs_cursors core4 !! idx = Some cur4) as Hidx4
    by (by eapply storeCursor_lookup).
  exists core1, core2, core4. eexists.
  split; [unfold logsCursorRequest; by rewrite Hidx, Hst|].
  split; [exact Hserve|].
  split.
  { unfold logsCursorGetLogs. rewrite Hidx2, Hst2. done. }
  split; [exact Hserve4|].
  rewrite (logsCursorGetLogs_READY core4 idx cur4 (Z.of_nat n)); try done.
  - rewrite Hdata4, Hdel4, Hdel2, Hreq2. simpl.
    rewrite Nat2Z.id, drop_app_length' by done.
    replace (take (Z.to_nat (Z.min count
                     (Z.of_nat n + Z.of_nat (length vals) - Z.of_nat n))) vals)
      with (take (Z.to_nat count) vals); [reflexivity|].
    destruct (Z.le_gt_cases count (Z.of_nat (length vals))).
    + f_equal. lia.
    + rewrite !take_ge by lia. done.
  - unfold logsCursorGetCurrentTotalCount, stateGetUint256 in *. simpl.
    rewrite Hk4, Hk2. simpl. rewrite Hframe; [done|]. by rewrite Hkey.
Qed.

End WaitingRequestFacts.
Lemma waiting_request_is_served_when_logs_arrive_witness :
  exists core1 core2 core4 core5,
    @logsCursorRequest refValueStore refAVM headCore 0 1 = Ret (true, core1)
    /\ @handleLogsCursorRequested refValueStore refPlatform refAVM core1
         (data_storage core1) 0 = Ret core2
    /\ logsCursorGetLogs core2 0
       = Ret ((TryAgain, empty_logscursor_logs), core2)
    /\ @handleLogsCursorRequested refValueStore refPlatform refAVM
         (set_data_storage
            (@saveLogs refValueStore (data_storage core2) [5; 6]).2 core2)
         (@saveLogs refValueStore (data_storage core2) [5; 6]).2 0
       = Ret core4
    /\ logsCursorGetLogs core4 0
       = Ret ((OK, @Build_logscursor_logs refValueStore (Z.of_nat 3)
                     (take (Z.to_nat 1) [5; 6]) []), core5).
Proof.
  apply (@waiting_request_is_served_when_logs_arrive refValueStore
           refPlatform refAVM headCore 0%nat idleCursor 3%nat 1
           [1007; 1008; 1009] [7; 8; 9] [5; 6]).
  - exact refValueStore_content_addressed.
  - reflexivity.
  - reflexivity.
  - reflexivity.
  - reflexivity.
  - reflexivity.
  - reflexivity.
  - simpl. lia.
  - repeat (constructor; [split; reflexivity|]). constructor.
  - lia.
  - vm_compute. reflexivity.
  - discriminate.
  - vm_compute. discriminate.
  - reflexivity.
Defined.
(** ** The core thread's pass over the logs cursors *)

Section CursorSweepFacts.
Context {VS : ValueStore} {PF : Platform} {VM : AVM}.

Lemma storeCursor_lookup_ne (core : ArbCore) (i j : nat) (c : DataCursor) :
  i <> j -> logs_cursors (storeCursor core i c) !! j = logs_cursors core !! j.
Proof. intros H. unfold storeCursor. simpl. by apply list_lookup_insert_ne. Qed.

(** Serving a cursor touches that cursor only, and depends on nothing but
    that cursor and the store. *)
Lemma handleLogsCursorRequested_local
    (core core2 served : ArbCore) (i : nat) :
  data_storage core2 = data_storage core ->
  logs_cursors core2 !! i = logs_cursors core !! i ->
  handleLogsCursorRequested core (data_storage core) i = Ret served ->
  data_storage served = data_storage core
  /\ (forall j, i <> j -> logs_cursors served !! j = logs_cursors core !! j)
  /\ exists served2,
       handleLogsCursorRequested core2 (data_storage core2) i = Ret served2
       /\ logs_cursors served2 !! i = logs_cursors served !! i.
Proof.
  intros Hds Hl. unfold handleLogsCursorRequested, getLogs.
  rewrite Hl, Hds.
  destruct (logs_cursors core !! i) as [cur|] eqn:Hi; [|discriminate].
  assert (forall c, logs_cursors (storeCursor core2 i c) !! i
                    = logs_cursors (storeCursor core i c) !! i) as Hsame.
  { intros c. rewrite (storeCursor_lookup core i cur c Hi).
    by rewrite (storeCursor_lookup core2 i cur c) by (by rewrite Hl). }
  assert (forall c s, Ret (storeCursor core i c) = Ret s ->
            data_storage s = data_storage core
            /\ (forall j, i <> j -> logs_cursors s !! j = logs_cursors core !! j)
            /\ exists s2, Ret (storeCursor core2 i c) = Ret s2
                 /\ logs_cursors s2 !! i = logs_cursors s !! i) as Hret.
  { intros c s [= <-]. split; [done|].
    split; [intros j Hj; by apply storeCursor_lookup_ne|].
    eexists. split; [reflexivity|apply Hsame]. }
  repeat match goal with
         | |- context [if ?b then _ else _] => destruct b
         end; simpl; try (by apply Hret).
  all: destruct (getLogsNoLock _ _ _) as [logs| |]; simpl; try discriminate.
  all: destruct (negb (ok logs.1)); by apply Hret.
Qed.


Lemma coreThreadLogsCursors_each
    (indices : list nat) (core core' : ArbCore) :
  NoDup indices ->
  coreThreadLogsCursors core indices = Ret core' ->
  data_storage core' = data_storage core
  /\ (forall j, j ∉ indices -> logs_cursors core' !! j = logs_cursors core !! j)
  /\ (forall i cur, i ∈ indices -> logs_cursors core !! i = Some cur ->
        (status cur = REQUESTED ->
         exists served,
           handleLogsCursorRequested core (data_storage core) i = Ret served
           /\ logs_cursors core' !! i = logs_cursors served !! i)
        /\ (status cur <> REQUESTED -> logs_cursors core' !! i = Some cur)).
Proof.
  intros Hnd. revert core.
  induction indices as [|i indices IH]; intros core H; simpl in H.
  - inversion H; subst. split; [done|]. split; [done|].
    intros i cur Hi. by apply elem_of_nil in Hi.
  - apply NoDup_cons in Hnd as [Hni Hnd].
    set (step := match logs_cursors core !! i with
                 | Some cur =>
                     if bool_decide (status cur = REQUESTED)
                     then handleLogsCursorRequested core (data_storage core) i
                     else Ret core
                 | None => Ret core
                 end) in H.
    destruct step as [core1| |] eqn:Hstep; simpl in H; try discriminate.
    assert (data_storage core1 = data_storage core
            /\ (forall j, i <> j ->
                  logs_cursors core1 !! j = logs_cursors core !! j)) as [Hds1 Hl1].
    { unfold step in Hstep.
      destruct (logs_cursors core !! i) as [cur|]; [|by inversion Hstep].
      case_bool_decide; [|by inversion Hstep].
      by destruct (handleLogsCursorRequested_local core core core1 i eq_refl
                     eq_refl Hstep) as (? & ? & _). }
    destruct (IH Hnd core1 H) as (Hds & Hout & Hin).
    split; [by rewrite Hds|]. split.
    { intros j Hj. apply not_elem_of_cons in Hj as [Hji Hj].
      rewrite Hout by done. by apply Hl1. }
    intros j cur Hj Hlj. apply elem_of_cons in Hj as [->|Hj].
    + rewrite (Hout i Hni). unfold step in Hstep. rewrite Hlj in Hstep.
      split.
      * intros Hreq. rewrite bool_decide_eq_true_2 in Hstep by done.
        by exists core1.
      * intros Hreq. rewrite bool_decide_eq_false_2 in Hstep by done.
        by inversion Hstep; subst.
    + assert (i <> j) as Hij by (intros ->; done).
      destruct (Hin j cur Hj) as [Hreq Hidle]; [by rewrite Hl1|].
      split; [|done].
      intros Hr. destruct (Hreq Hr) as (served1 & Hs1 & Hlk).
      destruct (handleLogsCursorRequested_local core1 core served1 j)
        as (_ & _ & served & Hs & Hlk'); [done|by rewrite Hl1|done|].
      exists served. split; [done|]. by rewrite Hlk, Hlk'.
Qed.

(** X26: the pass of the core thread over the logs cursors.  When the
    pass returns, the store is unchanged, every cursor that was not
    REQUESTED is as it was, and every REQUESTED cursor is what
    [handleLogsCursorRequested] makes of it on its own: the cursors are
    served independently of each other. *)
Theorem coreThreadLogsCursors_serves_independently
    (core core' : ArbCore) :
  coreThreadLogsCursors core (seq 0 (length (logs_cursors core))) = Ret core' ->
  data_storage core' = data_storage core
  /\ (forall i cur, logs_cursors core !! i = Some cur ->
        (status cur = REQUESTED ->
         exists served,
           handleLogsCursorRequested core (data_storage core) i = Ret served
           /\ logs_cursors core' !! i = logs_cursors served !! i)
        /\ (status cur <> REQUESTED -> logs_cursors core' !! i = Some cur)).
Proof.
  intros H.
  destruct (coreThreadLogsCursors_each _ core core' (NoDup_seq _ _) H)
    as (Hds & Hout & Hin).
  split; [done|].
  intros i cur Hi. apply Hin; [|done].
  apply elem_of_seq. split; [lia|]. simpl. by eapply lookup_lt_Some.
Qed.

End CursorSweepFacts.
(** A returning computation returns what it yields. *)
Lemma Ret_eta {A} (o : Outcome A) (d : A) :
  match o with Ret _ => true | _ => false end = true ->
  o = Ret (match o with Ret y => y | _ => d end).
Proof. by destruct o. Qed.

Lemma coreThreadLogsCursors_serves_independently_witness :
  data_storage sweptCore = data_storage requestedCore
  /\ (forall i cur, logs_cursors requestedCore !! i = Some cur ->
        (status cur = REQUESTED ->
         exists served,
           @handleLogsCursorRequested refValueStore refPlatform refAVM
             requestedCore (data_storage requestedCore) i = Ret served
           /\ logs_cursors sweptCore !! i = logs_cursors served !! i)
        /\ (status cur <> REQUESTED -> logs_cursors sweptCore !! i = Some cur)).
Proof.
  apply (@coreThreadLogsCursors_serves_independently refValueStore
           refPlatform refAVM requestedCore sweptCore).
  apply Ret_eta. vm_compute. reflexivity.
Defined.

(** ** The logs cursors stay behind the log *)

Section CursorInvariantFacts.
Context {VS : ValueStore} {PF : Platform} {VM : AVM}.
Variable ndebug : bool.

(** X27: [initialize] puts the logs cursors behind the log.  After an
    initialisation from scratch of a core whose cursors have the keys that
    the constructor gives them, every cursor reads position zero and the
    inserted count of logs is zero. *)
Theorem initialize_establishes_cursors_behind_logs
    (core core' : ArbCore) (executable : MachineThread) :
  checkpoint_col (data_storage core) = [] ->
  isValid (data_storage core)
    (fully_processed_inbox (output (thread_state_keys executable))) = true ->
  (saveMachineState (value_store (data_storage core)) executable).1 = OK ->
  (forall i cur, logs_cursors core !! i = Some cur ->
     current_total_key cur = logscursor_current_prefix ++ [Z.of_nat i]) ->
  initialize ndebug core executable = Ret (OK, core') ->
  cursors_behind_logs core'.
Proof.
  intros Hempty Hvalid Hsave Hkeys Hinit.
  destruct (initialize_on_empty_store ndebug core executable Hempty Hvalid Hsave)
    as (core1 & Hrun & _ & _ & Hn & _ & _ & Hcur & Hpos & _).
  rewrite Hrun in Hinit. inversion Hinit; subst core1.
  exists 0. split; [done|].
  intros i cur Hi. rewrite Hcur in Hi. split; [by apply Hkeys|].
  exists 0. split; [|done].
  specialize (Hpos i cur Hi). unfold logsCursorPosition in Hpos.
  rewrite Hcur, Hi in Hpos. by inversion Hpos.
Qed.

Lemma saveLogsLoop_count (vals : list value) (tx : DataStorage) (n : Z) :
  0 <= n -> n + Z.of_nat (length vals) < U256 ->
  state_col (saveLogsLoop tx n vals).1.2 = state_col tx
  /\ (ok (saveLogsLoop tx n vals).1.1 = true ->
      (saveLogsLoop tx n vals).2 = n + Z.of_nat (length vals)).
Proof.
  revert tx n. induction vals as [|v vals IH]; intros tx n Hn Hov; simpl.
  - split; [done|]. intros _. lia.
  - destruct (ok (saveValue (value_store tx) v).1) eqn:Hok; simpl;
      [|split; [done|by rewrite Hok]].
    rewrite add256_small by (simpl in Hov; lia).
    destruct (IH (set_log_col (Put n (hash_value v) (log_col tx))
                    (set_value_store (saveValue (value_store tx) v).2 tx))
                 (n + 1)) as [-> Hidx]; [lia|simpl in Hov; lia|].
    split; [done|]. intros H. rewrite Hidx by done. simpl. lia.
Qed.

Lemma saveSendsLoop_state (sends : list bytes) (tx : DataStorage) (n : Z) :
  state_col (saveSendsLoop tx n sends).1.2 = state_col tx.
Proof.
  revert tx n. induction sends as [|s sends IH]; intros tx n; simpl; [done|].
  by rewrite IH.
Qed.

(** What a successful [saveAssertion] does to the state column: the
    inserted count of logs grows by the number of logs, the inserted count
    of sends is written, every other key is left alone. *)
Lemma saveAssertion_state
    (tx : DataStorage) (a : Assertion) (gas n : Z) :
  logInsertedCountImpl tx = (OK, n) ->
  0 <= n -> n + Z.of_nat (length (logs a)) < U256 ->
  ok (saveAssertion tx a gas).1 = true ->
  logInsertedCountImpl (saveAssertion tx a gas).2
  = (OK, n + Z.of_nat (length (logs a)))
  /\ forall key, key <> log_inserted_key -> key <> send_inserted_key ->
       state_col (saveAssertion tx a gas).2 !! key = state_col tx !! key.
Proof.
  intros Hn Hn0 Hov. unfold saveAssertion.
  assert (ok (saveLogs tx (logs a)).1 = true ->
          logInsertedCountImpl (saveLogs tx (logs a)).2
          = (OK, n + Z.of_nat (length (logs a)))
          /\ forall key, key <> log_inserted_key ->
               state_col (saveLogs tx (logs a)).2 !! key = state_col tx !! key)
    as Hlogs.
  { unfold saveLogs. case_bool_decide as Hempty.
    - rewrite Hempty. simpl. rewrite Z.add_0_r. done.
    - rewrite Hn. simpl.
      destruct (saveLogsLoop_count (logs a) tx n Hn0 Hov) as [Hst Hidx].
      destruct (saveLogsLoop tx n (logs a)) as [[s tx'] idx]. simpl in *.
      destruct (ok s) eqn:Hs; simpl; [|by rewrite Hs].
      intros _. rewrite Hidx by done.
      split.
      + unfold logInsertedCountImpl, stateGetUint256. simpl.
        by rewrite lookup_insert_eq.
      + intros key Hkey. rewrite lookup_insert_ne by done. by rewrite Hst. }
  destruct (ok (saveLogs tx (logs a)).1) eqn:Hok1; simpl; [|by rewrite Hok1].
  destruct (Hlogs eq_refl) as [Hcount Hframe]. clear Hlogs.
  set (tx1 := (saveLogs tx (logs a)).2) in *.
  assert (forall key, key <> send_inserted_key ->
            state_col (saveSends tx1 (sends a)).2 !! key = state_col tx1 !! key)
    as Hsends.
  { intros key Hkey. unfold saveSends. case_bool_decide; [done|].
    destruct (ok (sendInsertedCountImpl tx1).1); simpl; [|done].
    pose proof (saveSendsLoop_state (sends a) tx1 (sendInsertedCountImpl tx1).2)
      as Hst.
    destruct (saveSendsLoop tx1 (sendInsertedCountImpl tx1).2 (sends a))
      as [[s tx'] idx]. simpl in *.
    destruct (ok s) eqn:Hs; simpl; [|by rewrite Hst].
    rewrite lookup_insert_ne by done. by rewrite Hst. }
  destruct (ok (saveSends tx1 (sends a)).1) eqn:Hok2; simpl;
    [|by rewrite Hok2].
  assert (logInsertedCountImpl (saveSends tx1 (sends a)).2
          = (OK, n + Z.of_nat (length (logs a)))) as Hcount2.
  { unfold logInsertedCountImpl, stateGetUint256 in *.
    by rewrite Hsends by done. }
  destruct (sideloadBlockNumber a); simpl; intros _.
  - split; [done|]. intros key H1 H2. rewrite Hsends by done. by apply Hframe.
  - split; [done|]. intros key H1 H2. rewrite Hsends by done. by apply Hframe.
Qed.


Lemma cursors_behind_logs_frame (core core' : ArbCore) (n n' : Z) :
  cursors_behind_logs core ->
  logInsertedCount core = (OK, n) ->
  logInsertedCount core' = (OK, n') -> n <= n' ->
  logs_cursors core' = logs_cursors core ->
  (forall key, key <> log_inserted_key -> key <> send_inserted_key ->
     state_col (data_storage core') !! key
     = state_col (data_storage core) !! key) ->
  cursors_behind_logs core'.
Proof.
  intros (n0 & Hn0 & Hcur) Hn Hn' Hle Hcursors Hframe.
  rewrite Hn in Hn0. inversion Hn0; subst n0.
  exists n'. split; [done|].
  intros i cur Hi. rewrite Hcursors in Hi.
  destruct (Hcur i cur Hi) as [Hkey (c & Hc & Hcn)].
  split; [done|]. exists c. split; [|lia].
  unfold logsCursorGetCurrentTotalCount, stateGetUint256 in *.
  rewrite Hframe; [done| |]; by rewrite Hkey.
Qed.

(** X28: saving an assertion keeps the logs cursors behind the log.  A
    tick of the core thread that handles a finished assertion, whether it
    commits or breaks, leaves every cursor's persisted position at most the
    inserted count of logs: the count only grows, by the number of logs of
    the assertion, and no cursor key is written. *)
Theorem coreThreadMachineSuccess_keeps_cursors_behind_logs
    (core core' : ArbCore) (m : MachineThread) (n : Z) (flow : TickFlow) :
  cursors_behind_logs core ->
  machine core = Some m ->
  logInsertedCount core = (OK, n) ->
  0 <= n -> n + Z.of_nat (length (logs (nextAssertion m).1)) < U256 ->
  coreThreadMachineSuccess ndebug core = Ret (flow, core') ->
  cursors_behind_logs core'
  /\ (flow = TickContinue ->
      logInsertedCount core'
      = (OK, n + Z.of_nat (length (logs (nextAssertion m).1)))).
Proof.
  intros Hinv Hm Hn Hn0 Hov H.
  unfold coreThreadMachineSuccess in H. rewrite Hm in H.
  destruct (nextAssertion m) as [a m1]. simpl in Hov.
  set (gas := arb_gas_used (output (thread_state_keys m1))) in *.
  pose proof (saveAssertion_state (data_storage core) a gas n Hn Hn0 Hov)
    as Hstate.
  assert (forall c, logs_cursors c = logs_cursors core ->
            data_storage c = data_storage core -> cursors_behind_logs c)
    as Hsame.
  { intros c Hc Hd.
    apply (cursors_behind_logs_frame core c n n Hinv Hn).
    - unfold logInsertedCount in *. by rewrite Hd.
    - lia.
    - done.
    - intros key _ _. by rewrite Hd. }
  destruct (ok (saveAssertion (data_storage core) a gas).1) eqn:Hok;
    simpl in H.
  2:{ inversion H; subst. split; [by apply Hsame|done]. }
  destruct (Hstate eq_refl) as [Hcount Hframe]. clear Hstate.
  destruct (sideloadBlockNumber a) as [block|]; simpl in H.
  - unfold coreThreadSideload in H.
    destruct (saveCheckpoint _ _ _) as [st| |] eqn:Hsave; simpl in H;
      try discriminate.
    assert (state_col st.2
            = state_col (saveAssertion (data_storage core) a gas).2) as Hst.
    { unfold saveCheckpoint in Hsave. simpl in Hsave.
      destruct (negb (isValid _ _)).
      - destruct (assert_ _ _); simpl in Hsave; try discriminate.
        by inversion Hsave.
      - destruct (negb (ok _)); by inversion Hsave. }
    destruct (ok st.1); simpl in H.
    2:{ inversion H; subst. split; [by apply Hsame|done]. }
    destruct (continueRunningMachine m1) as [[|] m2]; simpl in H.
    + inversion H; subst. split; [|intros _].
      * apply (cursors_behind_logs_frame core _ n
                 (n + Z.of_nat (length (logs a))) Hinv Hn).
        -- unfold logInsertedCount, logInsertedCountImpl, stateGetUint256 in *.
           simpl. by rewrite Hst.
        -- lia.
        -- done.
        -- simpl. intros key H1 H2. rewrite Hst. by apply Hframe.
      * unfold logInsertedCount, logInsertedCountImpl, stateGetUint256 in *.
        simpl. by rewrite Hst.
    + inversion H; subst. split; [by apply Hsame|done].
  - inversion H; subst. split; [|intros _; done].
    apply (cursors_behind_logs_frame core _ n
             (n + Z.of_nat (length (logs a))) Hinv Hn); try done. lia.
Qed.


(** X29: a delivery keeps the logs cursors behind the log.  After a full
    delivery cycle of one cursor (request, pass of the core thread, taking
    the logs, confirmation) every cursor's persisted position is still at
    most the inserted count of logs: the served cursor has advanced by the
    number of logs handed out, no further, and the other cursors have not
    moved. *)
Theorem logsCursor_delivery_keeps_cursors_behind_logs
    (core : ArbCore) (idx : nat) (cur : DataCursor) (c n count : Z)
    (hashes : list Z) (vals : list value) :
  cursors_behind_logs core ->
  logs_cursors core !! idx = Some cur ->
  status cur = EMPTY ->
  logsCursorGetCurrentTotalCount (data_storage core) cur = (OK, c) ->
  logInsertedCountImpl (data_storage core) = (OK, n) ->
  0 <= c < n -> n <= SIZE_MAX -> 0 <= count -> c + count < U256 ->
  log_col (data_storage core) = dense 0 hashes ->
  n <= Z.of_nat (length hashes) ->
  Forall2 (fun h v => getValue (value_store (data_storage core)) h = inr v)
    (take (Z.to_nat n) hashes) vals ->
  exists core1 core2 core3 core4 logs,
    logsCursorRequest core idx count = Ret (true, core1)
    /\ handleLogsCursorRequested core1 (data_storage core1) idx = Ret core2
    /\ logsCursorGetLogs core2 idx = Ret ((OK, logs), core3)
    /\ logsCursorConfirmReceived core3 idx = Ret (true, core4)
    /\ cursors_behind_logs core4.
Proof.
  intros Hinv Hidx Hst Hc Hn Hcn Hmax Hcount Hov Hcol Hlen Hvals.
  destruct Hinv as (n0 & Hn0 & Hcur).
  unfold logInsertedCount in Hn0. rewrite Hn in Hn0. inversion Hn0; subst n0.
  destruct (Hcur idx cur Hidx) as [Hkey _].
  destruct (logsCursor_delivery_cycle core idx cur c n count hashes vals)
    as (core1 & core2 & core3 & core4 & core5 & cur4 & H1 & H2 & H3 & H4
        & _ & _ & _ & Hn4 & Hl4 & Hk4 & Hs4); try done.
  exists core1, core2, core3, core4. eexists.
  split; [done|]. split; [done|]. split; [done|]. split; [done|].
  exists n. split; [done|].
  intros i curi Hi. rewrite Hl4 in Hi.
  destruct (decide (i = idx)) as [->|Hne].
  - rewrite list_lookup_insert_eq in Hi by (by eapply lookup_lt_Some).
    inversion Hi; subst curi. split; [by rewrite Hk4|].
    exists (c + Z.min count (n - c)). split; [|lia].
    unfold logsCursorGetCurrentTotalCount, stateGetUint256.
    by rewrite Hs4, Hk4, lookup_insert_eq.
  - rewrite list_lookup_insert_ne in Hi by done.
    destruct (Hcur i curi Hi) as [Hki (ci & Hci & Hle)].
    split; [done|]. exists ci. split; [|done].
    unfold logsCursorGetCurrentTotalCount, stateGetUint256 in *.
    rewrite Hs4, lookup_insert_ne; [done|].
    rewrite Hkey, Hki. intros Heq. apply app_inv_head in Heq.
    inversion Heq. lia.
Qed.

End CursorInvariantFacts.
Lemma initialize_establishes_cursors_behind_logs_witness :
  cursors_behind_logs initializedCore.
Proof.
  apply (@initialize_establishes_cursors_behind_logs refValueStore
           refPlatform refAVM true blankCore initializedCore
           (refThreadAt genesisKeys)).
  - reflexivity.
  - reflexivity.
  - reflexivity.
  - intros [|i] cur Hi; simpl in Hi; [|done]. by inversion Hi.
  - apply Ret_fst_eta. vm_compute. reflexivity.
Defined.

Lemma coreThreadMachineSuccess_keeps_cursors_behind_logs_witness :
  cursors_behind_logs tickedCore
  /\ (TickContinue = TickContinue -> logInsertedCount tickedCore = (OK, 3 + 0)).
Proof.
  apply (@coreThreadMachineSuccess_keeps_cursors_behind_logs refValueStore
           refPlatform refAVM true refCore tickedCore (refThreadAt refMachineKeys) 3
           TickContinue).
  - exact refCore_cursors_behind_logs.
  - reflexivity.
  - reflexivity.
  - lia.
  - vm_compute. reflexivity.
  - apply Ret_fst_eta. vm_compute. reflexivity.
Defined.

Lemma idleCore_cursors_behind_logs : cursors_behind_logs idleCore.
Proof.
  exists 3. split; [reflexivity|].
  intros [|i] cur Hi; simpl in Hi; [|done].
  inversion Hi; subst cur. split; [reflexivity|].
  exists 1. split; [reflexivity|lia].
Qed.

Lemma logsCursor_delivery_keeps_cursors_behind_logs_witness :
  exists core1 core2 core3 core4 logs,
    @logsCursorRequest refValueStore refAVM idleCore 0 5 = Ret (true, core1)
    /\ @handleLogsCursorRequested refValueStore refPlatform refAVM core1
         (data_storage core1) 0 = Ret core2
    /\ logsCursorGetLogs core2 0 = Ret ((OK, logs), core3)
    /\ logsCursorConfirmReceived core3 0 = Ret (true, core4)
    /\ cursors_behind_logs core4.
Proof.
  apply (@logsCursor_delivery_keeps_cursors_behind_logs refValueStore
           refPlatform refAVM idleCore 0%nat idleCursor 1 3 5
           [1007; 1008; 1009] [7; 8; 9]).
  - exact idleCore_cursors_behind_logs.
  - reflexivity.
  - reflexivity.
  - reflexivity.
  - reflexivity.
  - lia.
  - vm_compute. discriminate.
  - lia.
  - vm_compute. reflexivity.
  - reflexivity.
  - simpl. lia.
  - repeat constructor.
Defined.
